(** * USDC payroll platform: payroll run engine, webhook reconciliation,
      attestation monitoring and fee-abstracted operations

    A shallow embedding of the backend services of the payroll platform
    (payrollService, paymasterService, cctpService, the webhook and worker
    routes and the shared request schemas), with the properties of the
    specification stated and proved over it.

    Layout:
    - [JsNum]    : the JavaScript numbers the services compute with
                   (IEEE-754 binary64 as correctly rounded rationals),
                   [parseFloat], [toFixed(6)];
    - [Ledger]   : the Prisma tables and the observable events;
    - [Payroll]  : createPayrollRun, executePayrollRun, updatePayoutStatus;
    - [Webhooks] : the four webhook endpoints;
    - [CCTP]     : getAttestation and monitorTransfer;
    - [Paymaster]: createUserOperationWithUSDCGas and its route;
    - the theorems, one block per property. *)

From stdpp Require Import gmap strings list fin_maps pretty.
From Stdlib Require Import QArith Qpower Qround Qabs Lqa.

Close Scope Q_scope.

(* ===================================================================== *)
(** * JavaScript numbers                                                  *)
(* ===================================================================== *)

Module JsNum.
Local Open Scope Q_scope.

(** A finite double is represented by the rational it denotes.  Every
    arithmetic operation of the source is the exact rational operation
    followed by [rnd], rounding to the nearest binary64 value, ties to
    even (IEEE-754 roundTiesToEven, the only mode JavaScript has). *)

(** [ilog2 q] is the binary exponent of a positive rational:
    [2^(ilog2 q) <= q < 2^(ilog2 q + 1)]. *)
Definition ilog2 (q : Q) : Z :=
  let l := (Z.log2 (Qnum q) - Z.log2 (Zpos (Qden q)))%Z in
  if Qle_bool (2 ^ l) q then l else (l - 1)%Z.

Definition round_half_even (q : Q) : Z :=
  let f := Qfloor q in
  match Qcompare (q - inject_Z f) (1 # 2) with
  | Lt => f
  | Gt => (f + 1)%Z
  | Eq => if Z.even f then f else (f + 1)%Z
  end.

(** Spacing of the doubles around [q]: 53 significant bits, and the fixed
    spacing [2^-1074] of the subnormal range below [2^-1022]. *)
Definition ulp (q : Q) : Q := 2 ^ (Z.max (ilog2 q) (-1022) - 52).

Definition rnd_pos (q : Q) : Q :=
  Qred (inject_Z (round_half_even (q / ulp q)) * ulp q).

Definition rnd (q : Q) : Q :=
  match Qcompare q 0 with
  | Eq => 0
  | Gt => rnd_pos q
  | Lt => - rnd_pos (- q)
  end.

Inductive number := Fin (q : Q) | PosInf | NegInf | NaN.

(** The double nearest to a rational, with overflow to the infinities. *)
Definition of_Q (q : Q) : number :=
  let r := rnd q in
  if Qle_bool (2 ^ 1024) r then PosInf
  else if Qle_bool r (- 2 ^ 1024) then NegInf
  else Fin r.

(** [Number(n)] for a bigint [n]. *)
Definition of_bigint (n : Z) : number := of_Q (inject_Z n).

(** [x + y] *)
Definition js_add (x y : number) : number :=
  match x, y with
  | NaN, _ | _, NaN => NaN
  | PosInf, NegInf | NegInf, PosInf => NaN
  | PosInf, _ | _, PosInf => PosInf
  | NegInf, _ | _, NegInf => NegInf
  | Fin a, Fin b => of_Q (a + b)
  end.

Definition Qsign (q : Q) : comparison := Qcompare q 0.

(** [x * y] *)
Definition js_mul (x y : number) : number :=
  match x, y with
  | NaN, _ | _, NaN => NaN
  | Fin a, Fin b => of_Q (a * b)
  | Fin a, PosInf | PosInf, Fin a =>
      match Qsign a with Gt => PosInf | Lt => NegInf | Eq => NaN end
  | Fin a, NegInf | NegInf, Fin a =>
      match Qsign a with Gt => NegInf | Lt => PosInf | Eq => NaN end
  | PosInf, PosInf | NegInf, NegInf => PosInf
  | PosInf, NegInf | NegInf, PosInf => NegInf
  end.

(** [x / y]; the rational model has one zero, taken as [+0]. *)
Definition js_div (x y : number) : number :=
  match x, y with
  | NaN, _ | _, NaN => NaN
  | Fin a, Fin b =>
      match Qsign b with
      | Eq => match Qsign a with Gt => PosInf | Lt => NegInf | Eq => NaN end
      | _ => of_Q (a / b)
      end
  | Fin _, (PosInf | NegInf) => Fin 0
  | PosInf, Fin b => match Qsign b with Lt => NegInf | _ => PosInf end
  | NegInf, Fin b => match Qsign b with Lt => PosInf | _ => NegInf end
  | (PosInf | NegInf), (PosInf | NegInf) => NaN
  end.

(** [x > y] *)
Definition js_gt (x y : number) : bool :=
  match x, y with
  | NaN, _ | _, NaN => false
  | PosInf, PosInf => false
  | PosInf, _ => true
  | _, PosInf => false
  | NegInf, _ => false
  | Fin _, NegInf => true
  | Fin a, Fin b => negb (Qle_bool a b)
  end.

(** The result of [x.toFixed(6)].  [Fixed6 neg n] is the decimal string
    with exactly six fractional digits denoting [n / 10^6], preceded by a
    minus sign when [neg]; [Verbatim x] is the string [String(x)] that
    toFixed returns for NaN, the infinities and magnitudes from [10^21]
    on (exponent notation).  [String(x)] reads back as [x]. *)
Inductive fixedstr := Fixed6 (neg : bool) (micro : Z) | Verbatim (x : number).

(** Number.prototype.toFixed with 6 fraction digits: the integer [n] with
    [n / 10^6 - x] closest to zero, the larger [n] on a tie. *)
Definition toFixed6 (x : number) : fixedstr :=
  match x with
  | Fin q =>
      let a := Qabs q in
      if Qle_bool (10 ^ 21) a then Verbatim x
      else Fixed6 (negb (Qle_bool 0 q)) (Qfloor (a * 10 ^ 6 + (1 # 2)))
  | _ => Verbatim x
  end.

(** The rational a [Fixed6] string denotes. *)
Definition fixed_value (neg : bool) (micro : Z) : Q :=
  (if neg then - inject_Z micro else inject_Z micro) / 10 ^ 6.

(** [parseFloat] of a string produced by [toFixed(6)]. *)
Definition parseFloat_fixed (s : fixedstr) : number :=
  match s with
  | Fixed6 neg n => of_Q (fixed_value neg n)
  | Verbatim x => x
  end.

(** ** Decimal literals *)

Definition digit_of (c : Ascii.ascii) : option Z :=
  let n := Ascii.nat_of_ascii c in
  if (48 <=? n)%nat && (n <=? 57)%nat then Some (Z.of_nat (n - 48)) else None.

(** Value of a string of decimal digits, most significant first. *)
Fixpoint digits_acc (acc : Z) (s : string) : option Z :=
  match s with
  | EmptyString => Some acc
  | String c s' =>
      match digit_of c with
      | Some d => digits_acc (10 * acc + d) s'
      | None => None
      end
  end.

(** [\d+] *)
Definition digits (s : string) : option Z :=
  match s with
  | EmptyString => None
  | _ => digits_acc 0 s
  end.

(** Split at the first full stop. *)
Fixpoint split_dot (s : string) : string * option string :=
  match s with
  | EmptyString => (EmptyString, None)
  | String c s' =>
      if (Ascii.nat_of_ascii c =? 46)%nat then (EmptyString, Some s')
      else let '(a, b) := split_dot s' in (String c a, b)
  end.

(** The mathematical value of a literal [digits] or [digits.digits]. *)
Definition decimalValue (s : string) : option Q :=
  match split_dot s with
  | (i, None) => option_map inject_Z (digits i)
  | (i, Some f) =>
      match digits i, digits f with
      | Some n, Some m =>
          Some (inject_Z n + inject_Z m / 10 ^ Z.of_nat (String.length f))
      | _, _ => None
      end
  end.

(** The amount format of the shared schemas, [/^\d+(\.\d{1,6})?$/]
    (CSVRowSchema, isValidUSDCAmount). *)
Definition isAmountFormat (s : string) : bool :=
  match split_dot s with
  | (i, None) => bool_decide (is_Some (digits i))
  | (i, Some f) =>
      bool_decide (is_Some (digits i)) && bool_decide (is_Some (digits f))
      && (String.length f <=? 6)%nat
  end.

(** Half the spacing of the doubles between [2^21] and [2^22]. *)
Definition eps : Q := 2 ^ (-32).

(** The exact sum of a list of decimal literals. *)
Definition exactTotal (amounts : list string) : Q :=
  fold_right (fun s acc => default 0 (decimalValue s) + acc) 0 amounts.

(** [parseFloat s].  On a plain decimal literal the result is the double
    nearest to its value.  parseFloat also reads signs, exponents,
    leading blanks and numeric prefixes of longer strings; what it
    returns on those inputs is left to the parameter [other]. *)
Definition parseFloat (other : string -> number) (s : string) : number :=
  match decimalValue s with
  | Some q => of_Q q
  | None => other s
  end.

End JsNum.

(* ===================================================================== *)
(** * The ledger store and the observable events                          *)
(* ===================================================================== *)

Module Ledger.
Import JsNum.

(** ASCII case mapping, as [String.prototype.toLowerCase] and
    [toUpperCase] act on the ASCII range; other bytes are kept. *)
Definition lower_ascii (c : Ascii.ascii) : Ascii.ascii :=
  let n := Ascii.nat_of_ascii c in
  if (65 <=? n)%nat && (n <=? 90)%nat then Ascii.ascii_of_nat (n + 32) else c.

Definition upper_ascii (c : Ascii.ascii) : Ascii.ascii :=
  let n := Ascii.nat_of_ascii c in
  if (97 <=? n)%nat && (n <=? 122)%nat then Ascii.ascii_of_nat (n - 32) else c.

Fixpoint map_string (f : Ascii.ascii -> Ascii.ascii) (s : string) : string :=
  match s with
  | EmptyString => EmptyString
  | String c s' => String (f c) (map_string f s')
  end.

Definition toLowerCase : string -> string := map_string lower_ascii.
Definition toUpperCase : string -> string := map_string upper_ascii.

(** JavaScript truthiness of a nullable string column: [null] and the
    empty string are falsy. *)
Definition truthy (o : option string) : bool :=
  match o with
  | Some s => negb (String.eqb s "")
  | None => false
  end.

(** ** Enumerations (shared/src/types.ts) *)

Inductive PayoutStatus := PENDING | PROCESSING | COMPLETED | FAILED.

Inductive PayrollRunStatus :=
  DRAFT | RUN_PENDING | RUN_PROCESSING | RUN_COMPLETED | RUN_FAILED.

#[global] Instance PayoutStatus_eq_dec : EqDecision PayoutStatus.
Proof. solve_decision. Defined.
#[global] Instance PayrollRunStatus_eq_dec : EqDecision PayrollRunStatus.
Proof. solve_decision. Defined.

(** ** Rows (the Prisma models of the migration) *)

(** A table is the list of its rows in insertion order and the primary
    key of a row is its position: Prisma generates a fresh key for every
    insert, and no operation of the services deletes a row.  Reading the
    store, inserting a row and updating an existing row succeed; the
    unique indexes on [walletId], [recipientId] and [userOpHash] are
    checked where the services can run into them.  A column set to
    [undefined] in an update is left as it is, and a filter on
    [undefined] filters nothing, as Prisma has it. *)

Record Worker := mkWorker {
  worker_name : string;
  worker_email : string;
  walletId : option string;
  recipientId : option string
}.

Record PayrollRun := mkPayrollRun {
  adminId : string;
  run_status : PayrollRunStatus;
  totalAmount : fixedstr;
  totalWorkers : nat;
  run_completedAt : option Z
}.

Record PayrollItem := mkPayrollItem {
  payrollRunId : nat;
  workerId : nat;
  amount : string;
  chain : string;
  status : PayoutStatus;
  payoutId : option string;
  transactionHash : option string;
  errorMessage : option string;
  completedAt : option Z
}.

Inductive AuditPayload :=
| ItemCreated (amount chain workerEmail : string)
| RunCreated (totalAmount : fixedstr) (totalWorkers : nat) (adminId : string)
| PayoutStatusUpdated (payoutId : string) (oldStatus newStatus : PayoutStatus)
    (transactionHash : option string).

Record AuditLog := mkAuditLog {
  eventType : string;
  entityType : string;
  entityId : nat;
  audit_workerId : option nat;
  audit_payrollRunId : option nat;
  payload : AuditPayload
}.

Record CrossChainTransfer := mkCrossChainTransfer {
  xfer_workerId : nat;
  xfer_messageHash : option string;
  xfer_attestation : option string;
  xfer_status : string;
  xfer_transactionHash : option string;
  xfer_errorMessage : option string;
  xfer_completedAt : option Z
}.

Record GasStationTransaction := mkGasStationTransaction {
  gs_workerId : nat;
  gs_chain : string;
  gs_userOpHash : string;
  gs_status : string;
  gs_gasUsed : option string;
  gs_transactionHash : option string;
  gs_completedAt : option Z
}.

Record PaymasterOperationRow := mkPaymasterOperationRow {
  pm_workerId : nat;
  pm_chain : string;
  pm_userOpHash : string;
  pm_status : string;
  pm_gasUsed : option string;
  pm_gasFeeInUSDC : option fixedstr;
  pm_transactionHash : option string;
  pm_completedAt : option Z
}.

Record Store := mkStore {
  workers : list Worker;
  payrollRuns : list PayrollRun;
  payrollItems : list PayrollItem;
  auditLogs : list AuditLog;
  crossChainTransfers : list CrossChainTransfer;
  gasStationTransactions : list GasStationTransaction;
  paymasterOperations : list PaymasterOperationRow
}.

Definition empty_store : Store := mkStore [] [] [] [] [] [] [].

(** ** Errors *)

(** What a service can throw: a [PayrollError] (message, code, HTTP
    status), a plain [Error] with its message, or any other value. *)
Inductive error :=
| PayrollError (message code : string) (statusCode : Z)
| Error (message : string)
| Thrown.

(** [error instanceof Error ? error.message : 'Unknown error'] *)
Definition message_or_unknown (e : error) : string :=
  match e with
  | PayrollError m _ _ => m
  | Error m => m
  | Thrown => "Unknown error"
  end.

(** ** Events *)

(** Everything the services do outside the store, in the order it
    happens: calls to the payment gateway and the chain services, the
    boundaries of a database transaction, warnings and errors written to
    the log, polls and waits. *)
Inductive event :=
| TxBegin
| TxCommit
| TxRollback
| CreateRecipient (email : string) (workerId : nat) (name : string)
| CreateWallet (userId : nat) (blockchains : list string)
| CreateGaslessTransfer (walletId chain recipient amount : string)
| CreatePayout (recipientId amount chain destinationAddress trackingRef : string)
| GetAttestation (messageHash : string)
| Sleep (ms : Z)
| EstimateGas (chain to data : string) (value : option string)
| ChainRead (what : string) (chain address : string)
| SendUserOperation (chain sender callData : string)
| LogWarn (message : string)
| LogError (message : string).

#[global] Instance event_eq_dec : EqDecision event.
Proof. solve_decision. Defined.

(** An event other than the boundaries of a transaction. *)
Definition inner (e : event) : Prop :=
  e <> TxBegin /\ e <> TxCommit /\ e <> TxRollback.

(** No call to the gateway falls between the begin of a transaction and
    its commit or rollback; [inTx] tells whether a transaction is open at
    the start of the history. *)
Fixpoint gatewayOutsideTransactions (inTx : bool) (t : list event) : bool :=
  match t with
  | [] => true
  | TxBegin :: t' => gatewayOutsideTransactions true t'
  | TxCommit :: t' | TxRollback :: t' => gatewayOutsideTransactions false t'
  | (CreateRecipient _ _ _ | CreateWallet _ _
     | CreateGaslessTransfer _ _ _ _ | CreatePayout _ _ _ _ _) :: t' =>
      negb inTx && gatewayOutsideTransactions inTx t'
  | _ :: t' => gatewayOutsideTransactions inTx t'
  end.

Definition is_gateway_call (e : event) : bool :=
  match e with
  | CreateRecipient _ _ _ | CreateWallet _ _
  | CreateGaslessTransfer _ _ _ _ | CreatePayout _ _ _ _ _ => true
  | _ => false
  end.

Definition is_payment_call (e : event) : bool :=
  match e with
  | CreateGaslessTransfer _ _ _ _ | CreatePayout _ _ _ _ _ => true
  | _ => false
  end.

(** The state the services run in: the store and the history so far. *)
Record World := mkWorld { db : Store; trace : list event }.

Definition emit (e : event) (w : World) : World :=
  mkWorld (db w) (trace w ++ [e]).

Definition with_db (f : Store -> Store) (w : World) : World :=
  mkWorld (f (db w)) (trace w).

(** ** The environment *)

(** The answers of the outside world.  Each answer may depend on the
    whole history.  A call either returns or throws. *)
Record GasEstimate := mkGasEstimate {
  gasLimit : Z;
  maxFeePerGas : Z;
  maxPriorityFeePerGas : Z
}.

Inductive HttpReply :=
| Body (attestation : option string)  (* 2xx; response.data.attestation *)
| Status404
| Failure (e : error).

(** The JSON body of a request to POST /api/webhooks/circle. *)
Record CircleData := mkCircleData {
  data_id : option string;
  data_transactionHash : option string;
  data_errorMessage : option string
}.

Record CircleBody := mkCircleBody {
  body_eventType : option string;
  body_data : option CircleData
}.

Record Env := mkEnv {
  (** [new Date()] *)
  clock : list event -> Z;
  (** [parseFloat] outside the plain decimal literals *)
  parseFloat_other : string -> number;
  (** [String(x)] for the numbers toFixed does not format itself *)
  numberToString : number -> string;
  (** zod's [.email()] check *)
  isEmail : string -> bool;
  (** [JSON.stringify(req.body)] *)
  json_stringify : CircleBody -> string;
  (** circleService.createRecipient: the recipient id *)
  createRecipient : list event -> string -> nat -> string -> string + error;
  (** circleService.createWallet: the wallet id *)
  createWallet : list event -> nat -> list string -> string + error;
  (** gasStationService.createGaslessTransfer: id and transaction hash *)
  createGaslessTransfer :
    list event -> string -> string -> string -> string ->
    (string * option string) + error;
  (** circleService.createPayout: the payout id *)
  createPayout :
    list event -> string -> string -> string -> string -> string ->
    string + error;
  (** GET {cctp}/v2/messages/{messageHash} *)
  attestationService : list event -> string -> HttpReply;
  (** viem client: estimateGas with estimateFeesPerGas *)
  estimateGas :
    list event -> string -> string -> string -> option string ->
    GasEstimate + error;
  (** viem client reads: the account nonce and the USDC permit nonce *)
  chainRead : list event -> string -> string -> string -> Z + error;
  (** the bundler's eth_sendUserOperation: the operation hash *)
  sendUserOperation : list event -> string -> string -> string -> string + error;
  (** HMAC-SHA256 of a payload under the webhook secret, in hex *)
  hmac_sha256_hex : string -> string
}.

End Ledger.

(* ===================================================================== *)
(** * The payroll service (PayrollService)                                 *)
(* ===================================================================== *)

Module Payroll.
Import JsNum Ledger.

(** ** Computations: state, history and exceptions *)

Definition M (A : Type) : Type := World -> (A + error) * World.

Definition ret {A} (a : A) : M A := fun w => (inl a, w).

Definition throw {A} (e : error) : M A := fun w => (inr e, w).

Definition bind {A B} (m : M A) (k : A -> M B) : M B :=
  fun w =>
    match m w with
    | (inl a, w') => k a w'
    | (inr e, w') => (inr e, w')
    end.

(** [try { m } catch (e) { h e }]: the effects of [m] up to the throw stay. *)
Definition try_catch {A} (m : M A) (h : error -> M A) : M A :=
  fun w =>
    match m w with
    | (inl a, w') => (inl a, w')
    | (inr e, w') => h e w'
    end.

Notation "'let!' x ':=' m 'in' k" := (bind m (fun x => k))
  (at level 10, x name, m at level 200, k at level 200).
Notation "'do!' m 'in' k" := (bind m (fun _ => k))
  (at level 10, m at level 200, k at level 200).

Definition tell (e : event) : M unit := fun w => (inl tt, emit e w).

Definition get_db : M Store := fun w => (inl (db w), w).

Definition modify_db (f : Store -> Store) : M unit :=
  fun w => (inl tt, with_db f w).

(** A call to the outside: the answer is the environment's, given the
    history before the call; the call is recorded. *)
Definition call {A} (ev : event) (answer : list event -> A + error) : M A :=
  fun w => (answer (trace w), emit ev w).

Definition now (env : Env) : M Z := fun w => (inl (clock env (trace w)), w).

(** [prisma.$transaction(body)]: the writes of [body] are kept when it
    returns and undone when it throws; what [body] did outside the store
    has happened either way. *)
Definition transaction {A} (body : M A) : M A :=
  fun w =>
    match body (emit TxBegin w) with
    | (inl a, w') => (inl a, emit TxCommit w')
    | (inr e, w') => (inr e, emit TxRollback (mkWorld (db w) (trace w')))
    end.

(** ** Table updates *)

Definition set_workers (f : list Worker -> list Worker) (s : Store) : Store :=
  mkStore (f (workers s)) (payrollRuns s) (payrollItems s) (auditLogs s)
    (crossChainTransfers s) (gasStationTransactions s) (paymasterOperations s).

Definition set_payrollRuns (f : list PayrollRun -> list PayrollRun) (s : Store) : Store :=
  mkStore (workers s) (f (payrollRuns s)) (payrollItems s) (auditLogs s)
    (crossChainTransfers s) (gasStationTransactions s) (paymasterOperations s).

Definition set_payrollItems (f : list PayrollItem -> list PayrollItem) (s : Store) : Store :=
  mkStore (workers s) (payrollRuns s) (f (payrollItems s)) (auditLogs s)
    (crossChainTransfers s) (gasStationTransactions s) (paymasterOperations s).

Definition set_auditLogs (f : list AuditLog -> list AuditLog) (s : Store) : Store :=
  mkStore (workers s) (payrollRuns s) (payrollItems s) (f (auditLogs s))
    (crossChainTransfers s) (gasStationTransactions s) (paymasterOperations s).

(** [create]: append the row, its key is its position. *)
Definition create_worker (r : Worker) : M nat :=
  fun w => (inl (length (workers (db w))), with_db (set_workers (fun l => l ++ [r])) w).

Definition create_payrollRun (r : PayrollRun) : M nat :=
  fun w => (inl (length (payrollRuns (db w))),
            with_db (set_payrollRuns (fun l => l ++ [r])) w).

Definition create_payrollItem (r : PayrollItem) : M nat :=
  fun w => (inl (length (payrollItems (db w))),
            with_db (set_payrollItems (fun l => l ++ [r])) w).

Definition create_auditLog (r : AuditLog) : M unit :=
  modify_db (set_auditLogs (fun l => l ++ [r])).

(** [update({ where: { id }, data })] on an existing row. *)
Definition update_payrollItem (id : nat) (f : PayrollItem -> PayrollItem) : M unit :=
  modify_db (set_payrollItems (alter f id)).

Definition update_payrollRun (id : nat) (f : PayrollRun -> PayrollRun) : M unit :=
  modify_db (set_payrollRuns (alter f id)).

(** Field setters.  Prisma leaves a column alone when the value given for
    it is [undefined]. *)
Definition item_set_status (st : PayoutStatus) (i : PayrollItem) : PayrollItem :=
  mkPayrollItem (payrollRunId i) (workerId i) (amount i) (chain i) st
    (payoutId i) (transactionHash i) (errorMessage i) (completedAt i).

Definition keep_or {A} (new old : option A) : option A :=
  match new with Some _ => new | None => old end.

Definition item_set_completed (pid : string) (tx : option string) (t : Z)
    (i : PayrollItem) : PayrollItem :=
  mkPayrollItem (payrollRunId i) (workerId i) (amount i) (chain i) COMPLETED
    (Some pid) (keep_or tx (transactionHash i)) (errorMessage i) (Some t).

Definition item_set_failed (msg : string) (i : PayrollItem) : PayrollItem :=
  mkPayrollItem (payrollRunId i) (workerId i) (amount i) (chain i) FAILED
    (payoutId i) (transactionHash i) (Some msg) (completedAt i).

Definition item_set_payout_status (st : PayoutStatus) (tx : option string)
    (t : Z) (i : PayrollItem) : PayrollItem :=
  mkPayrollItem (payrollRunId i) (workerId i) (amount i) (chain i) st
    (payoutId i) (keep_or tx (transactionHash i)) (errorMessage i)
    (if decide (st = COMPLETED) then Some t else completedAt i).

Definition run_set_status (st : PayrollRunStatus) (r : PayrollRun) : PayrollRun :=
  mkPayrollRun (adminId r) st (totalAmount r) (totalWorkers r) (run_completedAt r).

Definition run_set_final (st : PayrollRunStatus) (t : Z) (r : PayrollRun) : PayrollRun :=
  mkPayrollRun (adminId r) st (totalAmount r) (totalWorkers r) (Some t).

Definition worker_set_recipientId (rid : string) (x : Worker) : Worker :=
  mkWorker (worker_name x) (worker_email x) (walletId x) (Some rid).

Definition worker_set_walletId (wid : string) (x : Worker) : Worker :=
  mkWorker (worker_name x) (worker_email x) (Some wid) (recipientId x).

(** [tx.worker.update]: [recipientId] and [walletId] carry a unique index,
    an update that would duplicate a value throws. *)
Definition update_worker_recipientId (id : nat) (rid : string) : M unit :=
  fun w =>
    if existsb (fun x => bool_decide (recipientId x = Some rid)) (workers (db w))
    then (inr (Error "Unique constraint failed on the fields: (`recipientId`)"), w)
    else (inl tt, with_db (set_workers (alter (worker_set_recipientId rid) id)) w).

Definition update_worker_walletId (id : nat) (wid : string) : M unit :=
  fun w =>
    if existsb (fun x => bool_decide (walletId x = Some wid)) (workers (db w))
    then (inr (Error "Unique constraint failed on the fields: (`walletId`)"), w)
    else (inl tt, with_db (set_workers (alter (worker_set_walletId wid) id)) w).


(** The store with rows appended to the worker, run, item and audit
    tables. *)
Definition extend_store (s : Store) (ws : list Worker) (rs : list PayrollRun)
    (its : list PayrollItem) (logs : list AuditLog) : Store :=
  mkStore (workers s ++ ws) (payrollRuns s ++ rs) (payrollItems s ++ its)
    (auditLogs s ++ logs) (crossChainTransfers s) (gasStationTransactions s)
    (paymasterOperations s).

(** ** createPayrollRun *)

(** A row of the request body ([CreatePayrollRunRequest.workers]). *)
Record WorkerRow := mkWorkerRow {
  row_name : string;
  row_email : string;
  row_amount : string;
  row_chain : string
}.

(** [request.workers.reduce((sum, worker) => sum + parseFloat(worker.amount), 0)] *)
Definition sumAmounts (env : Env) (rows : list WorkerRow) : number :=
  fold_left
    (fun sum worker => js_add sum (parseFloat (parseFloat_other env) (row_amount worker)))
    rows (Fin 0).

Definition computeTotalAmount (env : Env) (rows : list WorkerRow) : fixedstr :=
  toFixed6 (sumAmounts env rows).

(** [tx.worker.findUnique({ where: { email } })] *)
Definition findWorkerByEmail (email : string) (s : Store) : option (nat * Worker) :=
  list_find (fun x => worker_email x = email) (workers s).

(** The two provisioning steps of a newly created worker, each in its own
    [try { ... } catch (error) { logger.warn(...) }]. *)
Definition provisionRecipient (env : Env) (id : nat) (row : WorkerRow) : M unit :=
  try_catch
    (let! rid := call (CreateRecipient (row_email row) id (row_name row))
                   (fun t => createRecipient env t (row_email row) id (row_name row)) in
     update_worker_recipientId id rid)
    (fun _ => tell (LogWarn "Failed to create Circle recipient")).

Definition provisionWallet (env : Env) (id : nat) (row : WorkerRow) : M unit :=
  try_catch
    (let! wid := call (CreateWallet id [row_chain row])
                   (fun t => createWallet env t id [row_chain row]) in
     update_worker_walletId id wid)
    (fun _ => tell (LogWarn "Failed to create programmable wallet")).

(** Find or create the worker of a row. *)
Definition findOrCreateWorker (env : Env) (row : WorkerRow) : M nat :=
  let! s := get_db in
  match findWorkerByEmail (row_email row) s with
  | Some (id, _) => ret id
  | None =>
      let! id := create_worker (mkWorker (row_name row) (row_email row) None None) in
      do! provisionRecipient env id row in
      do! provisionWallet env id row in
      ret id
  end.

(** The body of the loop over [request.workers]: the created item. *)
Definition processRow (env : Env) (runId : nat) (row : WorkerRow)
    : M (nat * PayrollItem) :=
  let! wid := findOrCreateWorker env row in
  let item := mkPayrollItem runId wid (row_amount row) (toUpperCase (row_chain row))
                PENDING None None None None in
  let! iid := create_payrollItem item in
  do! create_auditLog
        (mkAuditLog "PAYROLL_ITEM_CREATED" "PayrollItem" iid (Some wid) (Some runId)
           (ItemCreated (row_amount row) (row_chain row) (row_email row))) in
  ret (iid, item).

Fixpoint processRows (env : Env) (runId : nat) (rows : list WorkerRow)
    : M (list (nat * PayrollItem)) :=
  match rows with
  | [] => ret []
  | row :: rest =>
      let! it := processRow env runId row in
      let! its := processRows env runId rest in
      ret (it :: its)
  end.

Record CreateResult := mkCreateResult {
  created_runId : nat;
  created_run : PayrollRun;
  created_items : list (nat * PayrollItem)
}.

Definition createPayrollRun (env : Env) (admin : string) (rows : list WorkerRow)
    : M CreateResult :=
  try_catch
    (let total := computeTotalAmount env rows in
     transaction
       (let run := mkPayrollRun admin DRAFT total (length rows) None in
        let! runId := create_payrollRun run in
        let! items := processRows env runId rows in
        do! update_payrollRun runId (run_set_status RUN_PENDING) in
        do! create_auditLog
              (mkAuditLog "PAYROLL_RUN_CREATED" "PayrollRun" runId None (Some runId)
                 (RunCreated total (length rows) admin)) in
        ret (mkCreateResult runId (run_set_status RUN_PENDING run) items)))
    (fun _ =>
       do! tell (LogError "Failed to create payroll run") in
       throw (PayrollError "Failed to create payroll run" "PAYROLL_RUN_NOT_FOUND" 500)).


(** The item a row gives rise to, for worker [wid] in run [runId]. *)
Definition itemOfRow (runId wid : nat) (row : WorkerRow) : PayrollItem :=
  mkPayrollItem runId wid (row_amount row) (toUpperCase (row_chain row))
    PENDING None None None None.

(** The run row that creation leaves in the store. *)
Definition createdRun (env : Env) (admin : string) (rows : list WorkerRow) : PayrollRun :=
  mkPayrollRun admin RUN_PENDING (computeTotalAmount env rows) (length rows) None.

(** Every item points to a run of the store (the foreign key of
    [payroll_items.payrollRunId]). *)
Definition itemsReferToRuns (s : Store) : Prop :=
  Forall (fun i => payrollRunId i < length (payrollRuns s)) (payrollItems s).

(** ** executePayrollRun *)

Definition noPaymentMethod : string := "Worker has no wallet or recipient configured".

(** What the [catch] of executePayrollRun writes to the log. *)
Definition executeFailureLog : list event := [LogError "Failed to execute payroll run"].

(** An update that keeps the run, worker, amount and chain of an item. *)
Definition same_identity (f : PayrollItem -> PayrollItem) : Prop :=
  forall x, payrollRunId (f x) = payrollRunId x /\ workerId (f x) = workerId x
            /\ amount (f x) = amount x /\ chain (f x) = chain x.


(** What a payment path hands back to the loop. *)
Record Payout := mkPayout {
  payout_id : string;
  payout_transactionHash : option string;
  payout_type : string
}.

(** The value of a truthy nullable string. *)
Definition truthy_value (o : option string) : option string :=
  if truthy o then o else None.

(** executeGaslessPayment: a sponsored transfer to the worker's own wallet. *)
Definition executeGaslessPayment (env : Env) (item : PayrollItem) (wallet : string)
    : M Payout :=
  let chain' := toLowerCase (chain item) in
  let! tx := call (CreateGaslessTransfer wallet chain' wallet (amount item))
               (fun t => createGaslessTransfer env t wallet chain' wallet (amount item)) in
  ret (mkPayout (fst tx) (snd tx) "gasless").

Definition placeholderDestination : string :=
  "0x742d35Cc6634C0532925a3b8D0C9C5e3F6C4C3C3".

Definition trackingRef (itemId : nat) : string := "payroll-" +:+ pretty itemId.

(** executeCirclePayout: a custodial payout through the gateway. *)
Definition executeCirclePayout (env : Env) (itemId : nat) (item : PayrollItem)
    (recipient : string) : M Payout :=
  let chain' := toLowerCase (chain item) in
  let! pid := call (CreatePayout recipient (amount item) chain' placeholderDestination
                      (trackingRef itemId))
                (fun t => createPayout env t recipient (amount item) chain'
                            placeholderDestination (trackingRef itemId)) in
  ret (mkPayout pid None "circle_payout").

(** An item of the run as [findUnique] loaded it, with its worker. *)
Definition LoadedItem : Type := nat * PayrollItem * option Worker.

(** The choice of the payment path. *)
Definition dispatch (env : Env) (li : LoadedItem) : M Payout :=
  let '(id, item, worker) := li in
  match worker with
  | None => throw (Error "Cannot read properties of null (reading 'walletId')")
  | Some worker =>
      match truthy_value (walletId worker) with
      | Some wallet => executeGaslessPayment env item wallet
      | None =>
          match truthy_value (recipientId worker) with
          | Some recipient => executeCirclePayout env id item recipient
          | None => throw (Error noPaymentMethod)
          end
      end
  end.

(** The payment call the dispatch of a loaded item makes. *)
Definition paymentCall (li : LoadedItem) : list event :=
  let '(id, item, worker) := li in
  match worker with
  | None => []
  | Some worker =>
      match truthy_value (walletId worker) with
      | Some wallet =>
          [CreateGaslessTransfer wallet (toLowerCase (chain item)) wallet (amount item)]
      | None =>
          match truthy_value (recipientId worker) with
          | Some recipient =>
              [CreatePayout recipient (amount item) (toLowerCase (chain item))
                 placeholderDestination (trackingRef id)]
          | None => []
          end
      end
  end.

Inductive EntryStatus := entry_completed | entry_failed.

#[global] Instance EntryStatus_eq_dec : EqDecision EntryStatus.
Proof. solve_decision. Defined.

Record ResultEntry := mkResultEntry {
  entry_payrollItemId : nat;
  entry_workerId : nat;
  entry_status : EntryStatus;
  entry_payoutId : option string;
  entry_error : option string
}.

(** The body of the loop over [payrollRun.payrollItems]. *)
Definition processItem (env : Env) (li : LoadedItem) : M ResultEntry :=
  let '(id, item, _) := li in
  try_catch
    (do! update_payrollItem id (item_set_status PROCESSING) in
     let! payout := dispatch env li in
     let! t := now env in
     do! update_payrollItem id
           (item_set_completed (payout_id payout) (payout_transactionHash payout) t) in
     ret (mkResultEntry id (workerId item) entry_completed (Some (payout_id payout)) None))
    (fun e =>
       do! tell (LogError "Failed to process payroll item") in
       do! update_payrollItem id (item_set_failed (message_or_unknown e)) in
       ret (mkResultEntry id (workerId item) entry_failed None
              (Some (message_or_unknown e)))).

Fixpoint processItems (env : Env) (items : list LoadedItem) : M (list ResultEntry) :=
  match items with
  | [] => ret []
  | li :: rest =>
      let! r := processItem env li in
      let! rs := processItems env rest in
      ret (r :: rs)
  end.

(** Whether the payment call for an item answers ([true]) or throws, when
    the item is reached in world [w]. *)
Definition dispatchSucceeds (env : Env) (li : LoadedItem) (w : World) : bool :=
  match fst (dispatch env li
               (with_db (set_payrollItems
                           (alter (item_set_status PROCESSING) (fst (fst li)))) w)) with
  | inl _ => true
  | inr _ => false
  end.

(** The outcomes of the dispatches of a list of items, in order, each in
    the world the loop has reached by then. *)
Fixpoint dispatchOutcomes (env : Env) (items : list LoadedItem) (w : World) : list bool :=
  match items with
  | [] => []
  | li :: rest =>
      dispatchSucceeds env li w :: dispatchOutcomes env rest (snd (processItem env li w))
  end.

(** [include: { payrollItems: { include: { worker: true } } }]: the items
    of the run, each with its key and its worker. *)
Fixpoint loadFrom (runId : nat) (s : Store) (id : nat) (items : list PayrollItem)
    : list LoadedItem :=
  match items with
  | [] => []
  | item :: rest =>
      (if decide (payrollRunId item = runId)
       then [(id, item, workers s !! workerId item)] else [])
      ++ loadFrom runId s (S id) rest
  end.

Definition loadItems (runId : nat) (s : Store) : list LoadedItem :=
  loadFrom runId s 0 (payrollItems s).

Definition loadedId (li : LoadedItem) : nat := fst (fst li).

(** The item status that goes with an entry of the results. *)
Definition entryPayoutStatus (r : ResultEntry) : PayoutStatus :=
  match entry_status r with
  | entry_completed => COMPLETED
  | entry_failed => FAILED
  end.

Definition countStatus (st : EntryStatus) (results : list ResultEntry) : nat :=
  length (filter (fun r => entry_status r = st) results).

Definition finalStatus (results : list ResultEntry) : PayrollRunStatus :=
  let completedCount := countStatus entry_completed results in
  let failedCount := countStatus entry_failed results in
  if decide (failedCount = 0%nat) then RUN_COMPLETED
  else if decide (completedCount = 0%nat) then RUN_FAILED
  else RUN_COMPLETED.

Record ExecuteResult := mkExecuteResult {
  exec_payrollRunId : nat;
  exec_status : PayrollRunStatus;
  exec_results : list ResultEntry;
  exec_total : nat;
  exec_completed : nat;
  exec_failed : nat
}.

(** The dispatch outcomes of the items of a run executed from [w]. *)
Definition executionOutcomes (env : Env) (runId : nat) (w : World) : list bool :=
  dispatchOutcomes env (loadItems runId (db w))
    (with_db (set_payrollRuns (alter (run_set_status RUN_PROCESSING) runId)) w).

Definition runNotFound : error :=
  PayrollError "Payroll run not found" "PAYROLL_RUN_NOT_FOUND" 404.

Definition runNotPending : error :=
  PayrollError "Payroll run is not in pending status" "PAYROLL_RUN_NOT_FOUND" 400.

Definition executePayrollRun (env : Env) (runId : nat) : M ExecuteResult :=
  try_catch
    (let! s := get_db in
     match payrollRuns s !! runId with
     | None => throw runNotFound
     | Some payrollRun =>
         if decide (run_status payrollRun = RUN_PENDING) then
           do! update_payrollRun runId (run_set_status RUN_PROCESSING) in
           let! results := processItems env (loadItems runId s) in
           let final := finalStatus results in
           let! t := now env in
           do! update_payrollRun runId (run_set_final final t) in
           ret (mkExecuteResult runId final results (length results)
                  (countStatus entry_completed results)
                  (countStatus entry_failed results))
         else throw runNotPending
     end)
    (fun e =>
       do! tell (LogError "Failed to execute payroll run") in
       (* the update is attempted and its own failure ignored *)
       do! update_payrollRun runId (run_set_status RUN_FAILED) in
       throw e).

(** ** updatePayoutStatus *)

Definition mapPayoutStatus (status : string) : PayoutStatus :=
  let s := toLowerCase status in
  if String.eqb s "complete" || String.eqb s "completed" then COMPLETED
  else if String.eqb s "failed" || String.eqb s "error" then FAILED
  else PROCESSING.

(** [prisma.payrollItem.findFirst({ where: { payoutId } })]; a filter
    whose value is [undefined] matches every row. *)
Definition findItemByPayoutId (pid : option string) (s : Store)
    : option (nat * PayrollItem) :=
  match pid with
  | Some p => list_find (fun i => payoutId i = Some p) (payrollItems s)
  | None => list_find (fun _ => True) (payrollItems s)
  end.

Definition updatePayoutStatus (env : Env) (pid : option string) (reported : string)
    (txHash : option string) : M unit :=
  let! s := get_db in
  match findItemByPayoutId pid s with
  | None => tell (LogWarn "Payroll item not found for payout")
  | Some (id, payrollItem) =>
      let newStatus := mapPayoutStatus reported in
      let! t := now env in
      do! update_payrollItem id (item_set_payout_status newStatus txHash t) in
      create_auditLog
        (mkAuditLog "PAYOUT_STATUS_UPDATED" "PayrollItem" id
           (Some (workerId payrollItem)) (Some (payrollRunId payrollItem))
           (PayoutStatusUpdated (default "" pid) (status payrollItem) newStatus txHash))
  end.


(** A status report as the webhook handlers pass it on. *)
Record Report := mkReport {
  report_payoutId : option string;
  report_status : string;
  report_transactionHash : option string
}.

Definition terminal (st : PayoutStatus) : bool :=
  match st with
  | COMPLETED | FAILED => true
  | PENDING | PROCESSING => false
  end.

(** ** POST /api/payroll/runs *)

Inductive Response (A : Type) :=
| Success (statusCode : Z) (data : A) (message : option string)
| Failed (statusCode : Z) (message : string) (code : string).
Arguments Success {A}.
Arguments Failed {A}.

Definition supportedChains : list string :=
  ["ethereum"; "arbitrum"; "base"; "avalanche"; "polygon"].

(** ChainSchema, [z.nativeEnum(SupportedChain)] *)
Definition isSupportedChain (c : string) : bool :=
  bool_decide (c ∈ supportedChains).

(** CreatePayrollRunRequestSchema: an array of rows with a non-empty
    name, an email address, any string as amount and a supported chain. *)
Definition validRow (env : Env) (r : WorkerRow) : bool :=
  negb (String.eqb (row_name r) "") && isEmail env (row_email r)
  && isSupportedChain (row_chain r).

Definition CreatePayrollRunRequestSchema (env : Env) (rows : list WorkerRow) : bool :=
  forallb (validRow env) rows.

Definition postPayrollRuns (env : Env) (adminHeader : option string)
    (rows : list WorkerRow) : World -> Response CreateResult * World :=
  fun w =>
    let admin := default "admin-1" (truthy_value adminHeader) in
    if CreatePayrollRunRequestSchema env rows then
      match createPayrollRun env admin rows w with
      | (inl result, w') =>
          (Success 201 result (Some "Payroll run created successfully"), w')
      | (inr e, w') =>
          (Failed 500 (message_or_unknown e) "PAYROLL_CREATION_ERROR",
           emit (LogError "Failed to create payroll run via API") w')
      end
    else (Failed 400 "Invalid request data" "INVALID_REQUEST_DATA", w).

End Payroll.

(* ===================================================================== *)
(** * The webhook endpoints (routes/webhookRoutes.ts)                      *)
(* ===================================================================== *)

Module Webhooks.
Import JsNum Ledger Payroll.

(** verifyWebhookSignature.  [Buffer.from(undefined)] throws and so does
    [crypto.timingSafeEqual] on buffers of different lengths; both land
    in the [catch], which logs and answers [false]. *)
Definition verifyWebhookSignature (env : Env) (payload : string)
    (signature : option string) : M bool :=
  let expected := "sha256=" +:+ hmac_sha256_hex env payload in
  match signature with
  | None =>
      do! tell (LogError "Failed to verify webhook signature") in ret false
  | Some sig =>
      if decide (String.length sig = String.length expected) then
        ret (bool_decide (sig = expected))
      else
        do! tell (LogError "Failed to verify webhook signature") in ret false
  end.

(** [prisma] is not bound in routes/webhookRoutes.ts: the module imports
    express, crypto, payrollService, logger and the shared helpers, and
    declares no such name.  Evaluating the identifier throws a
    ReferenceError, before the arguments of the call are evaluated. *)
Definition prismaNotDefined : error := Error "prisma is not defined".

(** An update of the paymaster operations (the worker routes write
    them). *)
Definition set_paymasterOperations
    (f : list PaymasterOperationRow -> list PaymasterOperationRow) (s : Store) : Store :=
  mkStore (workers s) (payrollRuns s) (payrollItems s) (auditLogs s)
    (crossChainTransfers s) (gasStationTransactions s) (f (paymasterOperations s)).

(** handlePayoutCompleted, handlePayoutFailed: destructuring an absent
    [data] throws. *)
Definition handlePayoutCompleted (env : Env) (data : option CircleData) : M unit :=
  match data with
  | None => do! tell (LogError "Failed to handle payout completed") in throw Thrown
  | Some d => updatePayoutStatus env (data_id d) "completed" (data_transactionHash d)
  end.

Definition handlePayoutFailed (env : Env) (data : option CircleData) : M unit :=
  match data with
  | None => do! tell (LogError "Failed to handle payout failed") in throw Thrown
  | Some d => updatePayoutStatus env (data_id d) "failed" None
  end.

(** handleTransferCompleted, handleTransferFailed: after the
    destructuring of [data] the update goes through [prisma]; either way
    the [catch] logs and throws again. *)
Definition handleTransferCompleted (env : Env) (data : option CircleData) : M unit :=
  do! tell (LogError "Failed to handle transfer completed") in
  match data with
  | None => throw Thrown
  | Some _ => throw prismaNotDefined
  end.

Definition handleTransferFailed (env : Env) (data : option CircleData) : M unit :=
  do! tell (LogError "Failed to handle transfer failed") in
  match data with
  | None => throw Thrown
  | Some _ => throw prismaNotDefined
  end.

Inductive Received := received.

Definition respond {A} (m : M A) (ok : A -> Response Received)
    (failure : Response Received) (failureLog : string)
    : World -> Response Received * World :=
  fun w =>
    match m w with
    | (inl a, w') => (ok a, w')
    | (inr _, w') => (failure, emit (LogError failureLog) w')
    end.

Record CircleRequest := mkCircleRequest {
  circle_signature : option string;
  circle_body : CircleBody
}.

Definition invalidSignature : Response Received :=
  Failed 401 "Invalid webhook signature" "INVALID_SIGNATURE".

(** POST /api/webhooks/circle *)
Definition postCircle (env : Env) (req : CircleRequest)
    : World -> Response Received * World :=
  respond
    (let payload := json_stringify env (circle_body req) in
     let! valid := verifyWebhookSignature env payload (circle_signature req) in
     if negb valid then
       do! tell (LogWarn "Invalid webhook signature") in ret invalidSignature
     else
       let data := body_data (circle_body req) in
       do! match body_eventType (circle_body req) with
           | Some "payouts.completed" => handlePayoutCompleted env data
           | Some "payouts.failed" => handlePayoutFailed env data
           | Some "transfers.completed" => handleTransferCompleted env data
           | Some "transfers.failed" => handleTransferFailed env data
           | _ => ret tt
           end in
       ret (Success 200 received None))
    (fun r => r)
    (Failed 500 "Failed to process webhook" "WEBHOOK_PROCESSING_ERROR")
    "Failed to process Circle webhook".

Record CctpBody := mkCctpBody {
  cctp_messageHash : option string;
  cctp_attestation : option string;
  cctp_status : option string
}.

(** POST /api/webhooks/cctp: the update of the transfer goes through
    [prisma]. *)
Definition postCctp (env : Env) (body : CctpBody)
    : World -> Response Received * World :=
  respond
    (do! (if bool_decide (cctp_status body = Some "attested")
             && truthy (cctp_attestation body)
          then throw prismaNotDefined
          else ret tt) in
     ret tt)
    (fun _ => Success 200 received None)
    (Failed 500 "Failed to process CCTP webhook" "CCTP_WEBHOOK_ERROR")
    "Failed to process CCTP webhook".

Record GasStationBody := mkGasStationBody {
  gsb_transactionId : option string;
  gsb_status : option string;
  gsb_gasUsed : option string;
  gsb_transactionHash : option string
}.

(** POST /api/webhooks/gas-station: the body is destructured and the
    update of the transaction goes through [prisma]. *)
Definition postGasStation (env : Env) (body : GasStationBody)
    : World -> Response Received * World :=
  respond
    (throw prismaNotDefined : M unit)
    (fun _ => Success 200 received None)
    (Failed 500 "Failed to process Gas Station webhook" "GAS_STATION_WEBHOOK_ERROR")
    "Failed to process Gas Station webhook".

Record PaymasterBody := mkPaymasterBody {
  pmb_userOpHash : option string;
  pmb_status : option string;
  pmb_gasUsed : option string;
  pmb_gasFeeInUSDC : option fixedstr;
  pmb_transactionHash : option string
}.

(** POST /api/webhooks/paymaster: the body is destructured and the
    update of the operation goes through [prisma]. *)
Definition postPaymaster (env : Env) (body : PaymasterBody)
    : World -> Response Received * World :=
  respond
    (throw prismaNotDefined : M unit)
    (fun _ => Success 200 received None)
    (Failed 500 "Failed to process Paymaster webhook" "PAYMASTER_WEBHOOK_ERROR")
    "Failed to process Paymaster webhook".

(** The four endpoints behind one entry point. *)
Inductive WebhookRequest :=
| ToCircle (req : CircleRequest)
| ToCctp (signature : option string) (body : CctpBody)
| ToGasStation (signature : option string) (body : GasStationBody)
| ToPaymaster (signature : option string) (body : PaymasterBody).

Definition webhook (env : Env) (req : WebhookRequest)
    : World -> Response Received * World :=
  match req with
  | ToCircle r => postCircle env r
  | ToCctp _ b => postCctp env b
  | ToGasStation _ b => postGasStation env b
  | ToPaymaster _ b => postPaymaster env b
  end.

End Webhooks.

(* ===================================================================== *)
(** * Attestation polling (CCTPService)                                    *)
(* ===================================================================== *)

Module CCTP.
Import JsNum Ledger Payroll.

(** getAttestation: the attestation when the service has one, [null]
    when the reply carries none or is a 404, and a throw on any other
    failure. *)
Definition getAttestation (env : Env) (messageHash : string) : M (option string) :=
  fun w =>
    let w' := emit (GetAttestation messageHash) w in
    match attestationService env (trace w) messageHash with
    | Body a => (inl (truthy_value a), w')
    | Status404 => (inl None, w')
    | Failure e => (inr e, emit (LogError "Failed to get CCTP attestation") w')
    end.

Record CCTPTransfer := mkCCTPTransfer {
  cctp_transfer_messageHash : string;
  cctp_transfer_attestation : option string;
  cctp_transfer_sourceChain : string;
  cctp_transfer_destinationChain : string;
  cctp_transfer_amount : string;
  cctp_transfer_recipient : string;
  cctp_transfer_status : string
}.

Definition pollInterval : Z := 30000.

Definition monitoringTimeout : error := Error "Transfer monitoring timeout".

(** One turn of the [while (attempts < maxAttempts)] loop: [Some] is the
    [return] out of the loop, [None] goes round again with [attempts]
    incremented (by the [try] block after the wait, or by the [catch]). *)
Definition monitorStep (env : Env) (messageHash : string) : M (option CCTPTransfer) :=
  try_catch
    (let! attestation := getAttestation env messageHash in
     match attestation with
     | Some a =>
         ret (Some (mkCCTPTransfer messageHash (Some a) "ethereum" "arbitrum" "0" ""
                      "attested"))
     | None =>
         do! tell (Sleep pollInterval) in ret None
     end)
    (fun _ => do! tell (LogError "Error monitoring transfer") in ret None).

(** The loop, by the number of attempts left, [maxAttempts - attempts]. *)
Fixpoint monitorLoop (env : Env) (messageHash : string) (remaining : nat)
    : M CCTPTransfer :=
  match remaining with
  | O => throw monitoringTimeout
  | S remaining' =>
      let! r := monitorStep env messageHash in
      match r with
      | Some transfer => ret transfer
      | None => monitorLoop env messageHash remaining'
      end
  end.

(** A reply that carries no attestation. *)
Definition noAttestation (r : HttpReply) : Prop :=
  match r with
  | Body a => truthy_value a = None
  | Status404 | Failure _ => True
  end.

(** A reply that says "not yet available": a 404 or a body without
    attestation. *)
Definition notYetAvailable (r : HttpReply) : Prop :=
  match r with
  | Body a => truthy_value a = None
  | Status404 => True
  | Failure _ => False
  end.

Definition is_poll (e : event) : bool :=
  match e with GetAttestation _ => true | _ => false end.

Definition is_wait (e : event) : bool :=
  match e with Sleep _ => true | _ => false end.

Definition defaultMaxAttempts : nat := 60.

Definition monitorTransfer (env : Env) (messageHash : string) (maxAttempts : option nat)
    : M CCTPTransfer :=
  monitorLoop env messageHash (default defaultMaxAttempts maxAttempts).

End CCTP.

(* ===================================================================== *)
(** * Fee-abstracted operations (PaymasterService and its route)           *)
(* ===================================================================== *)

Module Paymaster.
Import JsNum Ledger Payroll.
Local Open Scope Q_scope.

Inductive SupportedChain := ETHEREUM | ARBITRUM | BASE | AVALANCHE | POLYGON.

Definition parseChain (s : string) : option SupportedChain :=
  if String.eqb s "ethereum" then Some ETHEREUM
  else if String.eqb s "arbitrum" then Some ARBITRUM
  else if String.eqb s "base" then Some BASE
  else if String.eqb s "avalanche" then Some AVALANCHE
  else if String.eqb s "polygon" then Some POLYGON
  else None.

(** paymasterConfig (config/circle.ts) *)
Definition defaultMaxGasFeeUSDC : string := "10.00".
Definition slippageTolerance : Q := rnd (5 # 100).

(** getNativeTokenPrice *)
Definition getNativeTokenPrice (c : SupportedChain) : Q :=
  match c with
  | ETHEREUM | ARBITRUM | BASE => 2500
  | AVALANCHE => 25
  | POLYGON => rnd (8 # 10)
  end.

(** calculateUSDCGasFee:
    [(Number(gasLimit * maxFeePerGas) / 1e18) * price * (1 + slippage)],
    formatted with [toFixed(6)]. *)
Definition calculateUSDCGasFee (c : SupportedChain) (g : GasEstimate) : fixedstr :=
  let totalGasCost := (gasLimit g * maxFeePerGas g)%Z in
  let gasCostUSD :=
    js_mul (js_div (of_bigint totalGasCost) (Fin (10 ^ 18)))
           (Fin (getNativeTokenPrice c)) in
  let gasCostUSDC := js_mul gasCostUSD (js_add (Fin 1) (Fin slippageTolerance)) in
  toFixed6 gasCostUSDC.

(** The text of a [toFixed(6)] result. *)
Definition pad6 (n : Z) : string :=
  let s := pretty n in
  String.concat "" (replicate (6 - String.length s) "0") +:+ s.

Definition render (env : Env) (s : fixedstr) : string :=
  match s with
  | Fixed6 neg n =>
      (if neg then "-" else "") +:+ pretty (n / 10 ^ 6)%Z +:+ "." +:+ pad6 (n mod 10 ^ 6)%Z
  | Verbatim x => numberToString env x
  end.

Definition gasFeeExceeds (env : Env) (usdcGasFee : fixedstr) (maxGasFeeUSDC : string)
    : error :=
  Error ("Gas fee " +:+ render env usdcGasFee +:+ " USDC exceeds maximum "
         +:+ maxGasFeeUSDC +:+ " USDC").

Record Transaction := mkTransaction {
  tx_to : string;
  tx_data : string;
  tx_value : option string
}.

Record Permit := mkPermit {
  permit_owner : string;
  permit_value : Z;
  permit_nonce : Z;
  permit_deadline : Z
}.

Record UserOperation := mkUserOperation {
  sender : string;
  nonce : Z;
  callData : string;
  callGasLimit : Z;
  userOp_maxFeePerGas : Z;
  userOp_maxPriorityFeePerGas : Z;
  paymasterAndData : Permit
}.

Record UserOpData := mkUserOpData {
  userOperation : UserOperation;
  usdcGasFee : fixedstr;
  permit : Permit
}.

(** estimateGas: no client is registered for an unknown chain. *)
Definition pm_estimateGas (env : Env) (chain : string) (tx : Transaction)
    : M (SupportedChain * GasEstimate) :=
  match parseChain chain with
  | None => throw (Error "Cannot read properties of undefined (reading 'estimateGas')")
  | Some c =>
      let! g := call (EstimateGas chain (tx_to tx) (tx_data tx) (tx_value tx))
                  (fun t => estimateGas env t chain (tx_to tx) (tx_data tx) (tx_value tx)) in
      ret (c, g)
  end.

(** viem's [parseUnits(amount, 6)] on a [toFixed(6)] string. *)
Definition parseUnits6 (s : fixedstr) : M Z :=
  match s with
  | Fixed6 neg n => ret (if neg then (- n)%Z else n)
  | Verbatim _ => throw (Error "Number is not a valid decimal number.")
  end.

(** createUSDCPermit *)
Definition createUSDCPermit (env : Env) (owner chain : string) (fee : fixedstr)
    : M Permit :=
  try_catch
    (let! n := call (ChainRead "nonces" chain owner)
                 (fun t => chainRead env t "nonces" chain owner) in
     let! t := now env in
     let! v := parseUnits6 fee in
     ret (mkPermit owner v n (t / 1000 + 3600)%Z))
    (fun e => do! tell (LogError "Failed to create USDC permit") in throw e).

Definition getNonce (env : Env) (address chain : string) : M Z :=
  call (ChainRead "getTransactionCount" chain address)
    (fun t => chainRead env t "getTransactionCount" chain address).

(** createUserOperationWithUSDCGas *)
Definition createUserOperationWithUSDCGas (env : Env) (walletAddress chain : string)
    (tx : Transaction) (maxGasFeeUSDC : option string) : M UserOpData :=
  let maxFee := default defaultMaxGasFeeUSDC maxGasFeeUSDC in
  try_catch
    (let! cg := pm_estimateGas env chain tx in
     let fee := calculateUSDCGasFee (fst cg) (snd cg) in
     if js_gt (parseFloat_fixed fee) (parseFloat (parseFloat_other env) maxFee) then
       throw (gasFeeExceeds env fee maxFee)
     else
       let! p := createUSDCPermit env walletAddress chain fee in
       let! n := getNonce env walletAddress chain in
       ret (mkUserOpData
              (mkUserOperation walletAddress n (tx_data tx) (gasLimit (snd cg))
                 (maxFeePerGas (snd cg)) (maxPriorityFeePerGas (snd cg)) p)
              fee p))
    (fun e =>
       do! tell (LogError "Failed to create user operation with USDC gas") in throw e).

(** submitUserOperation: the operation hash the bundler answers with. *)
Definition submitUserOperation (env : Env) (op : UserOperation) (chain : string)
    : M string :=
  try_catch
    (call (SendUserOperation chain (sender op) (callData op))
       (fun t => sendUserOperation env t chain (sender op) (callData op)))
    (fun e => do! tell (LogError "Failed to submit user operation") in throw e).

(** [prisma.paymasterOperation.create]; the operation hash is unique. *)
Definition create_paymasterOperation (r : PaymasterOperationRow) : M unit :=
  fun w =>
    if existsb (fun x => String.eqb (pm_userOpHash x) (pm_userOpHash r))
         (paymasterOperations (db w))
    then (inr (Error "Unique constraint failed on the fields: (`userOpHash`)"), w)
    else (inl tt, with_db (Webhooks.set_paymasterOperations (fun l => l ++ [r])) w).

Record UsdcGasBody := mkUsdcGasBody {
  req_chain : option string;
  req_to : option string;
  req_data : option string;
  req_value : option string;
  req_maxGasFeeUSDC : option string
}.

Record UsdcGasReply := mkUsdcGasReply {
  reply_userOpHash : string;
  reply_gasFeeInUSDC : fixedstr;
  reply_status : string
}.

(** POST /api/workers/:id/usdc-gas-transaction *)
Definition postUsdcGasTransaction (env : Env) (workerId : nat) (body : UsdcGasBody)
    : World -> Response UsdcGasReply * World :=
  fun w =>
    match truthy_value (req_chain body), truthy_value (req_to body),
          truthy_value (req_data body) with
    | Some chain, Some to, Some data =>
        match workers (db w) !! workerId with
        | Some worker =>
            match truthy_value (walletId worker) with
            | Some wallet =>
                let run : M UsdcGasReply :=
                  let! userOpData :=
                    createUserOperationWithUSDCGas env wallet chain
                      (mkTransaction to data (req_value body)) (req_maxGasFeeUSDC body) in
                  let! userOpHash :=
                    submitUserOperation env (userOperation userOpData) chain in
                  do! create_paymasterOperation
                        (mkPaymasterOperationRow workerId (toUpperCase chain) userOpHash
                           "pending" None (Some (usdcGasFee userOpData)) None None) in
                  ret (mkUsdcGasReply userOpHash (usdcGasFee userOpData) "pending") in
                match run w with
                | (inl reply, w') =>
                    (Success 200 reply (Some "Transaction with USDC gas payment executed"), w')
                | (inr e, w') =>
                    (Failed 500
                       (match e with
                        | Thrown => "Failed to execute USDC gas transaction"
                        | _ => message_or_unknown e
                        end) "USDC_GAS_TRANSACTION_ERROR",
                     emit (LogError "Failed to execute USDC gas transaction") w')
                end
            | None => (Failed 404 "Worker or wallet not found" "WORKER_NOT_FOUND", w)
            end
        | None => (Failed 404 "Worker or wallet not found" "WORKER_NOT_FOUND", w)
        end
    | _, _, _ =>
        (Failed 400 "Missing required fields: chain, to, data" "MISSING_FIELDS", w)
    end.

End Paymaster.

(* ===================================================================== *)
(** * Sample data                                                          *)
(* ===================================================================== *)

Module Samples.
Import JsNum Ledger Payroll.

(** An environment whose every call gives the same answer. *)
Definition constantEnv
    (recipient wallet : string + error)
    (gasless : (string * option string) + error)
    (payout : string + error)
    (attestation : HttpReply)
    (gas : GasEstimate + error)
    (bundler : string + error) : Env :=
  mkEnv (fun t => Z.of_nat (length t)) (fun _ => NaN) (fun _ => "NaN")
    (fun _ => true) (fun _ => "{}")
    (fun _ _ _ _ => recipient) (fun _ _ _ => wallet)
    (fun _ _ _ _ _ => gasless) (fun _ _ _ _ _ _ => payout)
    (fun _ _ => attestation) (fun _ _ _ _ _ => gas)
    (fun _ _ _ _ => inl 0%Z) (fun _ _ _ _ => bundler)
    (fun payload => "mac:" +:+ payload).

(** The gateway answers every call. *)
Definition happyEnv : Env :=
  constantEnv (inl "rcp-1") (inl "wal-1") (inl ("tx-1", Some "0xabc")) (inl "po-1")
    (Body (Some "0xa77e57")) (inl (mkGasEstimate 100000 20000000000 1000000000))
    (inl "0xop1").

(** The gateway and every other service are down. *)
Definition downEnv : Env :=
  constantEnv (inr (Error "503")) (inr (Error "503")) (inr (Error "503"))
    (inr (Error "503")) (Failure (Error "500")) (inr (Error "503")) (inr (Error "503")).

(** A pending run of two items: worker 0 has a wallet, worker 1 has
    neither a wallet nor a recipient. *)
Definition sampleRun : PayrollRun :=
  mkPayrollRun "admin-1" RUN_PENDING (Fixed6 false 15750000) 2 None.

Definition sampleStore : Store :=
  mkStore
    [mkWorker "A" "a@x.com" (Some "wallet-a") None; mkWorker "B" "b@x.com" None None]
    [sampleRun]
    [mkPayrollItem 0 0 "10.50" "ETHEREUM" PENDING None None None None;
     mkPayrollItem 0 1 "5.25" "BASE" PENDING None None None None]
    [] [] [] [].

Definition sampleWorld : World := mkWorld sampleStore [].

Definition emptyWorld : World := mkWorld empty_store [].

Definition sampleRowA : WorkerRow := mkWorkerRow "A" "a@x.com" "10.50" "ethereum".
Definition sampleRowB : WorkerRow := mkWorkerRow "B" "b@x.com" "5.25" "base".

(** The sample run after a successful custodial payout of its first item
    (payout "po-1"). *)
Definition paidStore : Store :=
  mkStore
    [mkWorker "A" "a@x.com" None (Some "rcp-a"); mkWorker "B" "b@x.com" None None]
    [mkPayrollRun "admin-1" RUN_COMPLETED (Fixed6 false 15750000) 2 (Some 5%Z)]
    [mkPayrollItem 0 0 "10.50" "ETHEREUM" COMPLETED (Some "po-1") None None (Some 3%Z);
     mkPayrollItem 0 1 "5.25" "BASE" FAILED None None
       (Some "Worker has no wallet or recipient configured") None]
    [] [] [] [].

Definition paidWorld : World := mkWorld paidStore [].

(** A store with one sponsored transaction in flight. *)
Definition gasStore : Store :=
  mkStore
    [mkWorker "A" "a@x.com" (Some "wallet-a") None] [] [] [] []
    [mkGasStationTransaction 0 "ETHEREUM" "op-1" "pending" None None None] [].

Definition gasWorld : World := mkWorld gasStore [].

(** A gas-station notification that carries no signature at all. *)
Definition unsignedGasStationRequest : Webhooks.WebhookRequest :=
  Webhooks.ToGasStation None
    (Webhooks.mkGasStationBody (Some "op-1") (Some "completed") None (Some "0xabc")).

(** A CCTP notification that carries no signature and reports a
    transfer as pending. *)
Definition unsignedCctpRequest : Webhooks.WebhookRequest :=
  Webhooks.ToCctp None (Webhooks.mkCctpBody (Some "0xaa") None (Some "pending")).


(** A row that pays 2^53 + 1. *)
Definition largeRow : WorkerRow :=
  mkWorkerRow "A" "a@x.com" "9007199254740993" "ethereum".

End Samples.

(* ===================================================================== *)
(** * JavaScript strings and patterns                                      *)
(* ===================================================================== *)

Module JsText.

(** A JavaScript string is the sequence of its UTF-16 code units.  The
    strings of this part are those whose code units are below 256, one
    character for each code unit. *)

Definition chars (s : string) : list Ascii.ascii := String.list_ascii_of_string s.
Definition text (l : list Ascii.ascii) : string := String.string_of_list_ascii l.

Definition code (c : Ascii.ascii) : nat := Ascii.nat_of_ascii c.

Definition is_char (n : nat) (c : Ascii.ascii) : bool := (code c =? n)%nat.

(** The WhiteSpace and LineTerminator code units below 256: TAB, LF, VT,
    FF, CR, SP and the no-break space.  They are what [trim] removes and
    what [\s] matches. *)
Definition isWhiteSpace (c : Ascii.ascii) : bool :=
  let n := code c in
  ((9 <=? n) && (n <=? 13) || (n =? 32) || (n =? 160))%nat.

(** [\d] *)
Definition isDigit (c : Ascii.ascii) : bool :=
  let n := code c in ((48 <=? n) && (n <=? 57))%nat.

Fixpoint dropWhile {A} (p : A -> bool) (l : list A) : list A :=
  match l with
  | [] => []
  | x :: l' => if p x then dropWhile p l' else l
  end.

Definition trimStartChars (l : list Ascii.ascii) : list Ascii.ascii :=
  dropWhile isWhiteSpace l.

Definition trimChars (l : list Ascii.ascii) : list Ascii.ascii :=
  reverse (dropWhile isWhiteSpace (reverse (dropWhile isWhiteSpace l))).

(** [s.trim()] *)
Definition trim (s : string) : string := text (trimChars (chars s)).

(** The position a relative index of [slice] stands for in a string of
    length [len]: negative indices count from the end. *)
Definition sliceIndex (len i : Z) : Z :=
  if (i <? 0)%Z then Z.max (len + i) 0 else Z.min i len.

Definition sliceChars {A} (l : list A) (start : Z) (end_ : option Z) : list A :=
  let len := Z.of_nat (length l) in
  let from := sliceIndex len start in
  let to := match end_ with Some e => sliceIndex len e | None => len end in
  take (Z.to_nat (to - from)) (drop (Z.to_nat from) l).

(** [s.slice(start, end)] with integer arguments; [None] is an omitted
    [end]. *)
Definition slice (s : string) (start : Z) (end_ : option Z) : string :=
  text (sliceChars (chars s) start end_).

(** [s.split(sep)] for a separator of one character. *)
Fixpoint splitChars (sep : nat) (l : list Ascii.ascii) : list (list Ascii.ascii) :=
  match l with
  | [] => [[]]
  | c :: l' =>
      if is_char sep c then [] :: splitChars sep l'
      else match splitChars sep l' with
           | h :: t => (c :: h) :: t
           | [] => [[c]]
           end
  end.

Definition split (sep : nat) (s : string) : list string :=
  map text (splitChars sep (chars s)).

(** [s.padStart(n, fill)] for a filler of one character. *)
Definition padStart (n : nat) (fill : Ascii.ascii) (s : string) : string :=
  text (replicate (n - String.length s) fill) +:+ s.

Fixpoint startsWithChars (p l : list Ascii.ascii) : bool :=
  match p, l with
  | [], _ => true
  | a :: p', b :: l' => bool_decide (a = b) && startsWithChars p' l'
  | _ :: _, [] => false
  end.

Fixpoint includesChars (p l : list Ascii.ascii) : bool :=
  startsWithChars p l
  || match l with
     | [] => false
     | _ :: l' => includesChars p l'
     end.

(** [s.includes(p)] *)
Definition includes (s p : string) : bool := includesChars (chars p) (chars s).

(** ** Patterns *)

(** The regular expressions of the shared utilities, all of the form
    [/^...$/]: [test] asks whether the whole string belongs to the
    language of the pattern. *)
Inductive regex :=
| Void
| Eps
| Class (p : Ascii.ascii -> bool)
| Seq (r1 r2 : regex)
| Alt (r1 r2 : regex)
| Star (r : regex).

Fixpoint nullable (r : regex) : bool :=
  match r with
  | Void => false
  | Eps => true
  | Class _ => false
  | Seq r1 r2 => nullable r1 && nullable r2
  | Alt r1 r2 => nullable r1 || nullable r2
  | Star _ => true
  end.

(** The derivative of a pattern by a character. *)
Fixpoint deriv (c : Ascii.ascii) (r : regex) : regex :=
  match r with
  | Void => Void
  | Eps => Void
  | Class p => if p c then Eps else Void
  | Seq r1 r2 =>
      if nullable r1 then Alt (Seq (deriv c r1) r2) (deriv c r2)
      else Seq (deriv c r1) r2
  | Alt r1 r2 => Alt (deriv c r1) (deriv c r2)
  | Star r1 => Seq (deriv c r1) (Star r1)
  end.

Fixpoint matchesChars (r : regex) (l : list Ascii.ascii) : bool :=
  match l with
  | [] => nullable r
  | c :: l' => matchesChars (deriv c r) l'
  end.

(** [/^r$/.test(s)] *)
Definition test (r : regex) (s : string) : bool := matchesChars r (chars s).

(** [r+], [r?], [r{0,n}] and [r{1,n}] *)
Definition plus (r : regex) : regex := Seq r (Star r).
Definition opt (r : regex) : regex := Alt Eps r.

Fixpoint upto (n : nat) (r : regex) : regex :=
  match n with
  | O => Eps
  | S n' => opt (Seq r (upto n' r))
  end.

Definition oneTo (n : nat) (r : regex) : regex := Seq r (upto (n - 1) r).

(** The words of a pattern. *)
Inductive lang : regex -> list Ascii.ascii -> Prop :=
| lang_eps : lang Eps []
| lang_class p c : p c = true -> lang (Class p) [c]
| lang_seq r1 r2 l1 l2 : lang r1 l1 -> lang r2 l2 -> lang (Seq r1 r2) (l1 ++ l2)
| lang_alt_l r1 r2 l : lang r1 l -> lang (Alt r1 r2) l
| lang_alt_r r1 r2 l : lang r2 l -> lang (Alt r1 r2) l
| lang_star_nil r : lang (Star r) []
| lang_star_cons r l1 l2 : lang r l1 -> lang (Star r) l2 -> lang (Star r) (l1 ++ l2).

End JsText.

(* ===================================================================== *)
(** * The shared utilities (shared/src/utils.ts)                           *)
(* ===================================================================== *)

Module Utils.
Import JsNum Ledger Payroll JsText.

(** truncateAddress, with [chars] an integer (4 when omitted):
    [if (address.length <= chars * 2 + 2) return address;
     return `${address.slice(0, chars + 2)}...${address.slice(-chars)}`] *)
Definition truncateAddress (address : string) (chars : option Z) : string :=
  let n := default 4%Z chars in
  if (Z.of_nat (String.length address) <=? n * 2 + 2)%Z then address
  else slice address 0 (Some (n + 2)%Z) +:+ "..." +:+ slice address (- n) None.

(** [[^\s@]] *)
Definition emailChar (c : Ascii.ascii) : bool :=
  negb (isWhiteSpace c) && negb (is_char 64 c).

(** [/^[^\s@]+@[^\s@]+\.[^\s@]+$/] *)
Definition emailPattern : regex :=
  Seq (plus (Class emailChar))
    (Seq (Class (is_char 64))
       (Seq (plus (Class emailChar))
          (Seq (Class (is_char 46)) (plus (Class emailChar))))).

Definition isValidEmail (email : string) : bool := test emailPattern email.

(** [/^\d+(\.\d{1,6})?$/] *)
Definition amountPattern : regex :=
  Seq (plus (Class isDigit))
    (opt (Seq (Class (is_char 46)) (oneTo 6 (Class isDigit)))).

(** isValidUSDCAmount: [regex.test(amount) && parseFloat(amount) > 0] *)
Definition isValidUSDCAmount (other : string -> number) (amount : string) : bool :=
  test amountPattern amount && js_gt (parseFloat other amount) (Fin 0).

(** sanitizeString: [str.trim().replace(/[<>]/g, '')] *)
Definition isAngleBracket (c : Ascii.ascii) : bool := is_char 60 c || is_char 62 c.

Definition sanitizeString (str : string) : string :=
  text (filter (fun c => isAngleBracket c = false) (chars (trim str))).

(** calculateTotalAmount:
    [amounts.reduce((sum, amount) => sum + parseFloat(amount), 0).toFixed(6)] *)
Definition calculateTotalAmount (other : string -> number) (amounts : list string)
    : fixedstr :=
  toFixed6 (fold_left (fun sum amount => js_add sum (parseFloat other amount))
              amounts (Fin 0)).

(** ** parseCSV *)

(** [row[header] = value] on an object literal: the key [__proto__] is
    the accessor of [Object.prototype], whose setter ignores a string, so
    that no property is created for it. *)
Definition setProperty (row : gmap string string) (header value : string)
    : gmap string string :=
  if String.eqb header "__proto__" then row else <[header := value]> row.

(** [headers.forEach((header, index) => { row[header] = values[index] })],
    for as many values as headers. *)
Definition buildRow (headers values : list string) : gmap string string :=
  fold_left (fun row hv => setProperty row (fst hv) (snd hv)) (zip headers values) ∅.

Definition columnMismatch (i values headers : nat) : error :=
  Error ("Row " +:+ pretty (i + 1)%nat +:+ " has " +:+ pretty values
         +:+ " columns, expected " +:+ pretty headers).

(** The loop [for (let i = 1; i < lines.length; i++)], over the lines
    from index [i] on. *)
Fixpoint parseRows (headers : list string) (i : nat) (lines : list string)
    : list (gmap string string) + error :=
  match lines with
  | [] => inl []
  | line :: rest =>
      let values := map trim (split 44 line) in
      if bool_decide (length values = length headers) then
        match parseRows headers (S i) rest with
        | inl rows => inl (buildRow headers values :: rows)
        | inr e => inr e
        end
      else inr (columnMismatch i (length values) (length headers))
  end.

Definition tooShort : error := Error "CSV must have header and at least one data row".

Definition parseCSV (content : string) : list (gmap string string) + error :=
  match split 10 (trim content) with
  | header :: (_ :: _) as rest =>
      parseRows (map trim (split 44 header)) 1 rest
  | _ => inr tooShort
  end.

(** ** retry *)





End Utils.

(* ===================================================================== *)
(** * Integers read from text                                              *)
(* ===================================================================== *)

Module JsInt.
Import JsNum JsText.
Local Open Scope Q_scope.

(** [-x] and [x - y] *)
Definition js_neg (x : number) : number :=
  match x with
  | Fin q => Fin (- q)
  | PosInf => NegInf
  | NegInf => PosInf
  | NaN => NaN
  end.

Definition js_sub (x y : number) : number := js_add x (js_neg y).

Definition isInteger (q : Q) : bool := Qeq_bool q (inject_Z (Qfloor q)).

(** [Math.ceil(x)] *)
Definition js_ceil (x : number) : number :=
  match x with
  | Fin q => Fin (inject_Z (Qceiling q))
  | _ => x
  end.

(** The numbers that count as false: zero and NaN. *)
Definition falsy (x : number) : bool :=
  match x with
  | NaN => true
  | Fin q => Qeq_bool q 0
  | PosInf | NegInf => false
  end.

(** [x || d] *)
Definition js_or (x d : number) : number := if falsy x then d else x.

(** [Number(n)] for a count. *)
Definition of_nat (n : nat) : number := of_bigint (Z.of_nat n).

Definition hex_digit_of (c : Ascii.ascii) : option Z :=
  let n := code c in
  if ((48 <=? n) && (n <=? 57))%nat then Some (Z.of_nat (n - 48))
  else if ((97 <=? n) && (n <=? 102))%nat then Some (Z.of_nat (n - 87))
  else if ((65 <=? n) && (n <=? 70))%nat then Some (Z.of_nat (n - 55))
  else None.

(** The value of the longest prefix of digits, [None] when it is empty. *)
Fixpoint digitPrefix (digit : Ascii.ascii -> option Z) (radix : Z) (acc : option Z)
    (l : list Ascii.ascii) : option Z :=
  match l with
  | [] => acc
  | c :: l' =>
      match digit c with
      | Some d => digitPrefix digit radix (Some (radix * default 0%Z acc + d)%Z) l'
      | None => acc
      end
  end.

(** [parseInt(s)] without a radix: leading white space is skipped, a
    sign is read, [0x] or [0X] selects radix 16, and the value is that of
    the longest prefix of digits, rounded to a double; NaN when there is
    no digit. *)
Definition parseInt (s : string) : number :=
  let l := dropWhile isWhiteSpace (chars s) in
  let '(negative, l) :=
    match l with
    | c :: l' =>
        if is_char 45 c then (true, l')
        else if is_char 43 c then (false, l')
        else (false, l)
    | [] => (false, [])
    end in
  let mathInt :=
    match l with
    | z :: x :: l' =>
        if is_char 48 z && (is_char 120 x || is_char 88 x)
        then digitPrefix hex_digit_of 16 None l'
        else digitPrefix digit_of 10 None l
    | _ => digitPrefix digit_of 10 None l
    end in
  match mathInt with
  | Some n => of_Q (inject_Z (if negative then - n else n))
  | None => NaN
  end.

(** [parseInt(req.query.name as string)]: an absent parameter is
    [undefined], which parseInt reads as the text "undefined". *)
Definition parseIntQuery (q : option string) : number :=
  match q with
  | Some s => parseInt s
  | None => NaN
  end.

End JsInt.

(* ===================================================================== *)
(** * Reading payroll runs (PayrollService and routes/payrollRoutes.ts)    *)
(* ===================================================================== *)

Module Listing.
Import JsNum Ledger Payroll JsText JsInt.
Local Open Scope Q_scope.

(** ** getPayrollRun and GET /api/payroll/runs/:id *)

(** [worker: { select: { id: true, name: true, email: true } }] *)
Record WorkerView := mkWorkerView {
  view_id : nat;
  view_name : string;
  view_email : string
}.

Definition viewItem (li : LoadedItem) : nat * PayrollItem * option WorkerView :=
  let '(id, item, worker) := li in
  (id, item,
   option_map (fun x => mkWorkerView (workerId item) (worker_name x) (worker_email x))
     worker).

Record RunDetails := mkRunDetails {
  details_id : nat;
  details_run : PayrollRun;
  details_items : list (nat * PayrollItem * option WorkerView)
}.

Definition getPayrollRun (runId : nat) : M RunDetails :=
  try_catch
    (let! s := get_db in
     match payrollRuns s !! runId with
     | None => throw runNotFound
     | Some payrollRun =>
         ret (mkRunDetails runId payrollRun (map viewItem (loadItems runId s)))
     end)
    (fun e => do! tell (LogError "Failed to get payroll run") in throw e).

(** [error instanceof Error && error.message.includes('not found')] *)
Definition saysNotFound (e : error) : bool :=
  match e with
  | PayrollError m _ _ | Error m => includes m "not found"
  | Thrown => false
  end.

Definition getRun (runId : nat) : World -> Response RunDetails * World :=
  fun w =>
    match getPayrollRun runId w with
    | (inl payrollRun, w') => (Success 200 payrollRun None, w')
    | (inr e, w') =>
        (if saysNotFound e
         then Failed 404 "Payroll run not found" "PAYROLL_RUN_NOT_FOUND"
         else Failed 500 "Failed to get payroll run" "PAYROLL_FETCH_ERROR",
         emit (LogError "Failed to get payroll run via API") w')
    end.

(** ** POST /api/payroll/runs/:id/execute *)

Record ExecuteStarted := mkExecuteStarted {
  started_payrollRunId : nat;
  started_status : string
}.

(** The handler starts executePayrollRun and answers without waiting for
    it: the reply is fixed before the run is executed, and what the
    execution returns or throws is only logged.  The world handed back
    is the one in which the started execution has come to its end.
    [isUuid] is the check of ExecutePayrollRunRequestSchema,
    [z.string().uuid()], on the text of the key. *)
Definition postExecute (env : Env) (isUuid : nat -> bool) (runId : nat)
    : World -> Response ExecuteStarted * World :=
  fun w =>
    if isUuid runId then
      (Success 200 (mkExecuteStarted runId "processing")
         (Some "Payroll run execution started"),
       match executePayrollRun env runId w with
       | (inl _, w') => w'
       | (inr _, w') => emit (LogError "Payroll run execution failed") w'
       end)
    else (Failed 400 "Invalid payroll run ID" "INVALID_PAYROLL_RUN_ID", w).

(** ** getPayrollRuns and GET /api/payroll/runs *)

(** A run of the list, with [_count.payrollItems]. *)
Record RunSummary := mkRunSummary {
  summary_id : nat;
  summary_run : PayrollRun;
  summary_items : nat
}.

(** What the database decides: the order of rows created at the same
    instant under [orderBy: { createdAt: 'desc' }], and the answer to a
    [skip] or [take] that is not an integer from 0 to [2^31 - 1]. *)
Record Prisma := mkPrisma {
  newestFirst : list (nat * PayrollRun) -> list (nat * PayrollRun);
  findManyOther :
    number -> number -> list (nat * PayrollRun) -> list (nat * PayrollRun) + error
}.

(** [where: { adminId }]: the runs of an admin, with their keys. *)
Definition runsOf (admin : string) (s : Store) : list (nat * PayrollRun) :=
  filter (fun r => adminId (snd r) = admin) (imap (fun i r => (i, r)) (payrollRuns s)).

Definition asCount (x : number) : option nat :=
  match x with
  | Fin q =>
      if isInteger q && Qle_bool 0 q && negb (Qle_bool (2 ^ 31) q)
      then Some (Z.to_nat (Qfloor q)) else None
  | _ => None
  end.

(** [findMany({ where: { adminId }, orderBy: { createdAt: 'desc' }, skip, take })] *)
Definition findManyRuns (P : Prisma) (admin : string) (skip take_ : number) (s : Store)
    : list (nat * PayrollRun) + error :=
  let rows := newestFirst P (runsOf admin s) in
  match asCount skip, asCount take_ with
  | Some sk, Some tk => inl (take tk (drop sk rows))
  | _, _ => findManyOther P skip take_ rows
  end.

Definition summarize (s : Store) (r : nat * PayrollRun) : RunSummary :=
  mkRunSummary (fst r) (snd r) (length (loadItems (fst r) s)).

Record RunListing := mkRunListing {
  listing_runs : list RunSummary;
  listing_page : number;
  listing_limit : number;
  listing_total : nat;
  listing_pages : number
}.

(** getPayrollRuns(adminId, page = 1, limit = 10) *)
Definition getPayrollRuns (P : Prisma) (admin : string) (page limit : option number)
    : M RunListing :=
  let page := default (Fin 1) page in
  let limit := default (Fin 10) limit in
  try_catch
    (let skip := js_mul (js_sub page (Fin 1)) limit in
     let! s := get_db in
     match findManyRuns P admin skip limit s with
     | inr e => throw e
     | inl payrollRuns =>
         let total := length (runsOf admin s) in
         ret (mkRunListing (map (summarize s) payrollRuns) page limit total
                (js_ceil (js_div (of_nat total) limit)))
     end)
    (fun e => do! tell (LogError "Failed to get payroll runs") in throw e).

(** GET /api/payroll/runs *)
Definition getRuns (P : Prisma) (adminHeader pageQuery limitQuery : option string)
    : World -> Response RunListing * World :=
  fun w =>
    let admin := default "admin-1" (truthy_value adminHeader) in
    let page := js_or (parseIntQuery pageQuery) (Fin 1) in
    let limit := js_or (parseIntQuery limitQuery) (Fin 10) in
    match getPayrollRuns P admin (Some page) (Some limit) w with
    | (inl result, w') => (Success 200 result None, w')
    | (inr _, w') =>
        (Failed 500 "Failed to get payroll runs" "PAYROLL_FETCH_ERROR",
         emit (LogError "Failed to get payroll runs via API") w')
    end.

(** The whole number [n] as a double. *)
Definition whole (n : nat) : number := Fin (inject_Z (Z.of_nat n)).

(** The runs on page [page] of the list of an admin, read in world [w]. *)
Definition pageRuns (P : Prisma) (admin : string) (limit page : nat) (w : World)
    : list RunSummary :=
  match fst (getPayrollRuns P admin (Some (whole page)) (Some (whole limit)) w) with
  | inl result => listing_runs result
  | inr _ => []
  end.

(** [ceil(a / b)] on whole numbers. *)
Definition ceilDiv (a b : nat) : nat := ((a + b - 1) / b)%nat.

End Listing.

(* ===================================================================== *)
(** * What an operation leaves alone                                       *)
(* ===================================================================== *)

Module Frames.
Import JsNum Ledger Payroll.

(** The same item, as far as what is owed to whom goes: run, worker,
    amount and chain. *)
Definition sameDue (x x' : PayrollItem) : Prop :=
  payrollRunId x' = payrollRunId x /\ workerId x' = workerId x
  /\ amount x' = amount x /\ chain x' = chain x.

(** The same run, as far as what was asked for goes. *)
Definition sameOrder (r r' : PayrollRun) : Prop :=
  adminId r' = adminId r /\ totalAmount r' = totalAmount r
  /\ totalWorkers r' = totalWorkers r.

(** A step of reconciliation: workers, runs, transfers, sponsored
    transactions and paymaster operations are as they were, every item is
    still there and owes the same (with the same payout id), and the
    audit log only grew. *)
Definition reconciles (s s' : Store) : Prop :=
  workers s' = workers s
  /\ payrollRuns s' = payrollRuns s
  /\ Forall2 (fun x x' => sameDue x x' /\ payoutId x' = payoutId x)
       (payrollItems s) (payrollItems s')
  /\ crossChainTransfers s' = crossChainTransfers s
  /\ gasStationTransactions s' = gasStationTransactions s
  /\ paymasterOperations s' = paymasterOperations s
  /\ auditLogs s `prefix_of` auditLogs s'.

(** Only items were written, and they still say what is owed to whom. *)
Definition writesItemsOnly (s s' : Store) : Prop :=
  workers s' = workers s
  /\ payrollRuns s' = payrollRuns s
  /\ auditLogs s' = auditLogs s
  /\ crossChainTransfers s' = crossChainTransfers s
  /\ gasStationTransactions s' = gasStationTransactions s
  /\ paymasterOperations s' = paymasterOperations s
  /\ Forall2 sameDue (payrollItems s) (payrollItems s').

(** A step of execution of run [runId]: only that run and its items may
    have changed, and they still say what is owed to whom. *)
Definition executes (runId : nat) (s s' : Store) : Prop :=
  workers s' = workers s
  /\ auditLogs s' = auditLogs s
  /\ crossChainTransfers s' = crossChainTransfers s
  /\ gasStationTransactions s' = gasStationTransactions s
  /\ paymasterOperations s' = paymasterOperations s
  /\ Forall2 sameOrder (payrollRuns s) (payrollRuns s')
  /\ (forall j, j <> runId -> payrollRuns s' !! j = payrollRuns s !! j)
  /\ Forall2 sameDue (payrollItems s) (payrollItems s')
  /\ (forall id item, payrollItems s !! id = Some item -> payrollRunId item <> runId ->
        payrollItems s' !! id = Some item).

(** The workers of a store have pairwise different email addresses (the
    unique index of [workers.email]). *)
Definition emailsUnique (s : Store) : Prop := NoDup (map worker_email (workers s)).

End Frames.

(* ===================================================================== *)
(** * Sequences of operations                                              *)
(* ===================================================================== *)

Module Operations.
Import JsNum Ledger Payroll Webhooks.

(** The operations that reach the payroll items: the two services of the
    run engine, a status report of a payout, and a request to one of the
    webhook endpoints. *)
Inductive Operation :=
| Create (admin : string) (rows : list WorkerRow)
| Execute (runId : nat)
| Reported (r : Report)
| Notified (req : WebhookRequest).

(** The world an operation leaves, whether it returns or throws. *)
Definition perform (env : Env) (op : Operation) (w : World) : World :=
  match op with
  | Create admin rows => snd (createPayrollRun env admin rows w)
  | Execute runId => snd (executePayrollRun env runId w)
  | Reported r =>
      snd (updatePayoutStatus env (report_payoutId r) (report_status r)
             (report_transactionHash r) w)
  | Notified req => snd (webhook env req w)
  end.

(** The world after a sequence of operations, in their order. *)
Definition performAll (env : Env) (ops : list Operation) (w : World) : World :=
  fold_left (fun w op => perform env op w) ops w.

(** A report carries one of the words "complete", "completed", "failed"
    and "error", in any case of letters. *)
Definition reportsTerminal (op : Operation) : Prop :=
  match op with
  | Reported r => terminal (mapPayoutStatus (report_status r)) = true
  | _ => True
  end.

End Operations.

(* ===================================================================== *)
(** * Counting the polls of a monitoring                                   *)
(* ===================================================================== *)

Module Polling.
Import Ledger CCTP.


End Polling.

(* ===================================================================== *)
(** * Call data of a sponsored transfer (GasStationService)                *)
(* ===================================================================== *)

Module Encoding.
Import JsNum JsText JsInt.
Local Open Scope Q_scope.

(** The digit [d] of radix 16, in lower case. *)
Definition hexDigit (d : Z) : Ascii.ascii :=
  Ascii.ascii_of_nat (Z.to_nat (if (d <? 10)%Z then 48 + d else 87 + d)).

(** The digits of [n] in radix 16 in front of [acc], most significant
    first; [fuel] bounds their number. *)
Fixpoint hexChars (fuel : nat) (n : Z) (acc : list Ascii.ascii) : list Ascii.ascii :=
  match fuel with
  | O => acc
  | S fuel' =>
      let acc' := hexDigit (n mod 16) :: acc in
      if (n <? 16)%Z then acc' else hexChars fuel' (n / 16) acc'
  end.

(** A natural number in radix 16, without leading zeros. *)
Definition toHex (n : Z) : string :=
  text (hexChars (S (Z.to_nat (Z.log2 n))) n []).

(** [x.toString(16)]: an integer is written with the digits of its
    absolute value; [other] stands for the expansion of a number with a
    fraction. *)
Definition toString16 (other : Q -> string) (x : number) : string :=
  match x with
  | NaN => "NaN"
  | PosInf => "Infinity"
  | NegInf => "-Infinity"
  | Fin q =>
      if isInteger q then
        if Qle_bool 0 q then toHex (Qfloor q) else "-" +:+ toHex (- Qfloor q)
      else other q
  end.

(** encodeTransferFunction:
    ['0xa9059cbb' + recipient.slice(2).padStart(64, '0')
       + parseInt(amount).toString(16).padStart(64, '0')] *)
Definition encodeTransferFunction (other : Q -> string) (recipient amount : string)
    : string :=
  "0xa9059cbb"
  +:+ padStart 64 (Ascii.ascii_of_nat 48) (slice recipient 2 None)
  +:+ padStart 64 (Ascii.ascii_of_nat 48) (toString16 other (parseInt amount)).

(** The value of a text of digits of radix 16 ([None] when there is no
    digit at its start). *)
Definition hexValue (s : string) : option Z :=
  digitPrefix hex_digit_of 16 None (chars s).

(** What may follow the digits of a decimal numeral: nothing, or a
    character that is neither a digit nor an [x]. *)
Definition endsNumeral (rest : list Ascii.ascii) : Prop :=
  match rest with
  | [] => True
  | c :: _ => digit_of c = None /\ is_char 120 c = false /\ is_char 88 c = false
  end.

End Encoding.

(* ===================================================================== *)
(** * Properties of the number model                                       *)
(* ===================================================================== *)

Module JsNumFacts.
Import JsNum.
Local Open Scope Q_scope.

(** ** Powers of two *)

Lemma pow2_pos z : 0 < 2 ^ z.
Proof. by apply Qpower_0_lt. Qed.

Lemma pow2_le a b : (a <= b)%Z -> 2 ^ a <= 2 ^ b.
Proof. intros H. by apply Qpower_le_compat_l. Qed.

Lemma pow2_lt_inv a b : 2 ^ a < 2 ^ b -> (a < b)%Z.
Proof. intros H. by eapply Qpower_lt_compat_l_inv. Qed.

Lemma pow2_plus a b : 2 ^ (a + b) == 2 ^ a * 2 ^ b.
Proof. by apply Qpower_plus. Qed.

Lemma pow2_succ a : 2 ^ (a + 1) == 2 * 2 ^ a.
Proof. rewrite pow2_plus. simpl. ring. Qed.

Lemma pow2_inject z : (0 <= z)%Z -> inject_Z (2 ^ z) == 2 ^ z.
Proof. intros H. by rewrite Zpower_Qpower. Qed.

(** ** The binary exponent *)

Lemma ilog2_spec q : 0 < q -> 2 ^ ilog2 q <= q /\ q < 2 ^ (ilog2 q + 1).
Proof.
  intros Hq. destruct q as [n d]. unfold ilog2. simpl Qnum. simpl Qden.
  assert (Hn : (0 < n)%Z). { unfold Qlt in Hq. simpl in Hq. lia. }
  set (ln := Z.log2 n). set (ld := Z.log2 (Z.pos d)).
  destruct (Z.log2_spec n Hn) as [Hn1 Hn2].
  destruct (Z.log2_spec (Z.pos d) ltac:(lia)) as [Hd1 Hd2].
  fold ln in Hn1, Hn2. fold ld in Hd1, Hd2.
  assert (Hln : (0 <= ln)%Z) by apply Z.log2_nonneg.
  assert (Hld : (0 <= ld)%Z) by apply Z.log2_nonneg.
  (* the bounds as rationals *)
  assert (Qn1 : 2 ^ ln <= inject_Z n).
  { rewrite <- pow2_inject by done. by rewrite <- Zle_Qle. }
  assert (Qn2 : inject_Z n < 2 ^ (ln + 1)).
  { rewrite <- pow2_inject by lia. rewrite <- Zlt_Qlt. unfold Z.succ in Hn2. done. }
  assert (Qd1 : 2 ^ ld <= inject_Z (Z.pos d)).
  { rewrite <- pow2_inject by done. by rewrite <- Zle_Qle. }
  assert (Qd2 : inject_Z (Z.pos d) < 2 ^ (ld + 1)).
  { rewrite <- pow2_inject by lia. rewrite <- Zlt_Qlt. unfold Z.succ in Hd2. done. }
  assert (Hd : 0 < inject_Z (Z.pos d)). { rewrite <- (Zlt_Qlt 0). lia. }
  assert (Hq' : n # d == inject_Z n / inject_Z (Z.pos d)) by apply Qmake_Qdiv.
  (* strictly between 2^(l-1) and 2^(l+1) *)
  assert (Hup : n # d < 2 ^ (ln - ld + 1)).
  { rewrite Hq'. apply Qlt_shift_div_r; [done|].
    assert (E : 2 ^ (ln + 1) == 2 ^ (ln - ld + 1) * 2 ^ ld).
    { rewrite <- pow2_plus. by replace (ln - ld + 1 + ld)%Z with (ln + 1)%Z by lia. }
    pose proof (pow2_pos (ln - ld + 1)). pose proof (pow2_pos ld).
    rewrite E in Qn2. nra. }
  assert (Hlow : 2 ^ (ln - ld - 1) <= n # d).
  { rewrite Hq'. apply Qle_shift_div_l; [done|].
    assert (E : 2 ^ ln == 2 ^ (ln - ld - 1) * 2 ^ (ld + 1)).
    { rewrite <- pow2_plus. by replace (ln - ld - 1 + (ld + 1))%Z with ln by lia. }
    pose proof (pow2_pos (ln - ld - 1)). pose proof (pow2_pos (ld + 1)).
    rewrite E in Qn1. nra. }
  destruct (Qle_bool (2 ^ (ln - ld)) (n # d)) eqn:Hb.
  - apply Qle_bool_iff in Hb. done.
  - split; [done|]. replace (ln - ld - 1 + 1)%Z with (ln - ld)%Z by lia.
    apply Qnot_le_lt. intros H. apply Qle_bool_iff in H. congruence.
Qed.

Lemma ilog2_below q K : 0 < q -> q < 2 ^ K -> (ilog2 q < K)%Z.
Proof.
  intros Hq HK. destruct (ilog2_spec q Hq) as [Hlow _].
  apply pow2_lt_inv. eapply Qle_lt_trans; eauto.
Qed.


(** ** Rounding *)

Lemma round_half_even_error m :
  m - (1 # 2) <= inject_Z (round_half_even m)
  /\ inject_Z (round_half_even m) <= m + (1 # 2).
Proof.
  unfold round_half_even.
  pose proof (Qfloor_le m) as Hlo. pose proof (Qlt_floor m) as Hhi.
  rewrite inject_Z_plus in Hhi. change (inject_Z 1) with 1 in Hhi.
  destruct (Qcompare_spec (m - inject_Z (Qfloor m)) (1 # 2)) as [E|L|G].
  - destruct (Z.even (Qfloor m)).
    + split; lra.
    + rewrite inject_Z_plus. change (inject_Z 1) with 1. split; lra.
  - split; lra.
  - rewrite inject_Z_plus. change (inject_Z 1) with 1. split; lra.
Qed.

Lemma round_half_even_nonneg m : 0 <= m -> (0 <= round_half_even m)%Z.
Proof.
  intros Hm. unfold round_half_even.
  assert (H0 : (0 <= Qfloor m)%Z).
  { change 0%Z with (Qfloor 0). by apply Qfloor_resp_le. }
  destruct (Qcompare _ _); [destruct (Z.even _)| |]; lia.
Qed.

Lemma ulp_pos q : 0 < ulp q.
Proof. apply pow2_pos. Qed.

(** The error of rounding a positive rational below [2^K] is at most half
    the spacing of the doubles below [2^K]. *)
Lemma rnd_pos_error q K :
  0 < q -> q < 2 ^ K -> (-1021 <= K)%Z ->
  q - 2 ^ (K - 54) <= rnd_pos q /\ rnd_pos q <= q + 2 ^ (K - 54).
Proof.
  intros Hq HK Hmin. unfold rnd_pos. rewrite Qred_correct.
  pose proof (ulp_pos q) as Hu.
  destruct (round_half_even_error (q / ulp q)) as [Hlo Hhi].
  set (M := inject_Z (round_half_even (q / ulp q))) in *.
  assert (Hm : q / ulp q * ulp q == q).
  { field. apply Qnot_eq_sym, Qlt_not_eq, Hu. }
  set (m := q / ulp q) in *. set (u := ulp q) in *.
  assert (Hhalf : u * (1 # 2) <= 2 ^ (K - 54)).
  { unfold u, ulp.
    assert (He : (Z.max (ilog2 q) (-1022) - 52 <= K - 53)%Z).
    { pose proof (ilog2_below q K Hq HK). lia. }
    pose proof (pow2_le _ _ He) as Hle.
    assert (E : 2 ^ (K - 53) == 2 * 2 ^ (K - 54)).
    { rewrite <- pow2_succ. by replace (K - 54 + 1)%Z with (K - 53)%Z by lia. }
    rewrite E in Hle. lra. }
  split.
  - assert (H1 : (m - (1 # 2)) * u <= M * u).
    { apply Qmult_le_compat_r; lra. }
    lra.
  - assert (H1 : M * u <= (m + (1 # 2)) * u).
    { apply Qmult_le_compat_r; lra. }
    lra.
Qed.

Lemma rnd_pos_nonneg q : 0 < q -> 0 <= rnd_pos q.
Proof.
  intros Hq. unfold rnd_pos. rewrite Qred_correct.
  pose proof (ulp_pos q) as Hu.
  assert (Hm : 0 <= q / ulp q).
  { apply Qle_shift_div_l; [done|]. lra. }
  pose proof (round_half_even_nonneg _ Hm) as HM.
  rewrite Zle_Qle in HM. change (inject_Z 0) with 0 in HM.
  apply Qmult_le_0_compat; lra.
Qed.

(** The same for a non-negative rational. *)
Lemma rnd_error q K :
  0 <= q -> q < 2 ^ K -> (-1021 <= K)%Z ->
  0 <= rnd q /\ q - 2 ^ (K - 54) <= rnd q /\ rnd q <= q + 2 ^ (K - 54).
Proof.
  intros Hq HK Hmin. unfold rnd.
  pose proof (pow2_pos (K - 54)) as He.
  destruct (Qcompare_spec q 0) as [E|L|G].
  - split; [lra|]. split; lra.
  - lra.
  - destruct (rnd_pos_error q K G HK Hmin). pose proof (rnd_pos_nonneg q G). done.
Qed.

(** The doubles in the range of interest are finite. *)
Lemma of_Q_finite q K :
  0 <= q -> q < 2 ^ K -> (-1021 <= K <= 1000)%Z -> of_Q q = Fin (rnd q).
Proof.
  intros Hq HK HKr. destruct (rnd_error q K Hq HK ltac:(lia)) as (H0 & _ & Hhi).
  unfold of_Q.
  assert (Hbig : 2 ^ K + 2 ^ (K - 54) < 2 ^ 1024).
  { pose proof (pow2_le (K - 54) K ltac:(lia)).
    pose proof (pow2_le (K + 1) 1023 ltac:(lia)) as H1. rewrite pow2_succ in H1.
    assert (2 ^ 1023 < 2 ^ 1024) by (by apply Qpower_lt_compat_l). lra. }
  assert (H1 : Qle_bool (2 ^ 1024) (rnd q) = false).
  { destruct (Qle_bool _ _) eqn:Hb; [|done]. apply Qle_bool_iff in Hb. lra. }
  assert (H2 : Qle_bool (rnd q) (- 2 ^ 1024) = false).
  { destruct (Qle_bool (rnd q) (- 2 ^ 1024)) eqn:Hb; [|done]. apply Qle_bool_iff in Hb.
    pose proof (pow2_pos 1024). lra. }
  by rewrite H1, H2.
Qed.


(** ** Decimal literals *)

Lemma digit_of_nonneg c d : digit_of c = Some d -> (0 <= d)%Z.
Proof.
  unfold digit_of. destruct (_ && _); [|done]. intros [= <-]. lia.
Qed.

Lemma digits_acc_nonneg s acc n : (0 <= acc)%Z -> digits_acc acc s = Some n -> (0 <= n)%Z.
Proof.
  revert acc. induction s as [|c s IH]; intros acc Hacc; simpl.
  - by intros [= <-].
  - destruct (digit_of c) as [d|] eqn:Hd; [|done].
    apply digit_of_nonneg in Hd. apply IH. lia.
Qed.

Lemma digits_nonneg s n : digits s = Some n -> (0 <= n)%Z.
Proof.
  destruct s; [done|]. unfold digits. by apply digits_acc_nonneg.
Qed.

(** A string in the amount format denotes a whole number of millionths. *)
Lemma amount_micro s :
  isAmountFormat s = true ->
  exists q m, decimalValue s = Some q /\ (0 <= m)%Z /\ q == inject_Z m / 10 ^ 6.
Proof.
  unfold isAmountFormat, decimalValue. destruct (split_dot s) as [i [f|]].
  - intros H. apply andb_prop in H as [H Hlen]. apply andb_prop in H as [Hi Hf].
    apply bool_decide_eq_true in Hi as [n Hn]. apply bool_decide_eq_true in Hf as [k Hk].
    rewrite Hn, Hk. apply Nat.leb_le in Hlen.
    pose proof (digits_nonneg _ _ Hn). pose proof (digits_nonneg _ _ Hk).
    eexists. exists (n * 10 ^ 6 + k * 10 ^ (6 - Z.of_nat (String.length f)))%Z.
    split; [reflexivity|]. split; [lia|].
    destruct (String.length f) as [|[|[|[|[|[|[|L]]]]]]]; [| | | | | | | lia];
      rewrite inject_Z_plus, !inject_Z_mult; simpl Z.of_nat; simpl Z.sub;
      vm_compute (10 ^ _); vm_compute (inject_Z (10 ^ _)); field.
  - intros H. apply bool_decide_eq_true in H as [n Hn]. rewrite Hn. simpl.
    pose proof (digits_nonneg _ _ Hn).
    eexists. exists (n * 10 ^ 6)%Z. split; [reflexivity|]. split; [lia|].
    rewrite inject_Z_mult. vm_compute (10 ^ _). vm_compute (inject_Z (10 ^ _)). field.
Qed.

Lemma exactTotal_micro amounts :
  Forall (fun s => isAmountFormat s = true) amounts ->
  exists m, (0 <= m)%Z /\ exactTotal amounts == inject_Z m / 10 ^ 6.
Proof.
  induction 1 as [|s rest Hs _ IH]; simpl.
  - exists 0%Z. split; [done|]. reflexivity.
  - destruct IH as (m & Hm & Em). destruct (amount_micro s Hs) as (q & k & Hq & Hk & Ek).
    exists (k + m)%Z. split; [lia|]. rewrite Hq. simpl.
    rewrite Em, Ek, inject_Z_plus. field.
Qed.


(** ** Sums of amounts *)

Lemma rnd_below_2_22 y :
  0 <= y -> y < 2 ^ 22 ->
  of_Q y = Fin (rnd y) /\ 0 <= rnd y /\ y - eps <= rnd y /\ rnd y <= y + eps.
Proof.
  intros H0 H1. split; [by apply (of_Q_finite y 22)|].
  exact (rnd_error y 22 H0 H1 ltac:(lia)).
Qed.

Lemma inject_Z_nonneg m : (0 <= m)%Z -> 0 <= inject_Z m.
Proof. intros H. rewrite Zle_Qle in H. exact H. Qed.

Lemma micro_nonneg m : (0 <= m)%Z -> 0 <= inject_Z m / 10 ^ 6.
Proof.
  intros Hm. apply Qle_shift_div_l; [done|]. rewrite Qmult_0_l.
  rewrite Zle_Qle in Hm. exact Hm.
Qed.

Lemma exactTotal_nonneg amounts :
  Forall (fun s => isAmountFormat s = true) amounts -> 0 <= exactTotal amounts.
Proof.
  intros H. destruct (exactTotal_micro amounts H) as (m & Hm & ->).
  by apply micro_nonneg.
Qed.

(** The running sum stays within [2 * eps] per row of the exact sum, as
    long as the exact sum stays below four million. *)
Lemma sum_error other amounts (s0 T0 : Q) (n0 : nat) :
  Forall (fun s => isAmountFormat s = true) amounts ->
  0 <= s0 -> 0 <= T0 ->
  T0 - 2 * inject_Z (Z.of_nat n0) * eps <= s0 ->
  s0 <= T0 + 2 * inject_Z (Z.of_nat n0) * eps ->
  T0 + exactTotal amounts <= 4000000 ->
  (n0 + length amounts <= 1000)%nat ->
  exists s,
    fold_left (fun sum a => js_add sum (parseFloat other a)) amounts (Fin s0) = Fin s
    /\ 0 <= s
    /\ T0 + exactTotal amounts
       - 2 * inject_Z (Z.of_nat (n0 + length amounts)) * eps <= s
    /\ s <= T0 + exactTotal amounts
            + 2 * inject_Z (Z.of_nat (n0 + length amounts)) * eps.
Proof.
  intros Hvalid. revert s0 T0 n0.
  induction Hvalid as [|a rest Ha Hrest IH]; intros s0 T0 n0 Hs0 HT0 Hlo Hhi Hsum Hn.
  - exists s0. simpl in *. rewrite Nat.add_0_r. split; [done|]. split; [done|].
    split; lra.
  - simpl in Hsum, Hn |- *.
    destruct (amount_micro a Ha) as (q & m & Hq & Hm & Em).
    pose proof (exactTotal_nonneg rest Hrest) as Hrest0.
    rewrite Hq in Hsum |- *. simpl in Hsum |- *.
    assert (Hq0 : 0 <= q).
    { rewrite Em. by apply micro_nonneg. }
    assert (Hn0 : inject_Z (Z.of_nat n0) <= 1000 - 1).
    { change (1000 - 1) with (inject_Z 999). rewrite <- Zle_Qle. lia. }
    assert (Hn00 : 0 <= inject_Z (Z.of_nat n0)).
    { change 0 with (inject_Z 0). rewrite <- Zle_Qle. lia. }
    assert (Heps : eps == 1 # 4294967296) by reflexivity.
    assert (H22 : 2 ^ 22 == 4194304) by reflexivity.
    (* the amount *)
    unfold parseFloat. rewrite Hq.
    destruct (rnd_below_2_22 q Hq0 ltac:(lra)) as (Ex & Hx0 & Hxlo & Hxhi).
    rewrite Ex. simpl js_add.
    (* the addition *)
    assert (Hy0 : 0 <= s0 + rnd q) by lra.
    assert (Hy1 : s0 + rnd q < 2 ^ 22) by nra.
    destruct (rnd_below_2_22 _ Hy0 Hy1) as (Ey & Hs1 & Hylo & Hyhi).
    rewrite Ey.
    destruct (IH (rnd (s0 + rnd q)) (T0 + q) (S n0)) as (s & Hfold & Hs & Hslo & Hshi).
    + done.
    + lra.
    + rewrite Nat2Z.inj_succ. unfold Z.succ. rewrite inject_Z_plus.
      change (inject_Z 1) with 1. lra.
    + rewrite Nat2Z.inj_succ. unfold Z.succ. rewrite inject_Z_plus.
      change (inject_Z 1) with 1. lra.
    + lra.
    + lia.
    + exists s. split; [done|]. split; [done|].
      replace (n0 + S (length rest))%nat with (S n0 + length rest)%nat by lia.
      split; lra.
Qed.

(** ** toFixed *)

Lemma Qfloor_unique x (z : Z) : inject_Z z <= x -> x < inject_Z z + 1 -> Qfloor x = z.
Proof.
  intros Hlo Hhi.
  pose proof (Qfloor_le x) as H1. pose proof (Qlt_floor x) as H2.
  rewrite inject_Z_plus in H2. change (inject_Z 1) with 1 in H2.
  assert (Ha : (Qfloor x < z + 1)%Z).
  { rewrite Zlt_Qlt, inject_Z_plus. change (inject_Z 1) with 1. lra. }
  assert (Hb : (z < Qfloor x + 1)%Z).
  { rewrite Zlt_Qlt, inject_Z_plus. change (inject_Z 1) with 1. lra. }
  lia.
Qed.

(** A non-negative number less than half a millionth away from a whole
    number of millionths is formatted as that number. *)
Lemma toFixed6_exact s (m : Z) :
  0 <= s -> s < 10 ^ 21 ->
  inject_Z m / 10 ^ 6 - (4999 # 10000000000) <= s ->
  s <= inject_Z m / 10 ^ 6 + (4999 # 10000000000) ->
  toFixed6 (Fin s) = Fixed6 false m.
Proof.
  intros H0 Hbig Hlo Hhi. unfold toFixed6.
  assert (Habs : Qabs s == s) by (by apply Qabs_pos).
  assert (H1 : Qle_bool (10 ^ 21) (Qabs s) = false).
  { destruct (Qle_bool (10 ^ 21) (Qabs s)) eqn:Hb; [|done].
    apply Qle_bool_iff in Hb. rewrite Habs in Hb. lra. }
  rewrite H1.
  assert (H2 : Qle_bool 0 s = true) by (by apply Qle_bool_iff).
  rewrite H2. simpl negb. f_equal.
  assert (E6 : 10 ^ 6 == 1000000) by reflexivity.
  rewrite Habs. apply Qfloor_unique.
  - rewrite E6 in Hlo |- *.
    assert (inject_Z m == inject_Z m / 1000000 * 1000000) by field. lra.
  - rewrite E6 in Hhi |- *.
    assert (inject_Z m == inject_Z m / 1000000 * 1000000) by field. lra.
Qed.

(** The total of at most a thousand amounts that add up to at most four
    million is formatted exactly. *)
Lemma total_exact other amounts :
  Forall (fun s => isAmountFormat s = true) amounts ->
  (length amounts <= 1000)%nat ->
  exactTotal amounts <= 4000000 ->
  exists n,
    toFixed6 (fold_left (fun sum a => js_add sum (parseFloat other a)) amounts (Fin 0))
    = Fixed6 false n
    /\ fixed_value false n == exactTotal amounts.
Proof.
  intros Hvalid Hlen Hsum.
  destruct (sum_error other amounts 0 0 0 Hvalid) as (s & Hfold & Hs & Hlo & Hhi);
    try (simpl; lra); try done.
  destruct (exactTotal_micro amounts Hvalid) as (m & Hm & Em).
  exists m. rewrite Hfold. split; [|by rewrite Em].
  simpl in Hlo, Hhi.
  assert (Hn : inject_Z (Z.of_nat (length amounts)) <= 1000).
  { change 1000 with (inject_Z 1000). rewrite <- Zle_Qle. lia. }
  assert (Hn0 : 0 <= inject_Z (Z.of_nat (length amounts))).
  { change 0 with (inject_Z 0). rewrite <- Zle_Qle. lia. }
  assert (Heps : eps == 1 # 4294967296) by reflexivity.
  assert (E21 : 10 ^ 21 == 1000000000000000000000) by reflexivity.
  apply toFixed6_exact; [done| | |].
  - rewrite E21. nra.
  - rewrite <- Em. nra.
  - rewrite <- Em. nra.
Qed.

End JsNumFacts.

(* ===================================================================== *)
(** * Properties of the payroll run engine                                 *)
(* ===================================================================== *)

Module PayrollFacts.
Import JsNum Ledger Payroll.

Ltac unfold_m :=
  unfold update_payrollItem, update_payrollRun, create_auditLog in *;
  unfold bind, ret, throw, try_catch, tell, get_db, modify_db, call, now in *.

(** ** The payment paths *)

Lemma dispatch_db env li w : db (snd (dispatch env li w)) = db w.
Proof.
  destruct li as [[id item] [worker|]]; simpl; [|reflexivity].
  unfold executeCirclePayout, executeGaslessPayment. unfold_m.
  destruct (truthy_value (walletId worker)); simpl.
  { destruct (createGaslessTransfer _ _ _ _ _ _); reflexivity. }
  destruct (truthy_value (recipientId worker)); simpl; [|reflexivity].
  destruct (createPayout _ _ _ _ _ _ _); reflexivity.
Qed.

Lemma dispatch_trace env li w :
  trace (snd (dispatch env li w)) = trace w ++ paymentCall li.
Proof.
  destruct li as [[id item] [worker|]]; unfold paymentCall; simpl; [|by rewrite app_nil_r].
  unfold executeCirclePayout, executeGaslessPayment. unfold_m.
  destruct (truthy_value (walletId worker)); simpl.
  { destruct (createGaslessTransfer _ _ _ _ _ _); reflexivity. }
  destruct (truthy_value (recipientId worker)); simpl; [|by rewrite app_nil_r].
  destruct (createPayout _ _ _ _ _ _ _); reflexivity.
Qed.

Lemma filter_paymentCall li :
  filter (fun e => is_payment_call e = true) (paymentCall li) = paymentCall li.
Proof.
  destruct li as [[id item] [x|]]; simpl; [|done].
  destruct (truthy_value (walletId x)); [done|].
  destruct (truthy_value (recipientId x)); done.
Qed.

#[local] Arguments paymentCall : simpl never.

Lemma processItem_spec env li w :
  exists r w' f evs,
    processItem env li w = (inl r, w')
    /\ entry_payrollItemId r = loadedId li
    /\ db w' = set_payrollItems (alter f (loadedId li)) (db w)
    /\ (forall x, status (f x) = entryPayoutStatus r)
    /\ same_identity f
    /\ trace w' = trace w ++ evs
    /\ filter (fun e => is_payment_call e = true) evs = paymentCall li
    /\ entryPayoutStatus r = (if dispatchSucceeds env li w then COMPLETED else FAILED).
Proof.
  destruct li as [[id item] ow]. unfold processItem, loadedId.
  unfold_m. simpl fst.
  assert (Hok : forall r w2, dispatch env (id, item, ow)
                  (with_db (set_payrollItems (alter (item_set_status PROCESSING) id)) w)
                  = (r, w2) ->
                dispatchSucceeds env (id, item, ow) w
                = match r with inl _ => true | inr _ => false end).
  { intros r w2 D. unfold dispatchSucceeds. cbn [fst]. by rewrite D. }
  set (w1 := with_db _ w).
  pose proof (dispatch_db env (id, item, ow) w1) as Hdb.
  pose proof (dispatch_trace env (id, item, ow) w1) as Htr.
  destruct (dispatch env (id, item, ow) w1) as [[p|e] w2] eqn:D; simpl in Hdb, Htr |- *;
    rewrite (Hok _ _ D).
  - exists (mkResultEntry id (workerId item) entry_completed (Some (payout_id p)) None).
    eexists. exists (item_set_completed (payout_id p) (payout_transactionHash p)
                       (clock env (trace w2)) ∘ item_set_status PROCESSING).
    exists (paymentCall (id, item, ow)).
    split; [reflexivity|]. split; [reflexivity|]. simpl. rewrite Hdb.
    split. { unfold set_payrollItems. simpl. by rewrite list_alter_alter_eq. }
    split; [done|]. split; [done|]. split; [exact Htr|].
    split; [apply filter_paymentCall|]. done.
  - exists (mkResultEntry id (workerId item) entry_failed None (Some (message_or_unknown e))).
    eexists. exists (item_set_failed (message_or_unknown e) ∘ item_set_status PROCESSING).
    exists (paymentCall (id, item, ow) ++ [LogError "Failed to process payroll item"]).
    split; [reflexivity|]. split; [reflexivity|]. simpl. rewrite Hdb.
    split. { unfold set_payrollItems. simpl. by rewrite list_alter_alter_eq. }
    split; [done|]. split; [done|].
    split. { rewrite Htr. rewrite <- app_assoc. reflexivity. }
    split. { rewrite filter_app, filter_paymentCall. apply app_nil_r. }
    done.
Qed.


(** ** The loaded items *)

Lemma loadFrom_elem runId s n items li :
  li ∈ loadFrom runId s n items ->
  exists k item,
    items !! k = Some item /\ payrollRunId item = runId
    /\ li = ((n + k)%nat, item, workers s !! workerId item).
Proof.
  revert n. induction items as [|item rest IH]; intros n; simpl.
  { intros H. by apply elem_of_nil in H. }
  rewrite elem_of_app. intros [H|H].
  - destruct (decide (payrollRunId item = runId)) as [E|]; [|by apply elem_of_nil in H].
    apply list_elem_of_singleton in H. exists 0%nat, item.
    rewrite Nat.add_0_r. done.
  - destruct (IH _ H) as (k & item' & Hk & Hr & ->).
    exists (S k), item'. split; [done|]. split; [done|]. f_equal. f_equal. lia.
Qed.

Lemma loadFrom_NoDup runId s n items :
  NoDup (map loadedId (loadFrom runId s n items)).
Proof.
  revert n. induction items as [|item rest IH]; intros n; simpl; [constructor|].
  destruct (decide (payrollRunId item = runId)); simpl; [|apply IH].
  constructor; [|apply IH].
  rewrite list_elem_of_fmap. intros (li & Hid & Hli).
  apply loadFrom_elem in Hli as (k & item' & _ & _ & ->).
  unfold loadedId in Hid. simpl in Hid. lia.
Qed.

Lemma loadItems_elem runId s li :
  li ∈ loadItems runId s ->
  exists item,
    payrollItems s !! loadedId li = Some item /\ payrollRunId item = runId
    /\ li = (loadedId li, item, workers s !! workerId item).
Proof.
  intros H. apply loadFrom_elem in H as (k & item & Hk & Hr & ->).
  exists item. simpl. done.
Qed.

Lemma loadFrom_complete runId s n items k item :
  items !! k = Some item -> payrollRunId item = runId ->
  ((n + k)%nat, item, workers s !! workerId item) ∈ loadFrom runId s n items.
Proof.
  revert n k. induction items as [|x rest IH]; intros n k; [done|].
  destruct k as [|k]; simpl.
  - intros [= ->] Hr. rewrite decide_True by done. rewrite Nat.add_0_r.
    apply elem_of_app. left. by apply list_elem_of_singleton.
  - intros Hk Hr. apply elem_of_app. right.
    replace (n + S k)%nat with (S n + k)%nat by lia. by apply IH.
Qed.

(** ** The loop over the items *)

Lemma processItems_spec env lis w :
  exists rs w' items' evs,
    processItems env lis w = (inl rs, w')
    /\ length rs = length lis
    /\ db w' = set_payrollItems (fun _ => items') (db w)
    /\ length items' = length (payrollItems (db w))
    /\ (forall id, id ∉ map loadedId lis ->
          items' !! id = payrollItems (db w) !! id)
    /\ (forall id x', items' !! id = Some x' ->
          exists x, payrollItems (db w) !! id = Some x
                    /\ payrollRunId x' = payrollRunId x)
    /\ (NoDup (map loadedId lis) ->
        forall k li r, lis !! k = Some li -> rs !! k = Some r ->
          entry_payrollItemId r = loadedId li
          /\ (loadedId li < length (payrollItems (db w)) ->
              status <$> items' !! loadedId li = Some (entryPayoutStatus r)))
    /\ trace w' = trace w ++ evs
    /\ filter (fun e => is_payment_call e = true) evs = concat (map paymentCall lis)
    /\ map entryPayoutStatus rs
       = map (fun ok : bool => if ok then COMPLETED else FAILED)
           (dispatchOutcomes env lis w).
Proof.
  revert w. induction lis as [|li rest IH]; intros w.
  - exists [], w, (payrollItems (db w)), []. simpl.
    split; [done|]. split; [done|].
    split. { by destruct w as [[]]. }
    split; [done|]. split; [done|]. split; [eauto|].
    split. { intros _ k li r Hk. done. }
    split; [by rewrite app_nil_r|done].
  - destruct (processItem_spec env li w)
      as (r & w1 & f & evs1 & Hrun & Hid & Hdb1 & Hst & Hsame & Htr1 & Hpay1 & Hout1).
    destruct (IH w1) as (rs & w' & items' & evs2 & Hrest & Hlen & Hdb & Hlen' & Hother
                         & Hback & Hper & Htr & Hpay & Hout).
    exists (r :: rs), w', items', (evs1 ++ evs2).
    assert (Hitems1 : payrollItems (db w1) = alter f (loadedId li) (payrollItems (db w))).
    { rewrite Hdb1. reflexivity. }
    split. { simpl. unfold bind. rewrite Hrun, Hrest. reflexivity. }
    split. { simpl. by rewrite Hlen. }
    split. { rewrite Hdb, Hdb1. reflexivity. }
    split. { rewrite Hlen', Hitems1. apply length_alter. }
    split.
    { intros id Hnot. simpl in Hnot. apply not_elem_of_cons in Hnot as [Hne Hnot].
      rewrite (Hother id Hnot), Hitems1. by apply list_lookup_alter_ne. }
    split.
    { intros id x' Hx'. destruct (Hback id x' Hx') as (x1 & Hx1 & Heq).
      rewrite Hitems1, list_lookup_alter in Hx1. case_decide as Hd.
      - subst id. destruct (payrollItems (db w) !! loadedId li) as [x|]; [|done].
        simpl in Hx1. injection Hx1 as <-. exists x. split; [done|].
        rewrite Heq. apply Hsame.
      - eauto. }
    split.
    { intros Hnd k li' r' Hk Hr. simpl in Hnd. apply NoDup_cons in Hnd as [Hnotin Hnd].
      destruct k as [|k]; simpl in Hk, Hr.
      - injection Hk as <-. injection Hr as <-. split; [done|]. intros Hlt.
        rewrite (Hother _ Hnotin), Hitems1, list_lookup_alter_eq.
        destruct (lookup_lt_is_Some_2 _ _ Hlt) as [x Hx]. rewrite Hx. simpl.
        by rewrite Hst.
      - destruct (Hper Hnd k li' r' Hk Hr) as [He Hs]. split; [done|].
        intros Hlt. apply Hs. rewrite Hitems1, length_alter. done. }
    split. { rewrite Htr, Htr1. by rewrite app_assoc. }
    split. { simpl. rewrite filter_app, Hpay1, Hpay. reflexivity. }
    simpl. rewrite Hrun. simpl. by rewrite Hout1, Hout.
Qed.


(** ** The final status of a run *)

Lemma countStatus_cons st r rs :
  countStatus st (r :: rs)
  = ((if decide (entry_status r = st) then 1 else 0) + countStatus st rs)%nat.
Proof.
  unfold countStatus. rewrite filter_cons. by case_decide.
Qed.

Lemma counts_outcomes rs outs :
  map entryPayoutStatus rs
  = map (fun ok : bool => if ok then COMPLETED else FAILED) outs ->
  (countStatus entry_failed rs = 0%nat <-> forallb id outs = true)
  /\ (countStatus entry_completed rs = 0%nat <-> existsb id outs = false).
Proof.
  revert outs. induction rs as [|r rs IH]; intros [|ok outs] H; try done.
  simpl in H. injection H as Hr Hrest. destruct (IH _ Hrest) as [IHf IHc].
  rewrite !countStatus_cons. unfold entryPayoutStatus in Hr. simpl.
  destruct (entry_status r), ok; done.
Qed.

Lemma counts_match rs outs :
  map entryPayoutStatus rs
  = map (fun ok : bool => if ok then COMPLETED else FAILED) outs ->
  countStatus entry_completed rs = length (filter (fun ok => ok = true) outs)
  /\ countStatus entry_failed rs = length (filter (fun ok => ok = false) outs).
Proof.
  revert outs. induction rs as [|r rs IH]; intros [|ok outs] H; try done.
  simpl in H. injection H as Hr Hrest. destruct (IH _ Hrest) as [IHc IHf].
  rewrite !countStatus_cons, !filter_cons, IHc, IHf. unfold entryPayoutStatus in Hr.
  destruct (entry_status r), ok; try done.
Qed.

Lemma finalStatus_outcomes rs outs :
  map entryPayoutStatus rs
  = map (fun ok : bool => if ok then COMPLETED else FAILED) outs ->
  finalStatus rs
  = (if forallb id outs then RUN_COMPLETED
     else if existsb id outs then RUN_COMPLETED else RUN_FAILED).
Proof.
  intros H. destruct (counts_outcomes rs outs H) as [Hf Hc]. unfold finalStatus.
  destruct (forallb id outs) eqn:Ef.
  - rewrite decide_True; [done|]. by apply Hf.
  - rewrite decide_False.
    2: { intros E. apply Hf in E. done. }
    destruct (existsb id outs) eqn:Ee.
    + rewrite decide_False; [done|]. intros E. apply Hc in E. done.
    + rewrite decide_True; [done|]. by apply Hc.
Qed.

Lemma existsb_id_true (outs : list bool) : existsb id outs = true <-> true ∈ outs.
Proof.
  rewrite existsb_exists. split.
  - intros (x & Hin & Hx). unfold id in Hx. subst. by apply list_elem_of_In.
  - intros H. exists true. split; [by apply list_elem_of_In|done].
Qed.

Lemma forallb_id_nonempty_false (outs : list bool) :
  outs <> [] -> true ∉ outs -> forallb id outs = false.
Proof.
  destruct outs as [|[] outs]; [done| |done].
  intros _ H. exfalso. apply H. by left.
Qed.

Lemma dispatchOutcomes_length env lis w :
  length (dispatchOutcomes env lis w) = length lis.
Proof.
  revert w. induction lis as [|li rest IH]; intros w; simpl; [done|]. by rewrite IH.
Qed.

(** ** Execution of a pending run *)

Lemma execute_pending env w runId run :
  payrollRuns (db w) !! runId = Some run ->
  run_status run = RUN_PENDING ->
  exists rs w2 items' evs,
    let w1 := with_db (set_payrollRuns (alter (run_set_status RUN_PROCESSING) runId)) w in
    let final := finalStatus rs in
    let t := clock env (trace w2) in
    executePayrollRun env runId w
    = (inl (mkExecuteResult runId final rs (length rs)
              (countStatus entry_completed rs) (countStatus entry_failed rs)),
       with_db (set_payrollRuns (alter (run_set_final final t) runId)) w2)
    /\ processItems env (loadItems runId (db w)) w1 = (inl rs, w2)
    /\ db w2 = set_payrollItems (fun _ => items') (db w1)
    /\ trace w2 = trace w ++ evs.
Proof.
  intros Hrun Hst.
  destruct (processItems_spec env (loadItems runId (db w))
              (with_db (set_payrollRuns (alter (run_set_status RUN_PROCESSING) runId)) w))
    as (rs & w2 & items' & evs & Hp & _ & Hdb & _ & _ & _ & _ & Htr & _).
  exists rs, w2, items', evs. simpl. split; [|done].
  unfold executePayrollRun. unfold_m. rewrite Hrun.
  rewrite decide_True by done. rewrite Hp. reflexivity.
Qed.


Lemma lookup_run_after env w runId run rs w2 items' :
  payrollRuns (db w) !! runId = Some run ->
  db w2 = set_payrollItems (fun _ => items')
            (db (with_db (set_payrollRuns (alter (run_set_status RUN_PROCESSING) runId)) w)) ->
  payrollRuns
    (db (with_db (set_payrollRuns
                    (alter (run_set_final (finalStatus rs) (clock env (trace w2))) runId)) w2))
    !! runId
  = Some (run_set_final (finalStatus rs) (clock env (trace w2)) run).
Proof.
  intros Hrun Hdb. simpl. rewrite Hdb. simpl.
  rewrite !list_lookup_alter_eq, Hrun. reflexivity.
Qed.

(** C1.  Executing a pending run with at least one item returns; every
    item whose payment call answered is COMPLETED and every item whose
    payment call threw is FAILED; the run ends COMPLETED when at least one
    dispatch succeeded and FAILED when none did; its completion time is
    stamped. *)
Theorem execute_final_status env w runId run :
  payrollRuns (db w) !! runId = Some run ->
  run_status run = RUN_PENDING ->
  loadItems runId (db w) <> [] ->
  let outcomes := executionOutcomes env runId w in
  exists res w',
    executePayrollRun env runId w = (inl res, w')
    /\ length outcomes = length (loadItems runId (db w))
    /\ (forall (k : nat) (li : LoadedItem) (ok : bool),
          loadItems runId (db w) !! k = Some li -> outcomes !! k = Some ok ->
          status <$> payrollItems (db w') !! loadedId li
          = Some (if ok then COMPLETED else FAILED))
    /\ (true ∈ outcomes ->
          run_status <$> payrollRuns (db w') !! runId = Some RUN_COMPLETED)
    /\ (true ∉ outcomes ->
          run_status <$> payrollRuns (db w') !! runId = Some RUN_FAILED)
    /\ (exists t, run_completedAt <$> payrollRuns (db w') !! runId = Some (Some t))
    /\ run_status <$> payrollRuns (db w') !! runId = Some (exec_status res)
    /\ exec_completed res = length (filter (fun ok => ok = true) outcomes)
    /\ exec_failed res = length (filter (fun ok => ok = false) outcomes).
Proof.
  intros Hrun Hst Hne outcomes.
  set (w1 := with_db (set_payrollRuns (alter (run_set_status RUN_PROCESSING) runId)) w).
  destruct (processItems_spec env (loadItems runId (db w)) w1)
    as (rs & w2 & items' & evs & Hp & Hlen & Hdb & Hlen' & _ & _ & Hper & Htr & _ & Hout).
  change (dispatchOutcomes env (loadItems runId (db w)) w1) with outcomes in Hout.
  destruct (execute_pending env w runId run Hrun Hst)
    as (rs0 & w20 & items0 & evs0 & Hexec & Hp0 & _ & _).
  simpl in Hexec, Hp0. fold w1 in Hp0. rewrite Hp in Hp0. injection Hp0 as <- <-.
  eexists _, _. split; [exact Hexec|].
  pose proof (lookup_run_after env w runId run rs w2 items' Hrun Hdb) as Hlook.
  pose proof (finalStatus_outcomes rs outcomes Hout) as Hfin.
  split. { apply dispatchOutcomes_length. }
  split.
  { intros k li ok Hk Hok.
    assert (Hr : exists r, rs !! k = Some r).
    { apply lookup_lt_is_Some_2. rewrite Hlen. by apply lookup_lt_Some in Hk. }
    destruct Hr as [r Hr].
    destruct (Hper (loadFrom_NoDup _ _ _ _) k li r Hk Hr) as [_ Hs].
    assert (Hin : li ∈ loadItems runId (db w)) by (by eapply list_elem_of_lookup_2).
    apply loadItems_elem in Hin as (item & Hitem & _).
    simpl. rewrite Hdb. simpl. rewrite Hs.
    2: { simpl. by apply lookup_lt_Some in Hitem. }
    f_equal.
    assert (Hm : map entryPayoutStatus rs !! k = Some (entryPayoutStatus r)).
    { by rewrite list_lookup_fmap, Hr. }
    rewrite Hout, list_lookup_fmap, Hok in Hm.
    by injection Hm. }
  rewrite Hlook. simpl.
  split.
  { intros Hin. f_equal. rewrite Hfin. apply existsb_id_true in Hin. rewrite Hin.
    by destruct (forallb id outcomes). }
  split.
  { intros Hnot. f_equal. rewrite Hfin.
    rewrite forallb_id_nonempty_false; [| |done].
    - destruct (existsb id outcomes) eqn:E; [|done].
      apply existsb_id_true in E. done.
    - intros E. apply Hne. apply length_zero_iff_nil.
      rewrite <- (dispatchOutcomes_length env _ w1).
      change (dispatchOutcomes env (loadItems runId (db w)) w1) with outcomes.
      by rewrite E. }
  split; [eauto|]. split; [done|]. apply (counts_match rs outcomes Hout).
Qed.

(** A run of two items, one paid through the worker's wallet and one
    without any payment method, ends COMPLETED. *)
Lemma execute_final_status_witness :
  exists res w',
    executePayrollRun Samples.happyEnv 0 Samples.sampleWorld = (inl res, w')
    /\ status <$> payrollItems (db w') !! 0%nat = Some COMPLETED
    /\ status <$> payrollItems (db w') !! 1%nat = Some FAILED
    /\ run_status <$> payrollRuns (db w') !! 0%nat = Some RUN_COMPLETED.
Proof.
  destruct (execute_final_status Samples.happyEnv Samples.sampleWorld 0 Samples.sampleRun
              eq_refl eq_refl ltac:(discriminate))
    as (res & w' & Hexec & _ & Hitems & Hdone & _).
  exists res, w'. split; [exact Hexec|].
  split. { exact (Hitems 0%nat _ true eq_refl eq_refl). }
  split. { exact (Hitems 1%nat _ false eq_refl eq_refl). }
  apply Hdone. vm_compute. left.
Defined.


(** ** Execution of a missing or non-pending run *)

Lemma alter_missing {A} (f : A -> A) (l : list A) (i : nat) :
  l !! i = None -> alter f i l = l.
Proof.
  intros H. apply list_eq. intros j. rewrite list_lookup_alter.
  case_decide; [subst; by rewrite H|done].
Qed.

Lemma finalStatus_not_pending rs : finalStatus rs <> RUN_PENDING.
Proof. unfold finalStatus. repeat case_decide; done. Qed.

Lemma execute_not_found env w runId :
  payrollRuns (db w) !! runId = None ->
  executePayrollRun env runId w
  = (inr runNotFound, mkWorld (db w) (trace w ++ executeFailureLog)).
Proof.
  intros H. unfold executePayrollRun. unfold_m. rewrite H. simpl.
  unfold with_db, emit. simpl. f_equal. f_equal.
  destruct (db w) as [ws rs its al xs gs ps]. unfold set_payrollRuns. simpl in *.
  by rewrite alter_missing.
Qed.

Lemma execute_not_pending env w runId run :
  payrollRuns (db w) !! runId = Some run ->
  run_status run <> RUN_PENDING ->
  executePayrollRun env runId w
  = (inr runNotPending,
     mkWorld (set_payrollRuns (alter (run_set_status RUN_FAILED) runId) (db w))
       (trace w ++ executeFailureLog)).
Proof.
  intros H Hst. unfold executePayrollRun. unfold_m. rewrite H.
  rewrite decide_False by done. reflexivity.
Qed.

(** C2.  Executing a run that does not exist fails with the not-found
    error (404); executing a run that is not PENDING fails with a
    different error (400, "not in pending status"); in both cases no item
    row changes and nothing is sent to the gateway.  In particular a
    second execution after a completed first one fails that way. *)
Theorem execute_requires_pending env w runId :
  (payrollRuns (db w) !! runId = None ->
   exists w', executePayrollRun env runId w = (inr runNotFound, w')
              /\ db w' = db w
              /\ trace w' = trace w ++ executeFailureLog)
  /\ (forall run,
        payrollRuns (db w) !! runId = Some run -> run_status run <> RUN_PENDING ->
        exists w', executePayrollRun env runId w = (inr runNotPending, w')
                   /\ payrollItems (db w') = payrollItems (db w)
                   /\ trace w' = trace w ++ executeFailureLog)
  /\ runNotPending <> runNotFound
  /\ (forall res w1 env',
        executePayrollRun env runId w = (inl res, w1) ->
        exists w2, executePayrollRun env' runId w1 = (inr runNotPending, w2)
                   /\ payrollItems (db w2) = payrollItems (db w1)
                   /\ trace w2 = trace w1 ++ executeFailureLog).
Proof.
  split. { intros H. eexists. split; [by apply execute_not_found|done]. }
  split. { intros run H Hst. eexists. split; [by eapply execute_not_pending|done]. }
  split; [done|].
  intros res w1 env' Hexec.
  destruct (payrollRuns (db w) !! runId) as [run|] eqn:Hrun.
  2: { rewrite execute_not_found in Hexec by done. done. }
  destruct (decide (run_status run = RUN_PENDING)) as [Hst|Hst].
  2: { rewrite (execute_not_pending _ _ _ run) in Hexec by done. done. }
  destruct (execute_pending env w runId run Hrun Hst)
    as (rs & w2 & items' & evs & Hexec' & _ & Hdb & _).
  simpl in Hexec'. rewrite Hexec' in Hexec. injection Hexec as _ <-.
  pose proof (lookup_run_after env w runId run rs w2 items' Hrun Hdb) as Hlook.
  eexists. split.
  { eapply execute_not_pending; [exact Hlook|]. simpl. apply finalStatus_not_pending. }
  done.
Qed.

(** After the sample run has been executed once, a second execution
    fails with the not-pending error and leaves the items alone. *)
Lemma execute_requires_pending_witness :
  exists res w1 w2,
    executePayrollRun Samples.happyEnv 0 Samples.sampleWorld = (inl res, w1)
    /\ executePayrollRun Samples.happyEnv 0 w1 = (inr runNotPending, w2)
    /\ payrollItems (db w2) = payrollItems (db w1)
    /\ trace w2 = trace w1 ++ executeFailureLog.
Proof.
  destruct (execute_requires_pending Samples.happyEnv Samples.sampleWorld 0)
    as (_ & _ & _ & Hsecond).
  eexists _, _. 
  destruct (Hsecond _ _ Samples.happyEnv eq_refl) as (w2 & H).
  exists w2. split; [reflexivity|exact H].
Defined.


(** ** The choice of the payment path *)

Lemma processItems_cons env li rest w :
  processItems env (li :: rest) w
  = match processItem env li w with
    | (inl r, w1) =>
        match processItems env rest w1 with
        | (inl rs, w2) => (inl (r :: rs), w2)
        | (inr e, w2) => (inr e, w2)
        end
    | (inr e, w1) => (inr e, w1)
    end.
Proof. reflexivity. Qed.

Lemma processItem_no_method env id item worker w :
  truthy_value (walletId worker) = None ->
  truthy_value (recipientId worker) = None ->
  processItem env (id, item, Some worker) w
  = (inl (mkResultEntry id (workerId item) entry_failed None (Some noPaymentMethod)),
     mkWorld
       (set_payrollItems
          (alter (item_set_failed noPaymentMethod) id)
          (set_payrollItems (alter (item_set_status PROCESSING) id) (db w)))
       (trace w ++ [LogError "Failed to process payroll item"])).
Proof.
  intros Hw Hr. unfold processItem, dispatch. unfold_m. rewrite Hw, Hr. reflexivity.
Qed.

(** The place of one item in the loop: the world in which it is
    reached still has its row as it was, and its row at the end of the
    loop is as its own turn left it. *)
Lemma processItems_item env lis w (k : nat) li :
  NoDup (map loadedId lis) -> lis !! k = Some li ->
  exists wk rk wk' rs w',
    processItems env lis w = (inl rs, w')
    /\ processItem env li wk = (inl rk, wk')
    /\ rs !! k = Some rk
    /\ payrollItems (db wk) !! loadedId li = payrollItems (db w) !! loadedId li
    /\ payrollItems (db w') !! loadedId li = payrollItems (db wk') !! loadedId li.
Proof.
  revert w k. induction lis as [|li0 rest IH]; intros w k Hnd Hk; [done|].
  simpl in Hnd. apply NoDup_cons in Hnd as [Hnot Hnd].
  destruct (processItem_spec env li0 w)
    as (r0 & w1 & f & evs0 & Hrun0 & _ & Hdb0 & _).
  destruct (processItems_spec env rest w1)
    as (rs & w' & items' & evs & Hrest & _ & Hdb & _ & Hframe & _).
  rewrite processItems_cons, Hrun0, Hrest.
  destruct k as [|k]; simpl in Hk.
  - injection Hk as ->. exists w, r0, w1, (r0 :: rs), w'.
    split; [done|]. split; [done|]. split; [done|]. split; [done|].
    rewrite Hdb. simpl. by apply Hframe.
  - destruct (IH w1 k Hnd Hk) as (wk & rk & wk' & rs1 & w1' & Hrest1 & Hrunk & Hrk & Hbefore
                                  & Hafter).
    rewrite Hrest in Hrest1. injection Hrest1 as <- <-.
    exists wk, rk, wk', (r0 :: rs), w'.
    split; [done|]. split; [done|]. split; [done|]. split; [|done].
    rewrite Hbefore, Hdb0. simpl. apply list_lookup_alter_ne.
    intros E. apply Hnot. rewrite E. apply list_elem_of_fmap. exists li.
    split; [done|]. by eapply list_elem_of_lookup_2.
Qed.

(** C6.  Executing a pending run returns with one result for every item
    of the run, and the payment calls it makes are those of its items, in
    their order, one path for each: for a worker with a wallet the
    gasless transfer and nothing else; for a worker without a wallet but
    with a recipient the custodial payout and nothing else; for a worker
    with neither no call at all, the item being left FAILED with the
    no-payment-method message while the items after it are processed all
    the same. *)
Theorem execute_payment_paths env runId run w :
  payrollRuns (db w) !! runId = Some run ->
  run_status run = RUN_PENDING ->
  exists res w' evs calls,
    executePayrollRun env runId w = (inl res, w')
    /\ trace w' = trace w ++ evs
    /\ filter (fun e => is_payment_call e = true) evs = concat calls
    /\ length calls = length (loadItems runId (db w))
    /\ length (exec_results res) = length (loadItems runId (db w))
    /\ forall (k : nat) id item worker,
         loadItems runId (db w) !! k = Some (id, item, Some worker) ->
         exists r c,
           exec_results res !! k = Some r
           /\ calls !! k = Some c
           /\ entry_payrollItemId r = id
           /\ (forall wallet,
                 truthy_value (walletId worker) = Some wallet ->
                 c = [CreateGaslessTransfer wallet (toLowerCase (chain item)) wallet
                        (amount item)])
           /\ (forall recipient,
                 truthy_value (walletId worker) = None ->
                 truthy_value (recipientId worker) = Some recipient ->
                 c = [CreatePayout recipient (amount item) (toLowerCase (chain item))
                        placeholderDestination (trackingRef id)])
           /\ (truthy_value (walletId worker) = None ->
               truthy_value (recipientId worker) = None ->
               c = []
               /\ entry_status r = entry_failed
               /\ entry_error r = Some noPaymentMethod
               /\ exists x', payrollItems (db w') !! id = Some x'
                             /\ status x' = FAILED
                             /\ errorMessage x' = Some noPaymentMethod).
Proof.
  intros Hrun Hst.
  set (lis := loadItems runId (db w)).
  set (w1 := with_db (set_payrollRuns (alter (run_set_status RUN_PROCESSING) runId)) w).
  destruct (execute_pending env w runId run Hrun Hst)
    as (rs & w2 & items' & evs & Hexec & Hp & _ & Htr).
  simpl in Hexec, Hp. fold lis w1 in Hp.
  destruct (processItems_spec env lis w1)
    as (rs0 & w20 & items0 & evs0 & Hp0 & Hlen & _ & _ & _ & _ & _ & Htr0 & Hcalls & _).
  rewrite Hp in Hp0. injection Hp0 as <- <-.
  assert (Hevs : evs0 = evs).
  { rewrite Htr in Htr0. change (trace w1) with (trace w) in Htr0.
    by apply app_inv_head in Htr0. }
  subst evs0.
  eexists _, _, evs, (map paymentCall lis). split; [exact Hexec|].
  split; [exact Htr|]. split; [exact Hcalls|]. split; [apply length_map|].
  split; [exact Hlen|].
  intros k id item worker Hk.
  destruct (processItems_item env lis w1 k _ (loadFrom_NoDup _ _ _ _) Hk)
    as (wk & rk & wk' & rs1 & w21 & Hp1 & Hrunk & Hrk & Hbefore & Hafter).
  rewrite Hp in Hp1. injection Hp1 as <- <-.
  destruct (processItem_spec env (id, item, Some worker) wk)
    as (r' & wk'' & f & evsk & Hrunk' & Hid & _).
  rewrite Hrunk in Hrunk'. injection Hrunk' as <- <-.
  exists rk, (paymentCall (id, item, Some worker)).
  split; [exact Hrk|].
  split. { rewrite list_lookup_fmap. exact (f_equal (fmap paymentCall) Hk). }
  split; [exact Hid|].
  split. { intros wallet Hw. unfold paymentCall. by rewrite Hw. }
  split. { intros rcp Hw Hr. unfold paymentCall. by rewrite Hw, Hr. }
  intros Hw Hr. split. { unfold paymentCall. by rewrite Hw, Hr. }
  rewrite (processItem_no_method env id item worker wk Hw Hr) in Hrunk.
  injection Hrunk as <- <-. split; [done|]. split; [done|].
  assert (Hitem : payrollItems (db w) !! id = Some item).
  { apply list_elem_of_lookup_2, loadItems_elem in Hk as (x & Hx & _ & E).
    unfold loadedId in *. simpl in *. injection E as ->. exact Hx. }
  unfold loadedId in Hbefore, Hafter. simpl in Hbefore, Hafter.
  change (payrollItems (db w1)) with (payrollItems (db w)) in Hbefore.
  rewrite Hitem in Hbefore.
  assert (Hend : payrollItems (db w2) !! id
                 = Some (item_set_failed noPaymentMethod (item_set_status PROCESSING item))).
  { rewrite Hafter. simpl. by rewrite !list_lookup_alter_eq, Hbefore. }
  eexists. split; [exact Hend|]. done.
Qed.

(** A run whose first item belongs to a worker without wallet and
    recipient and whose second item belongs to a worker with a wallet:
    the first item fails, the second is paid through the gasless path. *)
Lemma execute_payment_paths_witness :
  let w :=
    mkWorld
      (mkStore
         [mkWorker "B" "b@x.com" None None; mkWorker "A" "a@x.com" (Some "wallet-a") None]
         [Samples.sampleRun]
         [mkPayrollItem 0 0 "5.25" "BASE" PENDING None None None None;
          mkPayrollItem 0 1 "10.50" "ETHEREUM" PENDING None None None None]
         [] [] [] []) [] in
  exists res w',
    executePayrollRun Samples.happyEnv 0 w = (inl res, w')
    /\ map entry_status (exec_results res) = [entry_failed; entry_completed]
    /\ filter (fun e => is_payment_call e = true) (trace w')
       = [CreateGaslessTransfer "wallet-a" "ethereum" "wallet-a" "10.50"]
    /\ (errorMessage <$> payrollItems (db w') !! 0%nat) = Some (Some noPaymentMethod).
Proof.
  intros w.
  destruct (execute_payment_paths Samples.happyEnv 0 Samples.sampleRun w eq_refl eq_refl)
    as (res & w' & evs & calls & Hexec & Htr & Hcalls & Hlen & _ & Hper).
  exists res, w'. split; [exact Hexec|].
  destruct (Hper 0%nat 0%nat _ _ eq_refl) as (r0 & c0 & _ & Hc0 & _ & _ & _ & Hnone).
  destruct (Hnone eq_refl eq_refl) as (-> & _ & _ & x' & Hx' & _ & Herr).
  destruct (Hper 1%nat 1%nat _ _ eq_refl) as (r1 & c1 & _ & Hc1 & _ & Hwallet & _).
  rewrite (Hwallet "wallet-a" eq_refl) in Hc1.
  split. { vm_compute in Hexec. injection Hexec as <- _. reflexivity. }
  split.
  { rewrite Htr. change (trace w) with (@nil event). rewrite app_nil_l, Hcalls.
    destruct calls as [|a [|b [|c rest]]]; try (by vm_compute in Hlen).
    injection Hc0 as ->. injection Hc1 as ->. reflexivity. }
  by rewrite Hx', <- Herr.
Defined.

End PayrollFacts.

(* ===================================================================== *)
(** * Properties of run creation                                           *)
(* ===================================================================== *)

Module CreateFacts.
Import JsNum Ledger Payroll.
Import PayrollFacts.

Lemma provisionRecipient_spec env id row w :
  exists w' log,
    provisionRecipient env id row w = (inl tt, w')
    /\ trace w' = trace w ++ CreateRecipient (row_email row) id (row_name row) :: log
    /\ (log = [] \/ log = [LogWarn "Failed to create Circle recipient"])
    /\ (forall e, createRecipient env (trace w) (row_email row) id (row_name row) = inr e ->
          db w' = db w /\ log = [LogWarn "Failed to create Circle recipient"])
    /\ (db w' = db w
        \/ exists rid, db w' = set_workers (alter (worker_set_recipientId rid) id) (db w)).
Proof.
  unfold provisionRecipient, update_worker_recipientId. unfold_m. simpl.
  destruct (createRecipient env (trace w) (row_email row) id (row_name row)) as [rid|e].
  - destruct (existsb _ _).
    + eexists _, [LogWarn _]. split; [reflexivity|]. simpl.
      split. { by rewrite <- app_assoc. }
      split; [by right|]. split; [done|by left].
    + eexists _, []. split; [reflexivity|]. simpl. split; [done|].
      split; [by left|]. split; [done|]. right. by exists rid.
  - eexists _, [LogWarn _]. split; [reflexivity|]. simpl.
    split. { by rewrite <- app_assoc. }
    split; [by right|]. split; [|by left]. by intros e' _.
Qed.

Lemma provisionWallet_spec env id row w :
  exists w' log,
    provisionWallet env id row w = (inl tt, w')
    /\ trace w' = trace w ++ CreateWallet id [row_chain row] :: log
    /\ (log = [] \/ log = [LogWarn "Failed to create programmable wallet"])
    /\ (forall e, createWallet env (trace w) id [row_chain row] = inr e ->
          db w' = db w /\ log = [LogWarn "Failed to create programmable wallet"])
    /\ (db w' = db w
        \/ exists wid, db w' = set_workers (alter (worker_set_walletId wid) id) (db w)).
Proof.
  unfold provisionWallet, update_worker_walletId. unfold_m. simpl.
  destruct (createWallet env (trace w) id [row_chain row]) as [wid|e].
  - destruct (existsb _ _).
    + eexists _, [LogWarn _]. split; [reflexivity|]. simpl.
      split. { by rewrite <- app_assoc. }
      split; [by right|]. split; [done|by left].
    + eexists _, []. split; [reflexivity|]. simpl. split; [done|].
      split; [by left|]. split; [done|]. right. by exists wid.
  - eexists _, [LogWarn _]. split; [reflexivity|]. simpl.
    split. { by rewrite <- app_assoc. }
    split; [by right|]. split; [|by left]. by intros e' _.
Qed.


Lemma alter_last {A} (f : A -> A) (l : list A) (x : A) :
  alter f (length l) (l ++ [x]) = l ++ [f x].
Proof.
  replace (length l) with (length l + 0)%nat by lia. by rewrite alter_app_r.
Qed.

Lemma set_workers_set_workers f g s :
  set_workers f (set_workers g s) = set_workers (f ∘ g) s.
Proof. reflexivity. Qed.

(** A worker met for the first time: the row is created, then the two
    provisioning calls are made; a call that fails leaves a warning in
    the log and the worker without that resource. *)
Lemma findOrCreateWorker_new env row w :
  findWorkerByEmail (row_email row) (db w) = None ->
  exists w' worker log1 log2,
    let id := length (workers (db w)) in
    let t1 := trace w ++ CreateRecipient (row_email row) id (row_name row) :: log1 in
    findOrCreateWorker env row w = (inl id, w')
    /\ db w' = set_workers (fun l => l ++ [worker]) (db w)
    /\ worker_name worker = row_name row
    /\ worker_email worker = row_email row
    /\ trace w' = t1 ++ CreateWallet id [row_chain row] :: log2
    /\ (log1 = [] \/ log1 = [LogWarn "Failed to create Circle recipient"])
    /\ (log2 = [] \/ log2 = [LogWarn "Failed to create programmable wallet"])
    /\ (forall e,
          createRecipient env (trace w) (row_email row) id (row_name row) = inr e ->
          recipientId worker = None
          /\ log1 = [LogWarn "Failed to create Circle recipient"])
    /\ (forall e,
          createWallet env t1 id [row_chain row] = inr e ->
          walletId worker = None
          /\ log2 = [LogWarn "Failed to create programmable wallet"]).
Proof.
  intros Hfind. unfold findOrCreateWorker, create_worker. unfold_m. rewrite Hfind.
  set (id := length (workers (db w))).
  set (new := mkWorker (row_name row) (row_email row) None None).
  set (w1 := with_db (set_workers (fun l => l ++ [new])) w).
  destruct (provisionRecipient_spec env id row w1)
    as (w2 & log1 & Hrun1 & Htr1 & Hlog1 & Hfail1 & Hdb1).
  destruct (provisionWallet_spec env id row w2)
    as (w3 & log2 & Hrun2 & Htr2 & Hlog2 & Hfail2 & Hdb2).
  rewrite Hrun1, Hrun2.
  assert (Hshape : exists worker,
             db w3 = set_workers (fun l => l ++ [worker]) (db w)
             /\ worker_name worker = row_name row
             /\ worker_email worker = row_email row
             /\ (db w2 = db w1 -> recipientId worker = None)
             /\ (db w3 = db w2 -> walletId worker = None)).
  { assert (Hne : forall (f : Worker -> Worker) (l : list Worker) (x : Worker) s,
               workers s = l ++ [x] -> f x <> x ->
               set_workers (alter f (length l)) s <> s).
    { intros f l x s Hs Hfx E. apply (f_equal workers) in E. simpl in E.
      rewrite Hs, alter_last in E. apply app_inv_head in E. by injection E. }
    subst w1 new id.
    destruct Hdb1 as [E1|[rid E1]]; destruct Hdb2 as [E2|[wid E2]].
    - eexists. rewrite E2, E1. done.
    - eexists (worker_set_walletId wid _). rewrite E2, E1. split.
      { unfold set_workers. simpl. f_equal. apply alter_last. }
      split; [done|]. split; [done|]. split; [done|].
      intros E. exfalso. revert E. eapply Hne; [reflexivity|done].
    - eexists (worker_set_recipientId rid _). rewrite E2, E1. split.
      { unfold set_workers. simpl. f_equal. apply alter_last. }
      split; [done|]. split; [done|]. split; [|done].
      intros E. exfalso. revert E. eapply Hne; [reflexivity|done].
    - eexists (worker_set_walletId wid (worker_set_recipientId rid _)).
      rewrite E2, E1. split.
      { unfold set_workers. simpl. f_equal. by rewrite !alter_last. }
      split; [done|]. split; [done|]. split.
      + intros E. exfalso. revert E. eapply Hne; [reflexivity|done].
      + intros E. exfalso. revert E. eapply Hne; [simpl; apply alter_last|done]. }
  destruct Hshape as (worker & Hdb & Hname & Hemail & Hr & Hw).
  exists w3, worker, log1, log2. simpl.
  split; [done|]. split; [done|]. split; [done|]. split; [done|].
  split. { rewrite Htr2, Htr1. reflexivity. }
  split; [done|]. split; [done|].
  split.
  { intros e He. destruct (Hfail1 e He) as [E ->]. split; [by apply Hr|done]. }
  intros e He. change (trace w1) with (trace w) in Htr1. rewrite <- Htr1 in He.
  destruct (Hfail2 e He) as [E ->].
  split; [by apply Hw|done].
Qed.


Lemma extend_store_nil s : extend_store s [] [] [] [] = s.
Proof. destruct s. unfold extend_store. simpl. by rewrite !app_nil_r. Qed.

Lemma extend_store_extend s ws1 rs1 its1 l1 ws2 rs2 its2 l2 :
  extend_store (extend_store s ws1 rs1 its1 l1) ws2 rs2 its2 l2
  = extend_store s (ws1 ++ ws2) (rs1 ++ rs2) (its1 ++ its2) (l1 ++ l2).
Proof. unfold extend_store. simpl. by rewrite !app_assoc. Qed.

Lemma findOrCreateWorker_spec env row w :
  exists wid w' evs ws' worker,
    findOrCreateWorker env row w = (inl wid, w')
    /\ db w' = extend_store (db w) ws' [] [] []
    /\ (workers (db w) ++ ws') !! wid = Some worker
    /\ worker_email worker = row_email row
    /\ trace w' = trace w ++ evs
    /\ Forall inner evs.
Proof.
  destruct (findWorkerByEmail (row_email row) (db w)) as [[id x]|] eqn:Hfind.
  - exists id, w, [], [], x. unfold findOrCreateWorker. unfold_m. rewrite Hfind.
    apply list_find_Some in Hfind as (Hx & Hemail & _).
    split; [done|]. split; [by rewrite extend_store_nil|].
    split; [by rewrite app_nil_r|]. split; [done|]. split; [by rewrite app_nil_r|done].
  - destruct (findOrCreateWorker_new env row w Hfind)
      as (w' & worker & log1 & log2 & Hrun & Hdb & _ & Hemail & Htr & Hl1 & Hl2 & _).
    simpl in *.
    exists (length (workers (db w))), w', 
      (CreateRecipient (row_email row) (length (workers (db w))) (row_name row) :: log1
       ++ CreateWallet (length (workers (db w))) [row_chain row] :: log2),
      [worker], worker.
    split; [done|].
    split. { rewrite Hdb. destruct (db w). unfold extend_store, set_workers. simpl.
             by rewrite !app_nil_r. }
    split. { rewrite lookup_app_r by done. by rewrite Nat.sub_diag. }
    split; [done|].
    split. { rewrite Htr. by rewrite <- app_assoc. }
    constructor; [done|]. apply Forall_app. split.
    + destruct Hl1 as [->| ->]; repeat constructor; done.
    + constructor; [done|]. destruct Hl2 as [->| ->]; repeat constructor; done.
Qed.

Lemma processRow_spec env runId row w :
  exists wid w' evs ws' worker log,
    processRow env runId row w
    = (inl (length (payrollItems (db w)), itemOfRow runId wid row), w')
    /\ db w' = extend_store (db w) ws' [] [itemOfRow runId wid row] [log]
    /\ (workers (db w) ++ ws') !! wid = Some worker
    /\ worker_email worker = row_email row
    /\ trace w' = trace w ++ evs
    /\ Forall inner evs.
Proof.
  destruct (findOrCreateWorker_spec env row w)
    as (wid & w1 & evs & ws' & worker & Hrun & Hdb & Hw & Hemail & Htr & Hin).
  exists wid. eexists. exists evs, ws', worker. eexists.
  unfold processRow, create_payrollItem. unfold_m. rewrite Hrun. simpl.
  rewrite Hdb. simpl. rewrite app_nil_r.
  split; [reflexivity|].
  split. { unfold set_auditLogs, set_payrollItems. simpl. rewrite Hdb.
           unfold extend_store. simpl. by rewrite !app_nil_r. }
  split; [exact Hw|]. split; [exact Hemail|]. split; [exact Htr|exact Hin].
Qed.

Lemma processRows_spec env runId rows w :
  exists items w' evs ws' logs,
    processRows env runId rows w = (inl items, w')
    /\ db w' = extend_store (db w) ws' [] (map snd items) logs
    /\ length items = length rows
    /\ (forall (k : nat) row, rows !! k = Some row ->
          exists wid worker,
            items !! k
            = Some ((length (payrollItems (db w)) + k)%nat, itemOfRow runId wid row)
            /\ (workers (db w) ++ ws') !! wid = Some worker
            /\ worker_email worker = row_email row)
    /\ trace w' = trace w ++ evs
    /\ Forall inner evs.
Proof.
  revert w. induction rows as [|row rest IH]; intros w.
  - exists [], w, [], [], []. simpl. split; [done|].
    split; [by rewrite extend_store_nil|]. split; [done|].
    split; [done|]. split; [by rewrite app_nil_r|done].
  - destruct (processRow_spec env runId row w)
      as (wid & w1 & evs1 & ws1 & worker & log & Hrun & Hdb1 & Hw & Hemail & Htr1 & Hin1).
    destruct (IH w1) as (items & w' & evs2 & ws2 & logs & Hrest & Hdb & Hlen & Hper
                         & Htr & Hin2).
    exists ((length (payrollItems (db w)), itemOfRow runId wid row) :: items), w',
      (evs1 ++ evs2), (ws1 ++ ws2), (log :: logs).
    split. { simpl. unfold bind. rewrite Hrun, Hrest. reflexivity. }
    split. { rewrite Hdb, Hdb1, extend_store_extend. reflexivity. }
    split. { simpl. by rewrite Hlen. }
    split.
    { intros [|k] row' Hk; simpl in Hk.
      - injection Hk as <-. exists wid, worker. rewrite Nat.add_0_r.
        split; [done|]. split; [|done]. rewrite app_assoc.
        by apply lookup_app_l_Some.
      - destruct (Hper k row' Hk) as (wid' & worker' & Hi & Hw' & He').
        exists wid', worker'. simpl. rewrite Hi. rewrite Hdb1 in Hi, Hw' |- *.
        simpl in *. rewrite length_app. simpl.
        split. { f_equal. f_equal. lia. }
        split; [|done]. by rewrite app_assoc. }
    split. { rewrite Htr, Htr1. by rewrite app_assoc. }
    by apply Forall_app.
Qed.


Lemma createPayrollRun_spec env admin rows w :
  exists items w' evs ws' logs,
    let runId := length (payrollRuns (db w)) in
    createPayrollRun env admin rows w
    = (inl (mkCreateResult runId (createdRun env admin rows) items), w')
    /\ db w' = extend_store (db w) ws' [createdRun env admin rows] (map snd items) logs
    /\ length items = length rows
    /\ (forall (k : nat) row, rows !! k = Some row ->
          exists wid worker,
            items !! k
            = Some ((length (payrollItems (db w)) + k)%nat, itemOfRow runId wid row)
            /\ (workers (db w) ++ ws') !! wid = Some worker
            /\ worker_email worker = row_email row)
    /\ trace w' = trace w ++ TxBegin :: evs ++ [TxCommit]
    /\ Forall inner evs.
Proof.
  set (run := mkPayrollRun admin DRAFT (computeTotalAmount env rows) (length rows) None).
  set (w1 := with_db (set_payrollRuns (fun l => l ++ [run])) (emit TxBegin w)).
  destruct (processRows_spec env (length (payrollRuns (db w))) rows w1)
    as (items & w2 & evs & ws' & logs & Hrun & Hdb & Hlen & Hper & Htr & Hin).
  exists items. eexists. exists evs, ws'.
  exists (logs ++ [mkAuditLog "PAYROLL_RUN_CREATED" "PayrollRun"
                     (length (payrollRuns (db w))) None
                     (Some (length (payrollRuns (db w))))
                     (RunCreated (computeTotalAmount env rows) (length rows) admin)]).
  simpl.
  unfold createPayrollRun, transaction, create_payrollRun. unfold_m. simpl.
  fold run. fold w1. rewrite Hrun. simpl.
  split; [reflexivity|].
  split.
  { unfold set_auditLogs, set_payrollRuns. simpl. rewrite Hdb.
    unfold extend_store. simpl. rewrite !app_nil_r.
    rewrite alter_last, <- app_assoc. reflexivity. }
  split; [done|]. split; [exact Hper|].
  split. { simpl. rewrite Htr. simpl. rewrite <- !app_assoc. reflexivity. }
  done.
Qed.


(** ** Provisioning is best effort and happens inside the transaction *)

(** C7, as the program has it.  Creation always succeeds and creates one
    item per row and the worker of every row; every call to the gateway
    is made between the begin and the commit of the transaction that
    holds the writes; for a worker met for the first time, a provisioning
    call that fails leaves a warning in the log and the worker without
    that resource. *)
Theorem create_provisioning_best_effort env admin rows w :
  (exists items w' evs,
      createPayrollRun env admin rows w
      = (inl (mkCreateResult (length (payrollRuns (db w)))
                (createdRun env admin rows) items), w')
      /\ payrollRuns (db w') !! length (payrollRuns (db w))
         = Some (createdRun env admin rows)
      /\ length items = length rows
      /\ (forall (k : nat) row, rows !! k = Some row ->
            exists iid item worker,
              items !! k = Some (iid, item)
              /\ payrollItems (db w') !! iid = Some item
              /\ payrollRunId item = length (payrollRuns (db w))
              /\ amount item = row_amount row
              /\ status item = PENDING
              /\ workers (db w') !! workerId item = Some worker
              /\ worker_email worker = row_email row)
      /\ trace w' = trace w ++ TxBegin :: evs ++ [TxCommit]
      /\ Forall inner evs)
  /\ (forall row w0,
        findWorkerByEmail (row_email row) (db w0) = None ->
        exists w1 worker log1 log2,
          let id := length (workers (db w0)) in
          let t1 := trace w0 ++ CreateRecipient (row_email row) id (row_name row) :: log1 in
          findOrCreateWorker env row w0 = (inl id, w1)
          /\ db w1 = set_workers (fun l => l ++ [worker]) (db w0)
          /\ worker_email worker = row_email row
          /\ trace w1 = t1 ++ CreateWallet id [row_chain row] :: log2
          /\ (forall e,
                createRecipient env (trace w0) (row_email row) id (row_name row) = inr e ->
                recipientId worker = None
                /\ log1 = [LogWarn "Failed to create Circle recipient"])
          /\ (forall e,
                createWallet env t1 id [row_chain row] = inr e ->
                walletId worker = None
                /\ log2 = [LogWarn "Failed to create programmable wallet"])).
Proof.
  split.
  - destruct (createPayrollRun_spec env admin rows w)
      as (items & w' & evs & ws' & logs & Hrun & Hdb & Hlen & Hper & Htr & Hin).
    simpl in Hrun, Hper. exists items, w', evs.
    split; [done|].
    split. { rewrite Hdb. simpl. rewrite lookup_app_r by done. by rewrite Nat.sub_diag. }
    split; [done|]. split; [|done].
    intros k row Hk. destruct (Hper k row Hk) as (wid & worker & Hi & Hw & He).
    eexists _, _, worker. split; [exact Hi|]. rewrite Hdb. simpl.
    split. { rewrite lookup_app_r by lia.
             replace (_ + k - _)%nat with k by lia.
             rewrite list_lookup_fmap, Hi. reflexivity. }
    done.
  - intros row w0 Hfind.
    destruct (findOrCreateWorker_new env row w0 Hfind)
      as (w1 & worker & log1 & log2 & H1 & H2 & _ & H3 & H4 & _ & _ & H5 & H6).
    exists w1, worker, log1, log2. done.
Qed.

(** With the gateway down, the run of the two sample rows is created all
    the same, and both workers are left without recipient and wallet. *)
Lemma create_provisioning_best_effort_witness :
  exists items w',
    createPayrollRun Samples.downEnv "admin-1" [Samples.sampleRowA; Samples.sampleRowB] Samples.emptyWorld
    = (inl (mkCreateResult 0
              (createdRun Samples.downEnv "admin-1" [Samples.sampleRowA; Samples.sampleRowB]) items), w')
    /\ length items = 2%nat
    /\ workers (db w')
       = [mkWorker "A" "a@x.com" None None; mkWorker "B" "b@x.com" None None].
Proof.
  destruct (create_provisioning_best_effort Samples.downEnv "admin-1"
              [Samples.sampleRowA; Samples.sampleRowB] Samples.emptyWorld)
    as [(items & w' & evs & Hrun & _ & Hlen & _) _].
  exists items, w'. split; [exact Hrun|]. split; [exact Hlen|].
  vm_compute in Hrun. injection Hrun as _ <-. reflexivity.
Defined.

(** C7, as the specification has it, fails: creating a run for one new
    worker calls the gateway twice while the transaction is open. *)
Lemma create_calls_gateway_inside_transaction :
  let w' := snd (createPayrollRun Samples.happyEnv "admin-1" [Samples.sampleRowA]
                   Samples.emptyWorld) in
  trace w'
  = [TxBegin; CreateRecipient "a@x.com" 0 "A"; CreateWallet 0 ["ethereum"]; TxCommit]
  /\ gatewayOutsideTransactions false (trace w') = false.
Proof. vm_compute. done. Qed.


(** ** The empty run *)

Lemma loadFrom_none runId s n items :
  Forall (fun i => payrollRunId i <> runId) items -> loadFrom runId s n items = [].
Proof.
  revert n. induction items as [|i rest IH]; intros n H; [done|].
  apply Forall_cons in H as [Hi Hrest]. simpl.
  rewrite decide_False by done. by apply IH.
Qed.

(** C10.  The request schema accepts an empty list of workers; the run
    created from it has no workers and no items, and executing it ends
    with the run COMPLETED although no item succeeded. *)
Theorem empty_run_completes env env' adminHeader w :
  itemsReferToRuns (db w) ->
  CreatePayrollRunRequestSchema env [] = true
  /\ exists res w1,
       postPayrollRuns env adminHeader [] w
       = (Success 201 res (Some "Payroll run created successfully"), w1)
       /\ totalWorkers (created_run res) = 0%nat
       /\ created_items res = []
       /\ payrollItems (db w1) = payrollItems (db w)
       /\ run_status <$> payrollRuns (db w1) !! created_runId res = Some RUN_PENDING
       /\ exists ex w2,
            executePayrollRun env' (created_runId res) w1 = (inl ex, w2)
            /\ exec_results ex = []
            /\ exec_completed ex = 0%nat
            /\ exec_status ex = RUN_COMPLETED
            /\ run_status <$> payrollRuns (db w2) !! created_runId res
               = Some RUN_COMPLETED.
Proof.
  intros Hfk. split; [reflexivity|].
  set (admin := default "admin-1" (truthy_value adminHeader)).
  destruct (createPayrollRun_spec env admin [] w)
    as (items & w1 & evs & ws' & logs & Hrun & Hdb & Hlen & _ & _ & _).
  simpl in Hrun. destruct items; [|done].
  eexists _, w1. unfold postPayrollRuns.
  change (CreatePayrollRunRequestSchema env []) with true. cbv iota. fold admin.
  rewrite Hrun.
  split; [reflexivity|]. simpl.
  assert (Hlook : payrollRuns (db w1) !! length (payrollRuns (db w))
                  = Some (createdRun env admin [])).
  { rewrite Hdb. simpl. rewrite lookup_app_r by done. by rewrite Nat.sub_diag. }
  split; [done|]. split; [done|].
  split. { rewrite Hdb. simpl. apply app_nil_r. }
  split. { by rewrite Hlook. }
  destruct (execute_pending env' w1 _ _ Hlook eq_refl)
    as (rs & w2 & items' & evs' & Hexec & Hp & Hdb2 & _).
  simpl in Hexec, Hp.
  assert (Hload : loadItems (length (payrollRuns (db w))) (db w1) = []).
  { unfold loadItems. apply loadFrom_none. rewrite Hdb. simpl. rewrite app_nil_r.
    eapply Forall_impl; [exact Hfk|]. simpl. intros i Hi. lia. }
  rewrite Hload in Hp. simpl in Hp. injection Hp as <- <-.
  eexists _, _. split; [exact Hexec|]. simpl.
  split; [done|]. split; [done|]. split; [done|].
  rewrite !list_lookup_alter_eq, Hlook. reflexivity.
Qed.

Lemma empty_run_completes_witness :
  exists res w1 ex w2,
    postPayrollRuns Samples.happyEnv None [] Samples.sampleWorld
    = (Success 201 res (Some "Payroll run created successfully"), w1)
    /\ executePayrollRun Samples.downEnv (created_runId res) w1 = (inl ex, w2)
    /\ exec_results ex = []
    /\ exec_status ex = RUN_COMPLETED.
Proof.
  destruct (empty_run_completes Samples.happyEnv Samples.downEnv None Samples.sampleWorld)
    as (_ & res & w1 & Hpost & _ & _ & _ & _ & ex & w2 & Hexec & Hres & _ & Hst & _).
  { unfold itemsReferToRuns. simpl. repeat constructor. }
  exists res, w1, ex, w2. done.
Defined.


(** ** The total of a run *)

Lemma fold_left_amounts other rows a :
  fold_left (fun sum worker => js_add sum (parseFloat other (row_amount worker))) rows a
  = fold_left (fun sum s => js_add sum (parseFloat other s)) (map row_amount rows) a.
Proof.
  revert a. induction rows as [|row rest IH]; intros a; simpl; [done|]. apply IH.
Qed.

Lemma created_amounts runId (rows : list WorkerRow) (items : list (nat * PayrollItem))
    (first : nat) :
  length items = length rows ->
  (forall (k : nat) row, rows !! k = Some row ->
     exists wid, items !! k = Some ((first + k)%nat, itemOfRow runId wid row)) ->
  map (fun it => amount (snd it)) items = map row_amount rows.
Proof.
  intros Hlen Hper. apply list_eq. intros k. rewrite !list_lookup_fmap.
  destruct (rows !! k) as [row|] eqn:Hk.
  - destruct (Hper k row Hk) as (wid & ->). reflexivity.
  - apply lookup_ge_None in Hk. rewrite <- Hlen in Hk.
    apply lookup_ge_None in Hk. by rewrite Hk.
Qed.

(** C3, as the program has it.  For every batch of rows the creation
    returns, the worker count of the run is the number of created items,
    and the total of the run is the sum of the amounts of the created
    items in double precision, each read with parseFloat, written with
    six decimals.  For a batch of at most 1000 rows in the amount format
    whose amounts add up to at most 4,000,000 that total is the exact
    decimal sum of the amounts of the created items. *)
Theorem created_total_is_exact env admin rows w :
  exists res w',
    createPayrollRun env admin rows w = (inl res, w')
    /\ payrollRuns (db w') !! created_runId res = Some (created_run res)
    /\ totalWorkers (created_run res) = length (created_items res)
    /\ length (created_items res) = length rows
    /\ totalAmount (created_run res)
       = toFixed6
           (fold_left
              (fun sum it =>
                 js_add sum (parseFloat (parseFloat_other env) (amount (snd it))))
              (created_items res) (Fin 0))
    /\ (Forall (fun r => isAmountFormat (row_amount r) = true) rows ->
        length rows <= 1000 ->
        (exactTotal (map row_amount rows) <= 4000000)%Q ->
        exists n,
          totalAmount (created_run res) = Fixed6 false n
          /\ (fixed_value false n
              == exactTotal (map (fun it => amount (snd it)) (created_items res)))%Q).
Proof.
  destruct (createPayrollRun_spec env admin rows w)
    as (items & w' & evs & ws' & logs & Hrun & Hdb & Hlen' & Hper & _ & _).
  simpl in Hrun, Hper.
  assert (Hamounts : map (fun it => amount (snd it)) items = map row_amount rows).
  { eapply created_amounts; [done|].
    intros k row Hk. destruct (Hper k row Hk) as (wid & worker & Hi & _). eauto. }
  eexists _, w'. split; [exact Hrun|]. simpl.
  split. { rewrite Hdb. simpl. rewrite lookup_app_r by done. by rewrite Nat.sub_diag. }
  split; [done|]. split; [done|].
  split.
  { unfold computeTotalAmount, sumAmounts. f_equal.
    rewrite fold_left_amounts, <- Hamounts. clear.
    generalize (Fin 0). induction items as [|it items IH]; intros a; [done|].
    simpl. apply IH. }
  intros Hvalid Hlen Hsum.
  destruct (JsNumFacts.total_exact (parseFloat_other env) (map row_amount rows))
    as (n & Hn & En).
  { by apply Forall_fmap. }
  { by rewrite length_map. }
  { done. }
  exists n. split.
  { unfold computeTotalAmount, sumAmounts. by rewrite fold_left_amounts. }
  by rewrite Hamounts.
Qed.

(** The two rows of the example of the specification: 10.50 + 5.25. *)
Lemma created_total_is_exact_witness :
  exists res w',
    createPayrollRun Samples.happyEnv "admin-1" [Samples.sampleRowA; Samples.sampleRowB]
      Samples.emptyWorld = (inl res, w')
    /\ totalAmount (created_run res) = Fixed6 false 15750000
    /\ (fixed_value false 15750000
        == exactTotal (map (fun it => amount (snd it)) (created_items res)))%Q
    /\ totalWorkers (created_run res) = 2%nat.
Proof.
  destruct (created_total_is_exact Samples.happyEnv "admin-1"
              [Samples.sampleRowA; Samples.sampleRowB] Samples.emptyWorld)
    as (res & w' & Hrun & _ & Hcount & Hlen & _ & Hexact).
  destruct Hexact as (n & Hn & En).
  { repeat constructor. }
  { simpl. lia. }
  { vm_compute. discriminate. }
  exists res, w'. split; [exact Hrun|].
  assert (Hn' : totalAmount (created_run res) = Fixed6 false 15750000).
  { vm_compute in Hrun. injection Hrun as <- _. reflexivity. }
  rewrite Hn' in Hn. injection Hn as <-.
  split; [exact Hn'|]. split; [exact En|]. by rewrite Hcount, Hlen.
Defined.

(** C3, as the specification has it, fails: the amount 2^53 + 1 is a
    valid amount and the total of the run that pays it is one less. *)
Lemma large_total_is_rounded :
  isAmountFormat (row_amount Samples.largeRow) = true
  /\ exists res w',
       createPayrollRun Samples.happyEnv "admin-1" [Samples.largeRow] Samples.emptyWorld
       = (inl res, w')
       /\ map (fun it => amount (snd it)) (created_items res) = ["9007199254740993"]
       /\ (exactTotal ["9007199254740993"] == 9007199254740993)%Q
       /\ totalAmount (created_run res) = Fixed6 false 9007199254740992000000
       /\ (fixed_value false 9007199254740992000000 == 9007199254740992)%Q
       /\ ~ (fixed_value false 9007199254740992000000
             == exactTotal (map (fun it => amount (snd it)) (created_items res)))%Q.
Proof.
  split; [reflexivity|]. eexists _, _. split; [vm_compute; reflexivity|].
  split; [reflexivity|]. split; [reflexivity|]. split; [reflexivity|].
  split; [reflexivity|]. vm_compute. discriminate.
Qed.

(** Two amounts of about 4.5 billion already lose a millionth. *)
Example billions_lose_a_millionth :
  computeTotalAmount Samples.happyEnv
    [mkWorkerRow "A" "a@x.com" "4503599627.370497" "ethereum";
     mkWorkerRow "B" "b@x.com" "4503599627.370497" "base"]
  = Fixed6 false 9007199254740993
  /\ (exactTotal ["4503599627.370497"; "4503599627.370497"]
      == fixed_value false 9007199254740994)%Q.
Proof. split; vm_compute; reflexivity. Qed.

End CreateFacts.

(* ===================================================================== *)
(** * Properties of the status reconciliation                              *)
(* ===================================================================== *)

Module ReconciliationFacts.
Import JsNum Ledger Payroll.
Import PayrollFacts.

Lemma mapPayoutStatus_not_pending reported : mapPayoutStatus reported <> PENDING.
Proof.
  unfold mapPayoutStatus.
  destruct (_ || _); [done|]. destruct (_ || _); done.
Qed.

(** One report: the status of every item is either what it was or the
    status the report maps to. *)
Lemma updatePayoutStatus_item env pid reported tx w (id : nat) x :
  payrollItems (db w) !! id = Some x ->
  exists x',
    payrollItems (db (snd (updatePayoutStatus env pid reported tx w))) !! id = Some x'
    /\ (status x' = status x \/ status x' = mapPayoutStatus reported).
Proof.
  intros Hx. unfold updatePayoutStatus. unfold_m.
  destruct (findItemByPayoutId pid (db w)) as [[id' item]|]; simpl.
  - rewrite list_lookup_alter. case_decide as Hd.
    + subst id'. rewrite Hx. simpl. eexists. split; [reflexivity|]. by right.
    + exists x. split; [done|by left].
  - exists x. split; [done|by left].
Qed.

(** The item a report is matched with takes the reported status,
    whatever its status was. *)
Lemma updatePayoutStatus_overwrites env pid reported tx w id item :
  findItemByPayoutId pid (db w) = Some (id, item) ->
  status <$> payrollItems (db (snd (updatePayoutStatus env pid reported tx w))) !! id
  = Some (mapPayoutStatus reported).
Proof.
  intros Hfind. unfold updatePayoutStatus. unfold_m. rewrite Hfind. simpl.
  rewrite list_lookup_alter_eq.
  assert (Hx : payrollItems (db w) !! id = Some item).
  { unfold findItemByPayoutId in Hfind.
    destruct pid; apply list_find_Some in Hfind; tauto. }
  by rewrite Hx.
Qed.

(** C4, as the specification has it, fails: a "processing" report that
    arrives for a COMPLETED item moves it back to PROCESSING. *)
Lemma stale_report_regresses_completed_item :
  status <$> payrollItems (db Samples.paidWorld) !! 0%nat = Some COMPLETED
  /\ status <$> payrollItems
       (db (snd (updatePayoutStatus Samples.happyEnv (Some "po-1") "processing" None
                   Samples.paidWorld))) !! 0%nat
     = Some PROCESSING.
Proof. split; reflexivity. Qed.

End ReconciliationFacts.

(* ===================================================================== *)
(** * Properties of the webhook endpoints                                  *)
(* ===================================================================== *)

Module WebhookFacts.
Import JsNum Ledger Payroll Webhooks.
Import PayrollFacts.

(** The signature check accepts exactly the signature of the payload. *)
Lemma verifyWebhookSignature_true env payload signature w :
  fst (verifyWebhookSignature env payload signature w) = inl true
  <-> signature = Some ("sha256=" +:+ hmac_sha256_hex env payload).
Proof.
  unfold verifyWebhookSignature. unfold_m. destruct signature as [sig|]; simpl.
  - case_decide as Hlen; simpl.
    + split.
      * intros [= H]. apply bool_decide_eq_true in H. by subst.
      * intros [= ->]. by rewrite bool_decide_eq_true_2.
    + split; [done|]. intros [= ->]. done.
  - split; done.
Qed.

(** On the Circle endpoint a request whose signature is missing or is
    not the signature of its payload gets 401 and changes no row. *)
Lemma postCircle_rejects env req w :
  circle_signature req
  <> Some ("sha256=" +:+ hmac_sha256_hex env (json_stringify env (circle_body req))) ->
  fst (postCircle env req w) = invalidSignature
  /\ db (snd (postCircle env req w)) = db w.
Proof.
  intros Hsig. unfold postCircle, respond. unfold_m.
  pose proof (verifyWebhookSignature_true env (json_stringify env (circle_body req))
                (circle_signature req) w) as Hv.
  unfold verifyWebhookSignature in *. unfold_m.
  destruct (circle_signature req) as [sig|]; simpl in *; [|done].
  case_decide; simpl in *; [|done].
  rewrite bool_decide_eq_false_2; [done|]. intros ->. done.
Qed.

(** The three endpoints other than Circle's never look at the signature. *)
Lemma unauthenticated_endpoints_ignore_signature env w :
  (forall s1 s2 b, webhook env (ToCctp s1 b) w = webhook env (ToCctp s2 b) w)
  /\ (forall s1 s2 b, webhook env (ToGasStation s1 b) w = webhook env (ToGasStation s2 b) w)
  /\ (forall s1 s2 b, webhook env (ToPaymaster s1 b) w = webhook env (ToPaymaster s2 b) w).
Proof. done. Qed.

(** C5.  Only the Circle endpoint checks the signature.  Whatever the
    signature, also when there is none, the CCTP endpoint answers 200
    unless the notification says [attested] and carries an attestation,
    and then it answers 500, as the gas-station and paymaster endpoints
    always do: each with the error of its own handler, never the 401 of
    an invalid signature, and without a look at the signature (no
    verification is logged).  In particular an unsigned gas-station
    notification is answered 500 and an unsigned CCTP notification of a
    pending transfer 200. *)
Theorem unsigned_webhooks_are_not_rejected env w :
  (forall signature body,
     webhook env (ToCctp signature body) w
     = if bool_decide (cctp_status body = Some "attested") && truthy (cctp_attestation body)
       then (Failed 500 "Failed to process CCTP webhook" "CCTP_WEBHOOK_ERROR",
             emit (LogError "Failed to process CCTP webhook") w)
       else (Success 200 received None, w))
  /\ (forall signature body,
        webhook env (ToGasStation signature body) w
        = (Failed 500 "Failed to process Gas Station webhook" "GAS_STATION_WEBHOOK_ERROR",
           emit (LogError "Failed to process Gas Station webhook") w))
  /\ (forall signature body,
        webhook env (ToPaymaster signature body) w
        = (Failed 500 "Failed to process Paymaster webhook" "PAYMASTER_WEBHOOK_ERROR",
           emit (LogError "Failed to process Paymaster webhook") w))
  /\ (forall req,
        (forall r, req <> ToCircle r) -> fst (webhook env req w) <> invalidSignature)
  /\ fst (webhook Samples.happyEnv Samples.unsignedGasStationRequest Samples.gasWorld)
     = Failed 500 "Failed to process Gas Station webhook" "GAS_STATION_WEBHOOK_ERROR"
  /\ fst (webhook Samples.happyEnv Samples.unsignedCctpRequest Samples.gasWorld)
     = Success 200 received None.
Proof.
  assert (Hcctp : forall signature body,
            webhook env (ToCctp signature body) w
            = if bool_decide (cctp_status body = Some "attested")
                 && truthy (cctp_attestation body)
              then (Failed 500 "Failed to process CCTP webhook" "CCTP_WEBHOOK_ERROR",
                    emit (LogError "Failed to process CCTP webhook") w)
              else (Success 200 received None, w)).
  { intros signature body. unfold webhook, postCctp, respond. unfold_m.
    by destruct (_ && _). }
  split; [exact Hcctp|]. split; [done|]. split; [done|].
  split; [|by split].
  intros [r|sig b|sig b|sig b] Hreq.
  - by destruct (Hreq r).
  - rewrite Hcctp. by destruct (_ && _).
  - done.
  - done.
Qed.

End WebhookFacts.

(* ===================================================================== *)
(** * Properties of the attestation monitoring                             *)
(* ===================================================================== *)

Module MonitoringFacts.
Import JsNum Ledger Payroll CCTP.
Import PayrollFacts.

(** getAttestation reports a 404 as [null] and any other failure as a
    throw. *)
Lemma getAttestation_replies env messageHash w :
  (attestationService env (trace w) messageHash = Status404 ->
   fst (getAttestation env messageHash w) = inl None)
  /\ (forall e, attestationService env (trace w) messageHash = Failure e ->
      fst (getAttestation env messageHash w) = inr e).
Proof.
  unfold getAttestation. split.
  - by intros ->.
  - by intros e ->.
Qed.

(** Whatever the service answers, as long as it never hands out the
    attestation the loop makes exactly [remaining] polls and then throws
    the timeout error; it writes nothing to the store and every wait it
    makes is of 30 seconds. *)
Lemma monitorLoop_times_out env messageHash remaining w :
  (forall t, noAttestation (attestationService env t messageHash)) ->
  exists w' evs,
    monitorLoop env messageHash remaining w = (inr monitoringTimeout, w')
    /\ db w' = db w
    /\ trace w' = trace w ++ evs
    /\ length (filter (fun e => is_poll e = true) evs) = remaining
    /\ Forall (fun e => is_wait e = true -> e = Sleep 30000) evs.
Proof.
  intros Hnever. revert w. induction remaining as [|n IH]; intros w.
  { exists w, []. simpl. rewrite app_nil_r. done. }
  assert (Hstep : exists w1 evs1,
             monitorStep env messageHash w = (inl None, w1)
             /\ db w1 = db w /\ trace w1 = trace w ++ evs1
             /\ length (filter (fun e => is_poll e = true) evs1) = 1%nat
             /\ Forall (fun e => is_wait e = true -> e = Sleep 30000) evs1).
  { unfold monitorStep, getAttestation. unfold_m.
    specialize (Hnever (trace w)).
    destruct (attestationService env (trace w) messageHash) as [a| |e]; simpl in *.
    - rewrite Hnever. eexists _, [_; _]. split; [reflexivity|]. simpl.
      split; [done|]. split; [by rewrite <- app_assoc|]. split; [done|].
      repeat constructor; done.
    - eexists _, [_; _]. split; [reflexivity|]. simpl.
      split; [done|]. split; [by rewrite <- app_assoc|]. split; [done|].
      repeat constructor; done.
    - eexists _, [_; _; _]. split; [reflexivity|]. simpl.
      split; [done|]. split; [by rewrite <- !app_assoc|]. split; [done|].
      repeat constructor; done. }
  destruct Hstep as (w1 & evs1 & Hs & Hdb1 & Htr1 & Hc1 & Hw1).
  destruct (IH w1) as (w' & evs & Hrun & Hdb & Htr & Hc & Hw).
  exists w', (evs1 ++ evs). simpl. unfold bind. rewrite Hs, Hrun.
  split; [done|]. split; [congruence|].
  split. { rewrite Htr, Htr1. by rewrite app_assoc. }
  split. { rewrite filter_app, length_app, Hc1, Hc. done. }
  by apply Forall_app.
Qed.

(** While the service keeps saying "not yet available", every poll is
    followed by a wait of 30 seconds. *)
Lemma monitorLoop_waits_between_polls env messageHash remaining w :
  (forall t, notYetAvailable (attestationService env t messageHash)) ->
  exists w',
    monitorLoop env messageHash remaining w = (inr monitoringTimeout, w')
    /\ trace w'
       = trace w ++ concat (replicate remaining [GetAttestation messageHash; Sleep 30000]).
Proof.
  intros Hna. revert w. induction remaining as [|n IH]; intros w.
  { exists w. simpl. by rewrite app_nil_r. }
  assert (Hstep : monitorStep env messageHash w
                  = (inl None, emit (Sleep 30000) (emit (GetAttestation messageHash) w))).
  { unfold monitorStep, getAttestation. unfold_m.
    specialize (Hna (trace w)).
    destruct (attestationService env (trace w) messageHash) as [a| |e]; simpl in *;
      [by rewrite Hna|done|done]. }
  destruct (IH (emit (Sleep 30000) (emit (GetAttestation messageHash) w)))
    as (w' & Hrun & Htr).
  exists w'. simpl. unfold bind. rewrite Hstep, Hrun. split; [done|].
  rewrite Htr. simpl. by rewrite <- !app_assoc.
Qed.

(** C9.  When the attestation service answers every poll with an error,
    the loop polls again at once: the history holds the polls and the log
    entries and not a single wait, before the timeout error. *)
Lemma monitoring_retries_errors_without_wait :
  exists w',
    monitorTransfer Samples.downEnv "0xmsg" (Some 2%nat) Samples.emptyWorld
    = (inr monitoringTimeout, w')
    /\ trace w'
       = [GetAttestation "0xmsg"; LogError "Failed to get CCTP attestation";
          LogError "Error monitoring transfer";
          GetAttestation "0xmsg"; LogError "Failed to get CCTP attestation";
          LogError "Error monitoring transfer"]
    /\ filter (fun e => is_wait e = true) (trace w') = [].
Proof. eexists. split; [reflexivity|]. split; reflexivity. Qed.

End MonitoringFacts.

(* ===================================================================== *)
(** * Properties of the fee-abstracted operations                          *)
(* ===================================================================== *)

Module PaymasterFacts.
Import JsNum Ledger Payroll Paymaster.
Import PayrollFacts.
Local Open Scope Q_scope.

(** 100000 gas at 20 gwei on Ethereum: 0.002 ETH, 5 USD, 5.25 USDC with
    the slippage buffer. *)
Example calculateUSDCGasFee_sample :
  calculateUSDCGasFee ETHEREUM (mkGasEstimate 100000 20000000000 1000000000)
  = Fixed6 false 5250000.
Proof. vm_compute. reflexivity. Qed.

(** Below [2^33] the doubles are less than half a millionth apart from
    the decimals they come from, so the check compares a fee and a
    maximum with up to six decimals as the decimals they are. *)
Lemma fee_check_is_decimal_comparison other (n : Z) maxFee :
  isAmountFormat maxFee = true ->
  (0 <= n < 2 ^ 33 * 10 ^ 6)%Z ->
  (default 0 (decimalValue maxFee) < fixed_value false n)%Q ->
  js_gt (parseFloat_fixed (Fixed6 false n)) (parseFloat other maxFee) = true.
Proof.
  intros Hfmt Hn Hlt.
  destruct (JsNumFacts.amount_micro maxFee Hfmt) as (q & m & Hq & Hm & Em).
  rewrite Hq in Hlt. simpl in Hlt. unfold parseFloat, parseFloat_fixed. rewrite Hq.
  unfold fixed_value in *.
  assert (E6 : 10 ^ 6 == 1000000) by reflexivity.
  assert (E33 : 2 ^ 33 == 8589934592) by reflexivity.
  assert (Hn0 : 0 <= inject_Z n). { apply JsNumFacts.inject_Z_nonneg. lia. }
  assert (Hn1 : inject_Z n < 8589934592 * 1000000).
  { change (8589934592 * 1000000) with (inject_Z (2 ^ 33 * 10 ^ 6)).
    rewrite <- Zlt_Qlt. lia. }
  assert (Hm0 : 0 <= inject_Z m). { by apply JsNumFacts.inject_Z_nonneg. }
  assert (Hnq : inject_Z n / 10 ^ 6 * 1000000 == inject_Z n). { rewrite E6. field. }
  assert (Hmq : inject_Z m / 10 ^ 6 * 1000000 == inject_Z m). { rewrite E6. field. }
  set (a := inject_Z n / 10 ^ 6) in *.
  set (b := inject_Z m / 10 ^ 6) in *.
  (* the two decimals are at least a millionth apart *)
  assert (Hgap : b * 1000000 + 1 <= a * 1000000).
  { rewrite Hnq, Hmq. change 1 with (inject_Z 1). rewrite <- inject_Z_plus, <- Zle_Qle.
    assert (Hmn : inject_Z m < inject_Z n).
    { rewrite <- Hnq, <- Hmq. nra. }
    rewrite <- Zlt_Qlt in Hmn. lia. }
  assert (Hq0 : 0 <= q) by nra.
  assert (Hq33 : q < 2 ^ 33). { rewrite E33. nra. }
  assert (Ha0 : 0 <= a) by nra.
  assert (Ha33 : a < 2 ^ 33). { rewrite E33. nra. }
  destruct (JsNumFacts.rnd_error q 33 Hq0 Hq33 ltac:(lia)) as (_ & _ & Hqhi).
  destruct (JsNumFacts.rnd_error a 33 Ha0 Ha33 ltac:(lia)) as (_ & Halo & _).
  rewrite (JsNumFacts.of_Q_finite q 33), (JsNumFacts.of_Q_finite a 33) by (done || lia).
  simpl. apply negb_true_iff.
  destruct (Qle_bool (rnd a) (rnd q)) eqn:Hb; [|done].
  apply Qle_bool_iff in Hb.
  assert (Ee : 2 ^ (33 - 54) == 1 # 2097152) by reflexivity.
  rewrite Ee in Hqhi, Halo. nra.
Qed.



End PaymasterFacts.
(* ===================================================================== *)
(** * Properties of strings and patterns                                   *)
(* ===================================================================== *)

Module TextFacts.
Import JsText.

Lemma chars_text l : chars (text l) = l.
Proof. apply String.list_ascii_of_string_of_list_ascii. Qed.

Lemma text_chars s : text (chars s) = s.
Proof. apply String.string_of_list_ascii_of_string. Qed.

Lemma append_nil_l s : "" +:+ s = s.
Proof. reflexivity. Qed.

Lemma append_cons c s t : String c s +:+ t = String c (s +:+ t).
Proof. reflexivity. Qed.

Lemma chars_app s1 s2 : chars (s1 +:+ s2) = chars s1 ++ chars s2.
Proof. unfold chars. induction s1 as [|c s1 IH]; simpl; [done|]. by rewrite <- IH. Qed.

Lemma text_app l1 l2 : text (l1 ++ l2) = text l1 +:+ text l2.
Proof. unfold text. induction l1 as [|c l1 IH]; simpl; [done|]. by rewrite IH. Qed.

Lemma length_chars s : length (chars s) = String.length s.
Proof. unfold chars. induction s as [|c s IH]; simpl; [done|]. by rewrite <- IH. Qed.

Lemma length_text l : String.length (text l) = length l.
Proof. by rewrite <- length_chars, chars_text. Qed.

Lemma chars_inj s1 s2 : chars s1 = chars s2 -> s1 = s2.
Proof. intros H. by rewrite <- (text_chars s1), <- (text_chars s2), H. Qed.

(** ** The words of the constructors *)

Lemma lang_void_inv l : lang Void l <-> False.
Proof. split; [inversion 1|done]. Qed.

Lemma lang_eps_inv l : lang Eps l <-> l = [].
Proof. split; [by inversion 1|intros ->; constructor]. Qed.

Lemma lang_class_inv p l : lang (Class p) l <-> exists c, l = [c] /\ p c = true.
Proof.
  split.
  - inversion 1; subst. eauto.
  - intros (c & -> & H). by constructor.
Qed.

Lemma lang_seq_inv r1 r2 l :
  lang (Seq r1 r2) l <-> exists l1 l2, l = l1 ++ l2 /\ lang r1 l1 /\ lang r2 l2.
Proof.
  split.
  - inversion 1; subst. eauto.
  - intros (l1 & l2 & -> & H1 & H2). by constructor.
Qed.

Lemma lang_alt_inv r1 r2 l : lang (Alt r1 r2) l <-> lang r1 l \/ lang r2 l.
Proof.
  split.
  - inversion 1; subst; auto.
  - intros [H|H]; [by apply lang_alt_l|by apply lang_alt_r].
Qed.

(** ** The matcher decides the language of the pattern *)

Lemma nullable_spec r : nullable r = true <-> lang r [].
Proof.
  induction r as [| |p|r1 IH1 r2 IH2|r1 IH1 r2 IH2|r IH]; simpl.
  - rewrite lang_void_inv. done.
  - rewrite lang_eps_inv. done.
  - rewrite lang_class_inv. split; [done|]. by intros (c & ? & _).
  - rewrite andb_true_iff, IH1, IH2, lang_seq_inv. split.
    + intros [H1 H2]. by exists [], [].
    + intros (l1 & l2 & E & H1 & H2). symmetry in E.
      apply app_eq_nil in E as [-> ->]. done.
  - rewrite orb_true_iff, IH1, IH2, lang_alt_inv. done.
  - split; [constructor|done].
Qed.

Lemma lang_star_cons_inv r c l :
  lang (Star r) (c :: l) ->
  exists l1 l2, l = l1 ++ l2 /\ lang r (c :: l1) /\ lang (Star r) l2.
Proof.
  intros H. remember (Star r) as s eqn:Es. remember (c :: l) as cl eqn:El.
  revert l El.
  induction H as [| | | | | |r' l1 l2 H1 _ H2 IH2]; try discriminate.
  injection Es as ->. intros l El.
  destruct l1 as [|c1 l1].
  - simpl in El. apply IH2; done.
  - simpl in El. injection El as -> <-. eauto.
Qed.

Lemma deriv_seq r1 r2 c l :
  (forall l, lang (deriv c r1) l <-> lang r1 (c :: l)) ->
  lang (Seq (deriv c r1) r2) l
  <-> exists l1 l2, l = l1 ++ l2 /\ lang r1 (c :: l1) /\ lang r2 l2.
Proof.
  intros IH1. rewrite lang_seq_inv. split.
  - intros (l1 & l2 & -> & H1 & H2). apply IH1 in H1. eauto.
  - intros (l1 & l2 & -> & H1 & H2). apply IH1 in H1. eauto.
Qed.

Lemma deriv_spec r c l : lang (deriv c r) l <-> lang r (c :: l).
Proof.
  revert l.
  induction r as [| |p|r1 IH1 r2 IH2|r1 IH1 r2 IH2|r IH]; intros l; simpl.
  - rewrite !lang_void_inv. done.
  - rewrite lang_void_inv, lang_eps_inv. done.
  - rewrite lang_class_inv. destruct (p c) eqn:Hp.
    + rewrite lang_eps_inv. split.
      * intros ->. eauto.
      * by intros (c' & [= -> ->] & _).
    + rewrite lang_void_inv. split; [done|].
      intros (c' & [= -> ->] & H). congruence.
  - rewrite (lang_seq_inv r1 r2). destruct (nullable r1) eqn:Hn.
    + rewrite lang_alt_inv, (deriv_seq r1 r2 c l IH1), IH2. split.
      * intros [(l1 & l2 & -> & H1 & H2)|H].
        -- exists (c :: l1), l2. done.
        -- apply nullable_spec in Hn. exists [], (c :: l). done.
      * intros (l1 & l2 & E & H1 & H2). destruct l1 as [|c1 l1].
        -- simpl in E. subst l2. by right.
        -- simpl in E. injection E as -> ->. left. eauto.
    + rewrite (deriv_seq r1 r2 c l IH1). split.
      * intros (l1 & l2 & -> & H1 & H2). exists (c :: l1), l2. done.
      * intros (l1 & l2 & E & H1 & H2). destruct l1 as [|c1 l1].
        -- apply nullable_spec in H1. congruence.
        -- simpl in E. injection E as -> ->. eauto.
  - rewrite !lang_alt_inv, IH1, IH2. done.
  - rewrite (deriv_seq r (Star r) c l IH). split.
    + intros (l1 & l2 & -> & H1 & H2).
      change (c :: l1 ++ l2) with ((c :: l1) ++ l2). by constructor.
    + apply lang_star_cons_inv.
Qed.

Lemma matchesChars_spec r l : matchesChars r l = true <-> lang r l.
Proof.
  revert r. induction l as [|c l IH]; intros r; simpl.
  - apply nullable_spec.
  - rewrite IH. apply deriv_spec.
Qed.

(** ** The languages of the building blocks *)

Lemma lang_star_class p l : lang (Star (Class p)) l <-> Forall (fun c => p c = true) l.
Proof.
  split.
  - intros H. remember (Star (Class p)) as s eqn:Es.
    induction H as [| | | | | |r l1 l2 H1 _ H2 IH2]; try discriminate; [constructor|].
    injection Es as ->. apply lang_class_inv in H1 as (c & -> & Hc).
    constructor; [done|]. by apply IH2.
  - induction 1 as [|c l Hc _ IH]; [constructor|].
    change (c :: l) with ([c] ++ l). constructor; [by constructor|done].
Qed.

Lemma lang_plus_class p l :
  lang (plus (Class p)) l <-> l <> [] /\ Forall (fun c => p c = true) l.
Proof.
  unfold plus. rewrite lang_seq_inv. split.
  - intros (l1 & l2 & -> & H1 & H2). apply lang_class_inv in H1 as (c & -> & Hc).
    apply lang_star_class in H2. split; [done|]. by constructor.
  - intros [Hne H]. destruct H as [|c l Hc H]; [done|].
    exists [c], l. split; [done|]. split; [by constructor|by apply lang_star_class].
Qed.

Lemma lang_upto_class p n l :
  lang (upto n (Class p)) l <-> (length l <= n)%nat /\ Forall (fun c => p c = true) l.
Proof.
  revert l. induction n as [|n IH]; intros l; simpl.
  - rewrite lang_eps_inv. split.
    + intros ->. split; [done|constructor].
    + intros [H _]. destruct l; [done|simpl in H; lia].
  - unfold opt. rewrite lang_alt_inv, lang_eps_inv, lang_seq_inv. split.
    + intros [->|(l1 & l2 & -> & H1 & H2)].
      * split; [simpl; lia|constructor].
      * apply lang_class_inv in H1 as (c & -> & Hc). apply IH in H2 as [Hlen H2].
        split; [simpl; lia|by constructor].
    + intros [Hlen H]. destruct H as [|c l Hc H]; [by left|]. right.
      exists [c], l. split; [done|]. split; [by constructor|].
      apply IH. split; [simpl in Hlen; lia|done].
Qed.

Lemma lang_oneTo_class p n l :
  (1 <= n)%nat ->
  lang (oneTo n (Class p)) l
  <-> (1 <= length l <= n)%nat /\ Forall (fun c => p c = true) l.
Proof.
  intros Hn. unfold oneTo. rewrite lang_seq_inv. split.
  - intros (l1 & l2 & -> & H1 & H2). apply lang_class_inv in H1 as (c & -> & Hc).
    apply lang_upto_class in H2 as [Hlen H2]. split; [simpl; lia|by constructor].
  - intros [Hlen H]. destruct H as [|c l Hc H]; [simpl in Hlen; lia|].
    exists [c], l. split; [done|]. split; [by constructor|].
    apply lang_upto_class. split; [simpl in Hlen; lia|done].
Qed.

End TextFacts.

(* ===================================================================== *)
(** * Properties of the shared utilities                                   *)
(* ===================================================================== *)

Module UtilsFacts.
Import JsNum Ledger Payroll JsText Utils.
Import PayrollFacts TextFacts.

Lemma is_char_spec n c :
  (n < 256)%nat -> is_char n c = true <-> c = Ascii.ascii_of_nat n.
Proof.
  intros Hn. unfold is_char, code. rewrite Nat.eqb_eq. split.
  - intros <-. by rewrite Ascii.ascii_nat_embedding.
  - intros ->. by apply Ascii.nat_ascii_embedding.
Qed.

Lemma string_nonempty s : s <> "" <-> chars s <> [].
Proof. destruct s; simpl; split; done. Qed.

(** ** isValidEmail *)

(** X1.  isValidEmail accepts exactly the strings [local@domain.tld] whose
    three parts are non-empty and hold neither white space nor [@]: an
    accepted address has one [@], no white space, and after the [@] a
    full stop with something on both sides. *)
Theorem isValidEmail_shape email :
  isValidEmail email = true
  <-> exists l d t : string,
        email = l +:+ "@" +:+ d +:+ "." +:+ t
        /\ l <> "" /\ d <> "" /\ t <> ""
        /\ Forall (fun c => emailChar c = true) (chars l ++ chars d ++ chars t).
Proof.
  unfold isValidEmail, test, emailPattern. rewrite matchesChars_spec.
  rewrite lang_seq_inv. split.
  - intros (l & r1 & E & Hl & H1).
    apply lang_seq_inv in H1 as (a & r2 & -> & Ha & H2).
    apply lang_seq_inv in H2 as (d & r3 & -> & Hd & H3).
    apply lang_seq_inv in H3 as (p & t & -> & Hp & Ht).
    apply lang_plus_class in Hl as [Hl0 Hl], Hd as [Hd0 Hd], Ht as [Ht0 Ht].
    apply lang_class_inv in Ha as (ca & -> & Hca), Hp as (cp & -> & Hcp).
    apply is_char_spec in Hca; [|lia]. apply is_char_spec in Hcp; [|lia]. subst ca cp.
    exists (text l), (text d), (text t).
    split.
    { apply chars_inj. rewrite E, !chars_app, !chars_text. reflexivity. }
    rewrite !string_nonempty, !chars_text.
    split; [done|]. split; [done|]. split; [done|].
    by rewrite !Forall_app.
  - intros (l & d & t & -> & Hl & Hd & Ht & Hall).
    apply Forall_app in Hall as [Hfl Hall]. apply Forall_app in Hall as [Hfd Hft].
    apply string_nonempty in Hl, Hd, Ht.
    exists (chars l), (chars ("@" +:+ d +:+ "." +:+ t)).
    split; [by rewrite chars_app|]. split; [by apply lang_plus_class|].
    apply lang_seq_inv. exists (chars "@"), (chars (d +:+ "." +:+ t)).
    split; [by rewrite chars_app|]. split; [by constructor|].
    apply lang_seq_inv. exists (chars d), (chars ("." +:+ t)).
    split; [by rewrite chars_app|]. split; [by apply lang_plus_class|].
    apply lang_seq_inv. exists (chars "."), (chars t).
    split; [by rewrite chars_app|]. split; [by constructor|by apply lang_plus_class].
Qed.

(** ** sanitizeString *)

Lemma dropWhile_suffix {A} (p : A -> bool) l : exists k, l = k ++ dropWhile p l.
Proof.
  induction l as [|x l [k IH]]; simpl; [by exists []|].
  destruct (p x); [|by exists []]. exists (x :: k). simpl. by rewrite <- IH.
Qed.

Lemma trimChars_middle l : exists a b, l = a ++ trimChars l ++ b.
Proof.
  unfold trimChars.
  destruct (dropWhile_suffix isWhiteSpace l) as [a Ha].
  destruct (dropWhile_suffix isWhiteSpace (reverse (dropWhile isWhiteSpace l))) as [b Hb].
  exists a, (reverse b). rewrite <- reverse_app, <- Hb, reverse_involutive. exact Ha.
Qed.

(** X2.  The result of sanitizeString holds no angle bracket, and it is what
    is left of the string when characters are taken out: nothing is
    added or reordered. *)
Theorem sanitizeString_removes_brackets str :
  Forall (fun c => isAngleBracket c = false) (chars (sanitizeString str))
  /\ chars (sanitizeString str) `sublist_of` chars str.
Proof.
  unfold sanitizeString, trim. rewrite !chars_text. split.
  - apply Forall_forall. intros c Hc. by apply list_elem_of_filter in Hc as [Hc _].
  - etrans; [apply sublist_filter|].
    destruct (trimChars_middle (chars str)) as (a & b & E).
    rewrite E at 2. apply sublist_inserts_l, sublist_inserts_r. done.
Qed.

(** ** truncateAddress *)

Lemma sliceChars_prefix {A} (l : list A) (n : Z) :
  (0 <= n)%Z -> sliceChars l 0 (Some n) = take (Z.to_nat n) l.
Proof.
  intros Hn. unfold sliceChars, sliceIndex. simpl.
  rewrite (proj2 (Z.ltb_ge n 0)) by done.
  rewrite (Z.min_l 0) by lia. rewrite Z.sub_0_r.
  change (drop (Z.to_nat 0) l) with l.
  destruct (decide (n <= Z.of_nat (length l))%Z).
  - by rewrite Z.min_l by done.
  - rewrite Z.min_r by lia. rewrite Nat2Z.id.
    rewrite (take_ge l (length l)) by lia.
    rewrite (take_ge l (Z.to_nat n)) by lia. done.
Qed.

Lemma sliceChars_suffix {A} (l : list A) (n : Z) :
  (0 < n <= Z.of_nat (length l))%Z ->
  sliceChars l (- n) None = drop (length l - Z.to_nat n) l.
Proof.
  intros Hn. unfold sliceChars, sliceIndex.
  rewrite (proj2 (Z.ltb_lt (- n) 0)) by lia.
  rewrite Z.max_l by lia.
  replace (Z.to_nat (Z.of_nat (length l) + - n)) with (length l - Z.to_nat n)%nat by lia.
  apply take_ge. rewrite length_drop. lia.
Qed.

(** X3.  For a positive [chars], truncateAddress returns an address of at
    most [2 chars + 2] characters as it is, and shortens a longer one to
    its first [chars + 2] characters, three full stops and its last
    [chars] characters, [2 chars + 5] characters in all; truncating the
    result again changes nothing. *)
Theorem truncateAddress_shape address (n : nat) :
  (1 <= n)%nat ->
  let r := truncateAddress address (Some (Z.of_nat n)) in
  ((String.length address <= 2 * n + 2)%nat -> r = address)
  /\ ((2 * n + 2 < String.length address)%nat ->
      r = text (take (n + 2) (chars address)) +:+ "..."
          +:+ text (drop (String.length address - n) (chars address))
      /\ String.length r = (2 * n + 5)%nat)
  /\ truncateAddress r (Some (Z.of_nat n)) = r.
Proof.
  intros Hn.
  assert (Hshort : forall a, (String.length a <= 2 * n + 2)%nat ->
                             truncateAddress a (Some (Z.of_nat n)) = a).
  { intros a Ha. unfold truncateAddress. simpl.
    rewrite (proj2 (Z.leb_le _ _)) by lia. done. }
  assert (Hlong : forall a, (2 * n + 2 < String.length a)%nat ->
             truncateAddress a (Some (Z.of_nat n))
             = text (take (n + 2) (chars a)) +:+ "..."
               +:+ text (drop (String.length a - n) (chars a))).
  { intros a Ha. unfold truncateAddress. simpl.
    rewrite (proj2 (Z.leb_gt _ _)) by lia. unfold slice.
    rewrite sliceChars_prefix by lia.
    rewrite sliceChars_suffix by (rewrite length_chars; lia).
    rewrite length_chars. repeat f_equal; lia. }
  assert (Hlen : forall a, (2 * n + 2 < String.length a)%nat ->
             String.length (truncateAddress a (Some (Z.of_nat n))) = (2 * n + 5)%nat).
  { intros a Ha. rewrite Hlong by done.
    rewrite <- !length_chars, !chars_app, !length_app, !chars_text.
    rewrite length_take, length_drop, length_chars. simpl. lia. }
  intros r. split; [apply Hshort|].
  split. { intros H. split; [by apply Hlong|by apply Hlen]. }
  destruct (decide (String.length address <= 2 * n + 2)%nat) as [Hs|Hl].
  { subst r. rewrite (Hshort address Hs). by apply Hshort. }
  assert (Hl' : (2 * n + 2 < String.length address)%nat) by lia.
  assert (Hr : (2 * n + 2 < String.length r)%nat).
  { subst r. rewrite Hlen by done. lia. }
  rewrite (Hlong r Hr). subst r. rewrite (Hlen address Hl').
  rewrite (Hlong address Hl').
  set (p := take (n + 2) (chars address)).
  set (s := drop (String.length address - n) (chars address)).
  assert (Hp : length p = (n + 2)%nat).
  { subst p. rewrite length_take, length_chars. lia. }
  assert (Hs : length s = n).
  { subst s. rewrite length_drop, length_chars. lia. }
  rewrite !chars_app, !chars_text.
  rewrite take_app_length' by done.
  replace (2 * n + 5 - n)%nat with (length (p ++ chars "..."))
    by (rewrite length_app, Hp; simpl; lia).
  rewrite app_assoc, drop_app_length. reflexivity.
Qed.

(** The address of the USDC contract on Sepolia, truncated for display. *)
Lemma truncateAddress_shape_witness :
  truncateAddress "0x1c7D4B196Cb0C7B01d743Fbc6116a902379C7238" (Some 4%Z)
  = "0x1c7D...7238"
  /\ truncateAddress "0x1c7D...7238" (Some 4%Z) = "0x1c7D...7238".
Proof.
  destruct (truncateAddress_shape "0x1c7D4B196Cb0C7B01d743Fbc6116a902379C7238" 4
              ltac:(lia)) as (_ & Hlong & Hidem).
  destruct (Hlong ltac:(simpl; lia)) as [Hr _].
  split; [exact Hr|]. rewrite Hr in Hidem. exact Hidem.
Defined.

(** ** isValidUSDCAmount *)

Lemma digit_of_isDigit c : is_Some (digit_of c) <-> isDigit c = true.
Proof.
  unfold digit_of, isDigit, code.
  destruct (_ && _); split; intros H; try done; by destruct H.
Qed.

Lemma digits_acc_is_Some acc s :
  is_Some (digits_acc acc s) <-> Forall (fun c => isDigit c = true) (chars s).
Proof.
  revert acc. induction s as [|c s IH]; intros acc; simpl.
  - split; [constructor|by eexists].
  - rewrite Forall_cons, <- digit_of_isDigit.
    destruct (digit_of c) as [d|]; simpl.
    + rewrite IH. split; [by split; [eexists|]|tauto].
    + split; [by intros []|]. by intros [[] _].
Qed.

Lemma digits_is_Some s :
  is_Some (digits s) <-> chars s <> [] /\ Forall (fun c => isDigit c = true) (chars s).
Proof.
  destruct s as [|c s]; [simpl; split; [by intros []|by intros []]|].
  unfold digits. rewrite digits_acc_is_Some. simpl. split; [done|tauto].
Qed.

Lemma split_dot_chars s i o :
  split_dot s = (i, o) ->
  chars s = chars i ++ match o with
                       | Some f => Ascii.ascii_of_nat 46 :: chars f
                       | None => []
                       end
  /\ Forall (fun c => is_char 46 c = false) (chars i).
Proof.
  revert i. induction s as [|c s IH]; intros i; simpl.
  - intros [= <- <-]. done.
  - unfold is_char, code in *. destruct (_ =? 46)%nat eqn:Hc.
    + intros [= <- <-]. simpl. split; [|done]. f_equal.
      apply Nat.eqb_eq in Hc. by rewrite <- Hc, Ascii.ascii_nat_embedding.
    + destruct (split_dot s) as [a b]. intros [= <- <-].
      destruct (IH a eq_refl) as [E Hno]. simpl. rewrite E. split; [done|].
      by constructor.
Qed.

Lemma split_dot_app i rest :
  Forall (fun c => is_char 46 c = false) (chars i) ->
  split_dot (i +:+ rest)
  = (i +:+ fst (split_dot rest), snd (split_dot rest)).
Proof.
  induction i as [|c i IH].
  - intros _. rewrite !append_nil_l. by destruct (split_dot rest).
  - intros H. apply Forall_cons in H as [Hc H]. unfold is_char, code in Hc.
    rewrite !append_cons. simpl. rewrite Hc, (IH H). reflexivity.
Qed.

Lemma digit_not_dot c : isDigit c = true -> is_char 46 c = false.
Proof.
  unfold isDigit, is_char, code. intros H. apply andb_prop in H as [H _].
  apply Nat.leb_le in H. apply Nat.eqb_neq. lia.
Qed.

Lemma append_empty_r s : s +:+ "" = s.
Proof. induction s as [|c s IH]; [done|]. by rewrite append_cons, IH. Qed.

(** The pattern of the amounts is the format the schemas check. *)
Lemma amountPattern_isAmountFormat s :
  test amountPattern s = true <-> isAmountFormat s = true.
Proof.
  unfold test, amountPattern. rewrite matchesChars_spec, lang_seq_inv.
  unfold isAmountFormat. split.
  - intros (i & rest & E & Hi & Hrest).
    apply lang_plus_class in Hi as [Hi0 Hi].
    assert (Hnodot : Forall (fun c => is_char 46 c = false) (chars (text i))).
    { rewrite chars_text. eapply Forall_impl; [exact Hi|]. apply digit_not_dot. }
    assert (Hdi : is_Some (digits (text i))).
    { apply digits_is_Some. by rewrite chars_text. }
    assert (Es : s = text i +:+ text rest).
    { apply chars_inj. by rewrite chars_app, !chars_text. }
    apply lang_alt_inv in Hrest as [Hrest|Hrest].
    + apply lang_eps_inv in Hrest. subst rest.
      change (text []) with "" in Es. rewrite append_empty_r in Es.
      subst s. pose proof (split_dot_app (text i) "" Hnodot) as Hsp.
      rewrite append_empty_r in Hsp. simpl in Hsp. rewrite append_empty_r in Hsp.
      rewrite Hsp. by apply bool_decide_eq_true.
    + apply lang_seq_inv in Hrest as (d & f & -> & Hd & Hf).
      apply lang_class_inv in Hd as (c & -> & Hc). apply is_char_spec in Hc; [|lia].
      subst c. apply lang_oneTo_class in Hf as [Hlen Hf]; [|lia].
      subst s. rewrite (split_dot_app _ _ Hnodot). simpl. rewrite append_empty_r.
      rewrite length_text.
      rewrite !bool_decide_eq_true_2; [|apply digits_is_Some; rewrite chars_text|done].
      * simpl. apply Nat.leb_le. lia.
      * split; [|done]. destruct f; [simpl in Hlen; lia|done].
  - destruct (split_dot s) as [i o] eqn:Hsp.
    destruct (split_dot_chars s i o Hsp) as [E Hnodot].
    destruct o as [f|].
    + intros H. apply andb_prop in H as [H Hlen]. apply andb_prop in H as [Hi Hf].
      apply bool_decide_eq_true in Hi, Hf. apply digits_is_Some in Hi as [Hi0 Hi].
      apply digits_is_Some in Hf as [Hf0 Hf]. apply Nat.leb_le in Hlen.
      exists (chars i), (Ascii.ascii_of_nat 46 :: chars f).
      split; [done|]. split; [by apply lang_plus_class|].
      apply lang_alt_r. apply lang_seq_inv.
      exists [Ascii.ascii_of_nat 46], (chars f). split; [done|].
      split; [by constructor|]. apply lang_oneTo_class; [lia|].
      rewrite length_chars. split; [|done].
      split; [|done]. rewrite <- length_chars. destruct (chars f); [done|simpl; lia].
    + intros Hi. apply bool_decide_eq_true in Hi. apply digits_is_Some in Hi as [Hi0 Hi].
      exists (chars i), []. split; [done|]. split; [by apply lang_plus_class|].
      apply lang_alt_l. constructor.
Qed.

Local Open Scope Q_scope.

(** A rational from the smallest normal double on does not round to
    zero. *)
Lemma rnd_pos_positive q : 2 ^ (-1022) <= q -> 0 < rnd_pos q.
Proof.
  intros Hq.
  assert (Hq0 : 0 < q).
  { eapply Qlt_le_trans; [apply (JsNumFacts.pow2_pos (-1022))|done]. }
  destruct (JsNumFacts.ilog2_spec q Hq0) as [Hlo Hhi].
  assert (He : (-1022 <= ilog2 q)%Z).
  { assert (H : (-1022 < ilog2 q + 1)%Z).
    { apply JsNumFacts.pow2_lt_inv. eapply Qle_lt_trans; eauto. }
    lia. }
  pose proof (JsNumFacts.ulp_pos q) as Hu.
  assert (Hulp : ulp q <= q).
  { unfold ulp. rewrite Z.max_l by lia.
    eapply Qle_trans; [|exact Hlo]. apply JsNumFacts.pow2_le. lia. }
  unfold rnd_pos. rewrite Qred_correct.
  set (m := q / ulp q).
  assert (Hm : 1 <= m).
  { subst m. apply Qle_shift_div_l; [done|]. lra. }
  pose proof (JsNumFacts.round_half_even_error m) as [Hr _].
  apply Qmult_lt_0_compat; [lra|done].
Qed.

Lemma js_gt_of_Q_zero q :
  q == 0 \/ 2 ^ (-1022) <= q ->
  js_gt (of_Q q) (Fin 0) = true <-> 0 < q.
Proof.
  intros [Hz|Hq].
  - assert (Hr : rnd q = 0).
    { unfold rnd. apply Qeq_alt in Hz. by rewrite Hz. }
    unfold of_Q. rewrite Hr. simpl. split; [done|]. rewrite Hz. intros H.
    by apply Qlt_irrefl in H.
  - assert (Hq0 : 0 < q).
    { eapply Qlt_le_trans; [apply (JsNumFacts.pow2_pos (-1022))|done]. }
    split; [done|]. intros _.
    pose proof (rnd_pos_positive q Hq) as Hp.
    assert (Hr : rnd q = rnd_pos q).
    { unfold rnd. apply Qgt_alt in Hq0. by rewrite Hq0. }
    unfold of_Q. rewrite Hr.
    destruct (Qle_bool (2 ^ 1024) (rnd_pos q)); [done|].
    destruct (Qle_bool (rnd_pos q) (- 2 ^ 1024)) eqn:Hneg.
    { apply Qle_bool_iff in Hneg.
      pose proof (JsNumFacts.pow2_pos 1024). lra. }
    simpl. destruct (Qle_bool (rnd_pos q) 0) eqn:Hle; [|done].
    apply Qle_bool_iff in Hle. lra.
Qed.

(** X4.  isValidUSDCAmount accepts exactly the amounts in the format of the
    schemas (digits, then at most a full stop and one to six digits)
    whose decimal value is positive: rounding to a double never turns a
    positive amount into zero, and "0" and "0.000000" are refused. *)
Theorem isValidUSDCAmount_spec other amount :
  isValidUSDCAmount other amount = true
  <-> isAmountFormat amount = true
      /\ exists q, decimalValue amount = Some q /\ 0 < q.
Proof.
  unfold isValidUSDCAmount. rewrite andb_true_iff, amountPattern_isAmountFormat.
  split.
  - intros [Hfmt Hgt]. split; [done|].
    destruct (JsNumFacts.amount_micro amount Hfmt) as (q & m & Hq & Hm & Em).
    exists q. split; [done|]. unfold parseFloat in Hgt. rewrite Hq in Hgt.
    apply js_gt_of_Q_zero in Hgt; [done|].
    destruct (decide (m = 0%Z)) as [->|Hne].
    + left. rewrite Em. reflexivity.
    + right. rewrite Em.
      assert (H1 : 1 <= inject_Z m).
      { change 1 with (inject_Z 1). rewrite <- Zle_Qle. lia. }
      assert (E6 : 10 ^ 6 == 1000000) by reflexivity.
      assert (E : 2 ^ (-1022) <= 1 / 1000000) by (vm_compute; discriminate).
      rewrite E6. eapply Qle_trans; [exact E|].
      apply Qle_shift_div_l; [reflexivity|].
      assert (1 / 1000000 * 1000000 == 1) by reflexivity. lra.
  - intros [Hfmt (q & Hq & Hpos)]. split; [done|].
    destruct (JsNumFacts.amount_micro amount Hfmt) as (q' & m & Hq' & Hm & Em).
    rewrite Hq in Hq'. injection Hq' as <-.
    unfold parseFloat. rewrite Hq. apply js_gt_of_Q_zero; [|done].
    right. rewrite Em.
    assert (H1 : 1 <= inject_Z m).
    { change 1 with (inject_Z 1). rewrite <- Zle_Qle.
      assert (0 < inject_Z m).
      { rewrite Em in Hpos. assert (E6 : 10 ^ 6 == 1000000) by reflexivity.
        rewrite E6 in Hpos.
        assert (inject_Z m == inject_Z m / 1000000 * 1000000) by field. lra. }
      assert (0 < m)%Z by (rewrite Zlt_Qlt; done). lia. }
    assert (E6 : 10 ^ 6 == 1000000) by reflexivity.
    assert (E : 2 ^ (-1022) <= 1 / 1000000) by (vm_compute; discriminate).
    rewrite E6. eapply Qle_trans; [exact E|].
    apply Qle_shift_div_l; [reflexivity|].
    assert (1 / 1000000 * 1000000 == 1) by reflexivity. lra.
Qed.

Close Scope Q_scope.
(** ** calculateTotalAmount *)

(** The total createPayrollRun stores is calculateTotalAmount of the
    amounts of its rows. *)
Lemma computeTotalAmount_calculateTotalAmount env rows :
  computeTotalAmount env rows
  = calculateTotalAmount (parseFloat_other env) (map row_amount rows).
Proof.
  unfold computeTotalAmount, sumAmounts, calculateTotalAmount.
  by rewrite CreateFacts.fold_left_amounts.
Qed.

(** X5.  calculateTotalAmount of at most a thousand amounts in the amount
    format that add up to at most four million is their exact decimal
    sum, written with six decimals; it is also the total that
    createPayrollRun stores for rows with these amounts. *)
Theorem calculateTotalAmount_exact env amounts :
  Forall (fun s => isAmountFormat s = true) amounts ->
  (length amounts <= 1000)%nat ->
  (exactTotal amounts <= 4000000)%Q ->
  exists n,
    calculateTotalAmount (parseFloat_other env) amounts = Fixed6 false n
    /\ (fixed_value false n == exactTotal amounts)%Q
    /\ forall rows, map row_amount rows = amounts ->
         computeTotalAmount env rows = Fixed6 false n.
Proof.
  intros Hfmt Hlen Hsum.
  destruct (JsNumFacts.total_exact (parseFloat_other env) amounts Hfmt Hlen Hsum)
    as (n & Hn & En).
  exists n. split; [exact Hn|]. split; [exact En|].
  intros rows <-. by rewrite computeTotalAmount_calculateTotalAmount.
Qed.

(** 0.1 + 0.2 + 0.3 is 0.600000. *)
Lemma calculateTotalAmount_exact_witness :
  calculateTotalAmount (parseFloat_other Samples.happyEnv) ["0.1"; "0.2"; "0.3"]
  = Fixed6 false 600000.
Proof.
  destruct (calculateTotalAmount_exact Samples.happyEnv ["0.1"; "0.2"; "0.3"])
    as (n & Hn & _).
  { repeat constructor. }
  { simpl. lia. }
  { vm_compute. discriminate. }
  rewrite Hn. vm_compute in Hn. injection Hn as <-. reflexivity.
Defined.

(** ** parseCSV *)

Lemma fold_setProperty_other (hvs : list (string * string)) row h :
  h ∉ hvs.*1 ->
  fold_left (fun row hv => setProperty row (fst hv) (snd hv)) hvs row !! h = row !! h.
Proof.
  revert row. induction hvs as [|[h' v] hvs IH]; intros row Hh; simpl; [done|].
  apply not_elem_of_cons in Hh as [Hne Hh]. rewrite IH by done.
  unfold setProperty. simpl. destruct (String.eqb h' "__proto__"); [done|].
  by rewrite lookup_insert_ne.
Qed.

(** A row holds, under every header, the value of the same column. *)
Lemma buildRow_lookup headers values (j : nat) h :
  NoDup headers -> length values = length headers ->
  headers !! j = Some h -> h <> "__proto__" ->
  buildRow headers values !! h = values !! j.
Proof.
  unfold buildRow. generalize (∅ : gmap string string) as row.
  intros row Hnd. revert values row j.
  induction Hnd as [|h0 hs Hnotin Hnd IH]; intros values row j Hlen Hj Hproto; [done|].
  destruct values as [|v vs]; [done|]. simpl in Hlen.
  destruct j as [|j]; simpl in *.
  - injection Hj as ->. rewrite fold_setProperty_other.
    + unfold setProperty. apply String.eqb_neq in Hproto. rewrite Hproto.
      by rewrite lookup_insert_eq.
    + rewrite fst_zip by lia. done.
  - apply IH; [lia|done|done].
Qed.

Lemma parseRows_spec headers i lines rows :
  parseRows headers i lines = inl rows ->
  length rows = length lines
  /\ forall (k : nat) row, rows !! k = Some row ->
       exists line,
         lines !! k = Some line
         /\ length (split 44 line) = length headers
         /\ row = buildRow headers (map trim (split 44 line)).
Proof.
  revert i rows. induction lines as [|line rest IH]; intros i rows; simpl.
  - intros [= <-]. split; [done|]. intros k row Hk. done.
  - case_bool_decide as Hlen; [|done].
    destruct (parseRows headers (S i) rest) as [rows'|e] eqn:Hrest; [|done].
    intros [= <-]. destruct (IH _ _ Hrest) as [Hl Hrows].
    split; [simpl; lia|]. intros [|k] row Hk; simpl in *.
    + injection Hk as <-. exists line. rewrite length_map in Hlen. done.
    + by apply Hrows.
Qed.

(** X6.  When parseCSV returns, it returns one row for every line after the
    header line, no line was skipped, every such line has as many fields
    as the header, and (for distinct header names other than
    [__proto__]) each row holds under every header the trimmed field of
    the same column. *)
Theorem parseCSV_cells content rows :
  parseCSV content = inl rows ->
  let lines := split 10 (trim content) in
  let headers := map trim (split 44 (default "" (head lines))) in
  S (length rows) = length lines
  /\ forall (k : nat) row, rows !! k = Some row ->
       exists line,
         lines !! S k = Some line
         /\ length (split 44 line) = length headers
         /\ (NoDup headers ->
             forall (j : nat) h, headers !! j = Some h -> h <> "__proto__" ->
               row !! h = map trim (split 44 line) !! j).
Proof.
  intros Hrun lines headers. subst lines headers. unfold parseCSV in Hrun.
  destruct (split 10 (trim content)) as [|header [|line1 rest]]; [done|done|].
  apply parseRows_spec in Hrun as [Hlen Hrows]. simpl.
  split; [by rewrite Hlen|].
  intros k row Hk. destruct (Hrows k row Hk) as (line & Hline & Hcols & ->).
  exists line. split; [done|]. split; [done|].
  intros Hnd j h Hj Hproto. apply buildRow_lookup; [done| |done|done].
  by rewrite length_map.
Qed.

(** A file of two workers, with blanks around the fields. *)
Lemma parseCSV_cells_witness :
  exists row0 row1,
    parseCSV "name,email,amount,chain
Ada, ada@example.com ,100.50,ethereum
Bob,bob@example.com,75.25,base" = inl [row0; row1]
    /\ row0 !! "email" = Some "ada@example.com"
    /\ row1 !! "amount" = Some "75.25".
Proof.
  destruct (parseCSV "name,email,amount,chain
Ada, ada@example.com ,100.50,ethereum
Bob,bob@example.com,75.25,base") as [rows|e] eqn:Hrun; [|vm_compute in Hrun; done].
  destruct (parseCSV_cells _ rows Hrun) as [Hlen Hrows].
  destruct rows as [|row0 [|row1 [|row2 rows]]]; try (vm_compute in Hlen; done).
  exists row0, row1. split; [done|].
  destruct (Hrows 0%nat row0 eq_refl) as (line0 & Hl0 & _ & Hc0).
  destruct (Hrows 1%nat row1 eq_refl) as (line1 & Hl1 & _ & Hc1).
  vm_compute in Hl0, Hl1. injection Hl0 as <-. injection Hl1 as <-.
  assert (Hnd : NoDup (map trim (split 44 "name,email,amount,chain"))).
  { apply (bool_decide_unpack _). by vm_compute. }
  split.
  - rewrite (Hc0 Hnd 1%nat "email"); [by vm_compute|by vm_compute|done].
  - rewrite (Hc1 Hnd 2%nat "amount"); [by vm_compute|by vm_compute|done].
Defined.

(** ** retry *)


End UtilsFacts.

(* ===================================================================== *)
(** * Whole numbers as doubles                                             *)
(* ===================================================================== *)

Module IntFacts.
Import JsNum JsText JsInt.
Local Open Scope Q_scope.

Lemma round_half_even_proper m1 m2 : m1 == m2 -> round_half_even m1 = round_half_even m2.
Proof.
  intros H. unfold round_half_even.
  assert (Hf : Qfloor m1 = Qfloor m2) by (by apply Qfloor_comp).
  assert (Hc : Qcompare (m1 - inject_Z (Qfloor m1)) (1 # 2)
               = Qcompare (m2 - inject_Z (Qfloor m2)) (1 # 2)).
  { rewrite Hf. apply Qcompare_comp; [by rewrite H|reflexivity]. }
  cbv zeta. rewrite Hc, Hf. reflexivity.
Qed.

Lemma round_half_even_int (m : Z) : round_half_even (inject_Z m) = m.
Proof.
  unfold round_half_even. cbv zeta. rewrite Qfloor_Z.
  assert (H : Qcompare (inject_Z m - inject_Z m) (1 # 2) = Lt).
  { rewrite <- Qlt_alt. assert (E : inject_Z m - inject_Z m == 0) by ring.
    rewrite E. reflexivity. }
  by rewrite H.
Qed.

Lemma ilog2_unique q e : 0 < q -> 2 ^ e <= q -> q < 2 ^ (e + 1) -> ilog2 q = e.
Proof.
  intros Hq Hlo Hhi. destruct (JsNumFacts.ilog2_spec q Hq) as [Hlo' Hhi'].
  assert (ilog2 q < e + 1)%Z.
  { apply JsNumFacts.pow2_lt_inv. eapply Qle_lt_trans; eauto. }
  assert (e < ilog2 q + 1)%Z.
  { apply JsNumFacts.pow2_lt_inv. eapply Qle_lt_trans; eauto. }
  lia.
Qed.

Lemma ilog2_proper q1 q2 : 0 < q1 -> q1 == q2 -> ilog2 q1 = ilog2 q2.
Proof.
  intros Hq E. assert (Hq2 : 0 < q2) by (by rewrite <- E).
  destruct (JsNumFacts.ilog2_spec q2 Hq2) as [Hlo Hhi].
  apply ilog2_unique; [done| |]; by rewrite E.
Qed.

Lemma rnd_pos_proper q1 q2 : 0 < q1 -> q1 == q2 -> rnd_pos q1 = rnd_pos q2.
Proof.
  intros Hq E. unfold rnd_pos, ulp. rewrite (ilog2_proper q1 q2 Hq E).
  set (u := 2 ^ (Z.max (ilog2 q2) (-1022) - 52)).
  assert (Em : q1 / u == q2 / u) by (by rewrite E).
  by rewrite (round_half_even_proper _ _ Em).
Qed.

(** Rounding does not depend on how a rational is written. *)
Lemma rnd_proper q1 q2 : q1 == q2 -> rnd q1 = rnd q2.
Proof.
  intros E. unfold rnd.
  assert (Ec : Qcompare q1 0 = Qcompare q2 0) by (by rewrite E).
  rewrite <- Ec. destruct (Qcompare q1 0) eqn:Hc; [done| |].
  - f_equal. apply rnd_pos_proper; [|by rewrite E].
    apply Qlt_alt in Hc. lra.
  - apply rnd_pos_proper; [|done]. by apply Qgt_alt in Hc.
Qed.

Lemma of_Q_proper q1 q2 : q1 == q2 -> of_Q q1 = of_Q q2.
Proof. intros E. unfold of_Q. by rewrite (rnd_proper q1 q2 E). Qed.

Lemma Qred_inject_Z n : Qred (inject_Z n) = inject_Z n.
Proof.
  unfold Qred, inject_Z.
  pose proof (Z.ggcd_gcd n 1) as Hg. pose proof (Z.ggcd_correct_divisors n 1) as Hd.
  destruct (Z.ggcd n 1) as [g [aa bb]]. simpl in *. destruct Hd as [Ha Hb].
  rewrite Z.gcd_1_r in Hg. subst g. rewrite Z.mul_1_l in Ha, Hb. by subst.
Qed.

Lemma Qdiv_by_inverse a u v : u * v == 1 -> a / u == a * v.
Proof.
  intros H.
  assert (Hu : ~ u == 0).
  { intros E. rewrite E, Qmult_0_l in H. discriminate. }
  apply (Qmult_inj_r _ _ u Hu).
  assert (E1 : a / u * u == a) by (field; done).
  rewrite E1, <- Qmult_assoc, (Qmult_comm v u), H. ring.
Qed.

Lemma inject_Z_lt_pow2 n k : (0 <= k)%Z -> (n < 2 ^ k)%Z -> inject_Z n < 2 ^ k.
Proof.
  intros Hk Hn. rewrite <- (JsNumFacts.pow2_inject k Hk). by rewrite <- Zlt_Qlt.
Qed.

Lemma inject_Z_ge_pow2 n k : (0 <= k)%Z -> (2 ^ k <= n)%Z -> 2 ^ k <= inject_Z n.
Proof.
  intros Hk Hn. rewrite <- (JsNumFacts.pow2_inject k Hk). by rewrite <- Zle_Qle.
Qed.

(** A whole number below [2^53] is a double. *)
Lemma rnd_whole (n : Z) : (0 <= n < 2 ^ 53)%Z -> rnd (inject_Z n) = inject_Z n.
Proof.
  intros [H0 H53]. destruct (decide (n = 0%Z)) as [->|Hne]; [reflexivity|].
  assert (Hq : 0 < inject_Z n).
  { change 0 with (inject_Z 0). rewrite <- Zlt_Qlt. lia. }
  unfold rnd. apply Qgt_alt in Hq as Hc. rewrite Hc.
  set (e := Z.log2 n).
  assert (He : (0 <= e <= 52)%Z).
  { subst e. split; [apply Z.log2_nonneg|].
    assert (Z.log2 n < 53)%Z by (apply Z.log2_lt_pow2; lia). lia. }
  assert (Hspec : (2 ^ e <= n < 2 ^ (e + 1))%Z).
  { subst e. pose proof (Z.log2_spec n ltac:(lia)) as H.
    replace (Z.log2 n + 1)%Z with (Z.succ (Z.log2 n)) by lia. exact H. }
  assert (Hi : ilog2 (inject_Z n) = e).
  { apply ilog2_unique; [done| |].
    - apply inject_Z_ge_pow2; lia.
    - apply inject_Z_lt_pow2; lia. }
  unfold rnd_pos, ulp. rewrite Hi, Z.max_l by lia.
  assert (Hu : 2 ^ (e - 52) * inject_Z (2 ^ (52 - e)) == 1).
  { rewrite (JsNumFacts.pow2_inject (52 - e)) by lia.
    rewrite <- JsNumFacts.pow2_plus. replace (e - 52 + (52 - e))%Z with 0%Z by lia.
    reflexivity. }
  pose proof (JsNumFacts.pow2_pos (e - 52)) as Hup.
  assert (Em : inject_Z n / 2 ^ (e - 52) == inject_Z (n * 2 ^ (52 - e))).
  { rewrite inject_Z_mult. by apply Qdiv_by_inverse. }
  rewrite (round_half_even_proper _ _ Em), round_half_even_int.
  rewrite <- (Qred_inject_Z n). apply Qred_complete.
  rewrite inject_Z_mult, <- Qmult_assoc, (Qmult_comm _ (2 ^ (e - 52))), Hu. ring.
Qed.

Lemma of_Q_whole (n : Z) : (0 <= n < 2 ^ 53)%Z -> of_Q (inject_Z n) = Fin (inject_Z n).
Proof.
  intros Hn. rewrite (JsNumFacts.of_Q_finite _ 53).
  - by rewrite rnd_whole.
  - apply JsNumFacts.inject_Z_nonneg. lia.
  - apply inject_Z_lt_pow2; lia.
  - lia.
Qed.

Lemma Qceiling_unique x (k : Z) : inject_Z k - 1 < x -> x <= inject_Z k -> Qceiling x = k.
Proof.
  intros Hlo Hhi. unfold Qceiling.
  rewrite (JsNumFacts.Qfloor_unique (- x) (- k)); [lia| |].
  - rewrite inject_Z_opp. lra.
  - rewrite inject_Z_opp. lra.
Qed.

(** The error of rounding a positive rational is at most [2^-53] of it. *)
Lemma rnd_relative_error q :
  2 ^ (-1021) <= q ->
  q - q * 2 ^ (-53) <= rnd q /\ rnd q <= q + q * 2 ^ (-53).
Proof.
  intros Hq.
  assert (Hq0 : 0 < q).
  { eapply Qlt_le_trans; [apply (JsNumFacts.pow2_pos (-1021))|done]. }
  destruct (JsNumFacts.ilog2_spec q Hq0) as [Hlo Hhi].
  assert (He : (-1022 <= ilog2 q)%Z).
  { assert (H : (-1021 < ilog2 q + 1)%Z).
    { apply JsNumFacts.pow2_lt_inv. eapply Qle_lt_trans; eauto. }
    lia. }
  destruct (JsNumFacts.rnd_error q (ilog2 q + 1) ltac:(lra) Hhi ltac:(lia))
    as (_ & H1 & H2).
  replace (ilog2 q + 1 - 54)%Z with (ilog2 q + -53)%Z in H1, H2 by lia.
  rewrite JsNumFacts.pow2_plus in H1, H2.
  pose proof (JsNumFacts.pow2_pos (-53)) as H53.
  assert (Hb : 2 ^ ilog2 q * 2 ^ (-53) <= q * 2 ^ (-53)).
  { apply Qmult_le_compat_r; [done|lra]. }
  split; lra.
Qed.

(** [Math.ceil(total / limit)] is the whole number of pages. *)
Lemma ceil_div_whole (t l : Z) :
  (0 <= t < 2 ^ 53)%Z -> (1 <= l < 2 ^ 53)%Z ->
  js_ceil (js_div (of_bigint t) (Fin (inject_Z l))) = Fin (inject_Z ((t + l - 1) / l)).
Proof.
  intros Ht Hl. unfold of_bigint. rewrite of_Q_whole by done. unfold js_div, Qsign.
  assert (Hl0 : 0 < inject_Z l).
  { change 0 with (inject_Z 0). rewrite <- Zlt_Qlt. lia. }
  apply Qgt_alt in Hl0 as Hc. rewrite Hc.
  set (k := ((t + l - 1) / l)%Z).
  assert (Hk : (l * (k - 1) < t <= l * k)%Z).
  { subst k. pose proof (Z.div_mod (t + l - 1) l ltac:(lia)) as Hdm.
    pose proof (Z.mod_pos_bound (t + l - 1) l ltac:(lia)) as Hmod. nia. }
  set (q := inject_Z t / inject_Z l).
  assert (Hinv : inject_Z l * / inject_Z l == 1) by (apply Qmult_inv_r; lra).
  assert (Hinv0 : 0 < / inject_Z l) by (by apply Qinv_lt_0_compat).
  assert (Eq : q == inject_Z t * / inject_Z l) by reflexivity.
  assert (Hqt : q <= inject_Z t).
  { rewrite Eq.
    assert (H1 : 1 <= inject_Z l).
    { change 1 with (inject_Z 1). rewrite <- Zle_Qle. lia. }
    assert (Ht0 : 0 <= inject_Z t) by (apply JsNumFacts.inject_Z_nonneg; lia).
    assert (/ inject_Z l <= 1).
    { apply Qle_shift_inv_r; lra. }
    nra. }
  assert (Hfin : of_Q q = Fin (rnd q)).
  { apply (JsNumFacts.of_Q_finite _ 53); [| |lia].
    - rewrite Eq. apply Qmult_le_0_compat; [|lra].
      apply JsNumFacts.inject_Z_nonneg. lia.
    - eapply Qle_lt_trans; [exact Hqt|]. apply inject_Z_lt_pow2; lia. }
  rewrite Hfin. simpl. f_equal. f_equal.
  destruct (decide (t = l * k)%Z) as [Et|Hne].
  - assert (Eqk : q == inject_Z k).
    { rewrite Eq, Et, inject_Z_mult. rewrite (Qmult_comm (inject_Z l)), <- Qmult_assoc, Hinv.
      ring. }
    rewrite (rnd_proper _ _ Eqk), rnd_whole by nia. apply Qceiling_Z.
  - assert (Hlo : (l * k + 1 <= t + l)%Z) by lia.
    assert (Hhi : (t + 1 <= l * k)%Z) by lia.
    assert (Hk1 : (1 <= k)%Z) by nia.
    rewrite Zle_Qle in Hlo, Hhi, Hk1.
    rewrite !inject_Z_plus, !inject_Z_mult in Hlo.
    rewrite !inject_Z_plus, !inject_Z_mult in Hhi.
    change (inject_Z 1) with 1 in Hlo, Hhi, Hk1.
    set (L := inject_Z l) in *. set (T := inject_Z t) in *. set (K := inject_Z k) in *.
    set (i := / L) in *.
    assert (Hq1 : K - 1 + i <= q).
    { rewrite Eq. assert (E : (L * K + 1 - L) * i == K - 1 + i).
      { transitivity ((L * i) * (K - 1) + i); [ring|]. rewrite Hinv. ring. }
      assert ((L * K + 1 - L) * i <= T * i) by (apply Qmult_le_compat_r; lra). lra. }
    assert (Hq2 : q <= K - i).
    { rewrite Eq. assert (E : (L * K - 1) * i == K - i).
      { transitivity ((L * i) * K - i); [ring|]. rewrite Hinv. ring. }
      assert (T * i <= (L * K - 1) * i) by (apply Qmult_le_compat_r; lra). lra. }
    assert (T53 : T < 2 ^ 53) by (apply inject_Z_lt_pow2; lia).
    assert (Herr : q * 2 ^ (-53) < i).
    { rewrite Eq. assert (E : 2 ^ 53 * 2 ^ (-53) == 1) by reflexivity.
      pose proof (JsNumFacts.pow2_pos (-53)) as Hp.
      assert (T * 2 ^ (-53) < 1).
      { assert (T * 2 ^ (-53) < 2 ^ 53 * 2 ^ (-53)) by (apply Qmult_lt_compat_r; lra).
        lra. }
      assert (T * i * 2 ^ (-53) == (T * 2 ^ (-53)) * i) by ring.
      assert ((T * 2 ^ (-53)) * i < 1 * i) by (apply Qmult_lt_compat_r; lra).
      lra. }
    assert (Hqmin : 2 ^ (-1021) <= q).
    { assert (Hi : 2 ^ (-53) <= i).
      { subst i. assert (L < 2 ^ 53) by (apply inject_Z_lt_pow2; lia).
        assert (E : / 2 ^ 53 == 2 ^ (-53)) by reflexivity. rewrite <- E.
        apply Qle_shift_inv_l; [done|].
        assert (E1 : / 2 ^ 53 * L == L / 2 ^ 53) by (field; discriminate).
        rewrite E1. apply Qle_shift_div_r; [reflexivity|]. lra. }
      assert (E : 2 ^ (-1021) <= 2 ^ (-53)) by (apply JsNumFacts.pow2_le; lia).
      lra. }
    destruct (rnd_relative_error q Hqmin) as [H1 H2].
    apply Qceiling_unique; fold K; lra.
Qed.

End IntFacts.

(* ===================================================================== *)
(** * Properties of the reading operations                                 *)
(* ===================================================================== *)

Module ListingFacts.
Import JsNum Ledger Payroll JsText JsInt Listing.
Import PayrollFacts IntFacts.

(** ** Pages *)

Lemma asCount_whole (n : nat) : (Z.of_nat n < 2 ^ 31)%Z -> asCount (whole n) = Some n.
Proof.
  intros Hn. unfold asCount, whole, isInteger. rewrite Qfloor_Z.
  rewrite (proj2 (Qeq_bool_iff _ _)) by reflexivity.
  rewrite (proj2 (Qle_bool_iff 0 _)) by (apply JsNumFacts.inject_Z_nonneg; lia).
  assert (H : Qle_bool (2 ^ 31) (inject_Z (Z.of_nat n)) = false).
  { destruct (Qle_bool _ _) eqn:E; [|done]. apply Qle_bool_iff in E.
    pose proof (inject_Z_lt_pow2 (Z.of_nat n) 31 ltac:(lia) Hn) as H.
    exfalso. apply (Qlt_irrefl (2 ^ 31)). eapply Qle_lt_trans; eauto. }
  rewrite H. simpl. by rewrite Nat2Z.id.
Qed.

Lemma skip_whole (page limit : nat) :
  (1 <= page)%nat -> (Z.of_nat page < 2 ^ 53)%Z ->
  (Z.of_nat ((page - 1) * limit) < 2 ^ 53)%Z ->
  js_mul (js_sub (whole page) (Fin 1)) (whole limit) = whole ((page - 1) * limit).
Proof.
  intros Hp Hp53 Hs. unfold js_sub, js_neg, whole. simpl.
  assert (E1 : (inject_Z (Z.of_nat page) + Qopp 1 == inject_Z (Z.of_nat (page - 1)))%Q).
  { rewrite Nat2Z.inj_sub by done. unfold Z.sub. rewrite inject_Z_plus, inject_Z_opp.
    reflexivity. }
  rewrite (of_Q_proper _ _ E1), of_Q_whole by lia. simpl.
  assert (E2 : (inject_Z (Z.of_nat (page - 1)) * inject_Z (Z.of_nat limit)
                == inject_Z (Z.of_nat ((page - 1) * limit)))%Q).
  { by rewrite Nat2Z.inj_mul, inject_Z_mult. }
  rewrite (of_Q_proper _ _ E2), of_Q_whole; [done|].
  split; [apply Nat2Z.is_nonneg|exact Hs].
Qed.

Lemma ceilDiv_Z (t l : nat) :
  (1 <= l)%nat ->
  Z.of_nat (ceilDiv t l) = ((Z.of_nat t + Z.of_nat l - 1) / Z.of_nat l)%Z.
Proof.
  intros Hl. unfold ceilDiv. rewrite Nat2Z.inj_div, Nat2Z.inj_sub, Nat2Z.inj_add by lia.
  done.
Qed.

Lemma ceilDiv_covers (t l : nat) : (1 <= l)%nat -> (t <= ceilDiv t l * l)%nat.
Proof.
  intros Hl. unfold ceilDiv.
  pose proof (Nat.div_mod_eq (t + l - 1) l) as E.
  pose proof (Nat.mod_upper_bound (t + l - 1) l ltac:(lia)) as Hm. nia.
Qed.

Lemma ceilDiv_tight (t l : nat) : (1 <= l)%nat -> ((ceilDiv t l - 1) * l <= t)%nat.
Proof.
  intros Hl. unfold ceilDiv.
  pose proof (Nat.div_mod_eq (t + l - 1) l) as E.
  pose proof (Nat.mod_upper_bound (t + l - 1) l ltac:(lia)) as Hm. nia.
Qed.

(** The answer to a request for a page, in full. *)
Lemma getPayrollRuns_whole P admin (page limit : nat) w :
  (1 <= page)%nat -> (1 <= limit)%nat ->
  (Z.of_nat page < 2 ^ 31)%Z -> (Z.of_nat limit < 2 ^ 31)%Z ->
  (Z.of_nat ((page - 1) * limit) < 2 ^ 31)%Z ->
  (Z.of_nat (length (runsOf admin (db w))) < 2 ^ 53)%Z ->
  getPayrollRuns P admin (Some (whole page)) (Some (whole limit)) w
  = (inl (mkRunListing
            (map (summarize (db w))
               (take limit (drop ((page - 1) * limit)
                              (newestFirst P (runsOf admin (db w))))))
            (whole page) (whole limit) (length (runsOf admin (db w)))
            (whole (ceilDiv (length (runsOf admin (db w))) limit))),
     w).
Proof.
  intros Hp Hl Hp31 Hl31 Hs Ht. unfold getPayrollRuns. unfold_m. cbn [from_option id].
  rewrite skip_whole by lia. unfold findManyRuns.
  rewrite !asCount_whole by lia.
  unfold of_nat. change (whole limit) with (Fin (inject_Z (Z.of_nat limit))).
  rewrite ceil_div_whole by lia. rewrite <- ceilDiv_Z by done. reflexivity.
Qed.

(** X8.  For a page and a limit of at least 1, getPayrollRuns returns the
    runs of the admin from position [(page - 1) limit] on, at most
    [limit] of them, in the order of the database, together with the
    number of runs of the admin and the number of pages,
    [ceil(total / limit)], computed without rounding error; it writes
    nothing. *)
Theorem getPayrollRuns_page P admin (page limit : nat) w :
  (1 <= page)%nat -> (1 <= limit)%nat ->
  (Z.of_nat page < 2 ^ 31)%Z -> (Z.of_nat limit < 2 ^ 31)%Z ->
  (Z.of_nat ((page - 1) * limit) < 2 ^ 31)%Z ->
  (Z.of_nat (length (runsOf admin (db w))) < 2 ^ 53)%Z ->
  getPayrollRuns P admin (Some (whole page)) (Some (whole limit)) w
  = (inl (mkRunListing
            (map (summarize (db w))
               (take limit (drop ((page - 1) * limit)
                              (newestFirst P (runsOf admin (db w))))))
            (whole page) (whole limit) (length (runsOf admin (db w)))
            (whole (ceilDiv (length (runsOf admin (db w))) limit))),
     w).
Proof.
  intros Hp Hl Hp31 Hl31 Hs Ht. unfold getPayrollRuns. unfold_m. cbn [from_option id].
  rewrite skip_whole by lia. unfold findManyRuns.
  rewrite !asCount_whole by lia.
  unfold of_nat. change (whole limit) with (Fin (inject_Z (Z.of_nat limit))).
  rewrite ceil_div_whole by lia. rewrite <- ceilDiv_Z by done. reflexivity.
Qed.

(** The second page of three runs, two to a page. *)
Lemma getPayrollRuns_page_witness :
  let P := mkPrisma reverse (fun _ _ _ => inr Thrown) in
  let run := mkPayrollRun "admin-1" RUN_PENDING (Fixed6 false 0) 0 None in
  let w := mkWorld (mkStore [] [run; run; run] [] [] [] [] []) [] in
  exists result,
    getPayrollRuns P "admin-1" (Some (whole 2)) (Some (whole 2)) w = (inl result, w)
    /\ map summary_id (listing_runs result) = [0%nat]
    /\ listing_total result = 3%nat
    /\ listing_pages result = whole 2.
Proof.
  intros P run w. eexists. split.
  - apply (getPayrollRuns_page P "admin-1" 2 2 w); simpl; lia.
  - split; [reflexivity|]. split; reflexivity.
Defined.

Lemma concat_pages {A} (rows : list A) (limit n : nat) :
  concat (map (fun page => take limit (drop ((page - 1) * limit) rows)) (seq 1 n))
  = take (n * limit) rows.
Proof.
  induction n as [|n IH]; [done|].
  rewrite seq_S, map_app, concat_app, IH. simpl. rewrite app_nil_r.
  replace (n - 0)%nat with n by lia.
  rewrite take_take_drop. f_equal. lia.
Qed.

(** X9.  Reading the pages 1, 2, ... up to the number of pages that
    getPayrollRuns reports gives every run of the admin exactly as the
    database orders them, none twice and none left out, as long as the
    store does not change in between; the pages after the last one are
    empty. *)
Theorem pages_partition P admin (limit : nat) w :
  (1 <= limit)%nat ->
  (Z.of_nat (length (runsOf admin (db w)) + limit) < 2 ^ 31)%Z ->
  length (newestFirst P (runsOf admin (db w))) = length (runsOf admin (db w)) ->
  let pages := ceilDiv (length (runsOf admin (db w))) limit in
  concat (map (fun page => pageRuns P admin limit page w) (seq 1 pages))
  = map (summarize (db w)) (newestFirst P (runsOf admin (db w)))
  /\ forall page, (pages < page)%nat -> (Z.of_nat (page * limit) < 2 ^ 31)%Z ->
       pageRuns P admin limit page w = [].
Proof.
  intros Hl Hbound Hlen pages.
  set (rows := newestFirst P (runsOf admin (db w))) in *.
  set (total := length (runsOf admin (db w))) in *.
  pose proof (ceilDiv_covers total limit Hl) as Hcov.
  pose proof (ceilDiv_tight total limit Hl) as Htight.
  assert (Hpage : forall page, (1 <= page)%nat -> (Z.of_nat ((page - 1) * limit) < 2 ^ 31)%Z ->
            (Z.of_nat page < 2 ^ 31)%Z ->
            pageRuns P admin limit page w
            = map (summarize (db w)) (take limit (drop ((page - 1) * limit) rows))).
  { intros page Hp Hs Hp31. unfold pageRuns.
    rewrite getPayrollRuns_whole; [done|done|done|done|lia|done|fold total; lia]. }
  split.
  - transitivity (concat (map (fun page => map (summarize (db w))
                                 (take limit (drop ((page - 1) * limit) rows)))
                            (seq 1 pages))).
    { f_equal. apply map_ext_in. intros page Hin. apply in_seq in Hin.
      apply Hpage; [lia| |]; nia. }
    rewrite <- (map_map (fun page => take limit (drop ((page - 1) * limit) rows))
                  (map (summarize (db w)))).
    rewrite <- concat_map, concat_pages. f_equal. apply take_ge. lia.
  - intros page Hlt Hs. rewrite Hpage; [|lia|nia|nia].
    rewrite drop_ge; [by rewrite take_nil|]. nia.
Qed.

(** Five runs read three to a page: two pages. *)
Lemma pages_partition_witness :
  let P := mkPrisma reverse (fun _ _ _ => inr Thrown) in
  let run := mkPayrollRun "admin-1" RUN_PENDING (Fixed6 false 0) 0 None in
  let w := mkWorld (mkStore [] [run; run; run; run; run] [] [] [] [] []) [] in
  map summary_id (concat (map (fun page => pageRuns P "admin-1" 3 page w) (seq 1 2)))
  = [4; 3; 2; 1; 0]%nat.
Proof.
  intros P run w.
  destruct (pages_partition P "admin-1" 3 w) as [Hall _].
  { lia. }
  { simpl. lia. }
  { reflexivity. }
  change (ceilDiv (length (runsOf "admin-1" (db w))) 3) with 2%nat in Hall.
  rewrite Hall. reflexivity.
Defined.

(** ** GET /api/payroll/runs *)

(** X10.  A request without [page] and [limit], or with values that parseInt
    reads as NaN or as zero ("abc", "", "0"), is answered with the first
    page of ten: the ten newest runs of the admin. *)
Theorem getRuns_defaults P adminHeader pageQuery limitQuery w :
  falsy (parseIntQuery pageQuery) = true ->
  falsy (parseIntQuery limitQuery) = true ->
  (Z.of_nat (length (runsOf (default "admin-1" (truthy_value adminHeader)) (db w)))
   < 2 ^ 53)%Z ->
  let admin := default "admin-1" (truthy_value adminHeader) in
  getRuns P adminHeader pageQuery limitQuery w
  = (Success 200
       (mkRunListing
          (map (summarize (db w)) (take 10 (newestFirst P (runsOf admin (db w)))))
          (Fin 1) (Fin 10) (length (runsOf admin (db w)))
          (whole (ceilDiv (length (runsOf admin (db w))) 10))) None,
     w).
Proof.
  intros Hp Hl Ht admin. unfold getRuns, js_or. rewrite Hp, Hl. fold admin.
  change (Fin 1) with (whole 1). change (Fin 10) with (whole 10).
  rewrite getPayrollRuns_whole; [done|lia|lia|simpl; lia|simpl; lia|simpl; lia|done].
Qed.

(** [?page=0&limit=abc] on a store of one run. *)
Lemma getRuns_defaults_witness :
  let P := mkPrisma reverse (fun _ _ _ => inr Thrown) in
  exists result,
    fst (getRuns P None (Some "0") (Some "abc") Samples.sampleWorld)
    = Success 200 result None
    /\ listing_page result = Fin 1
    /\ listing_limit result = Fin 10
    /\ map summary_id (listing_runs result) = [0%nat].
Proof.
  intros P. eexists. split.
  - rewrite (getRuns_defaults P None (Some "0") (Some "abc") Samples.sampleWorld);
      [reflexivity|reflexivity|reflexivity|simpl; lia].
  - split; [reflexivity|]. split; reflexivity.
Defined.

(** ** GET /api/payroll/runs/:id *)

Lemma viewItem_fst li : fst (fst (viewItem li)) = loadedId li /\ snd (fst (viewItem li)) = snd (fst li).
Proof. by destruct li as [[id item] worker]. Qed.

(** X11.  Reading a run changes no row.  For a run of the store the answer is
    200 with the run and exactly the items that point to it; for any
    other key it is 404, the not-found error of the service being told
    apart by its message. *)
Theorem getRun_reads runId w :
  db (snd (getRun runId w)) = db w
  /\ match payrollRuns (db w) !! runId with
     | Some run =>
         exists items,
           getRun runId w = (Success 200 (mkRunDetails runId run items) None, w)
           /\ forall id item,
                (exists view, (id, item, view) ∈ items)
                <-> payrollItems (db w) !! id = Some item /\ payrollRunId item = runId
     | None =>
         fst (getRun runId w) = Failed 404 "Payroll run not found" "PAYROLL_RUN_NOT_FOUND"
     end.
Proof.
  unfold getRun, getPayrollRun. unfold_m.
  destruct (payrollRuns (db w) !! runId) as [run|] eqn:Hrun; simpl.
  - split; [done|]. eexists. split; [reflexivity|].
    intros id item. split.
    + intros (view & Hin). apply list_elem_of_fmap in Hin as (li & E & Hli).
      destruct li as [[id' it'] wk'].
      apply loadItems_elem in Hli as (item' & Hitem & Hr & Eli).
      unfold loadedId in *. simpl in *. injection Eli as -> _.
      injection E as -> -> _. done.
    + intros [Hitem Hr].
      pose proof (loadFrom_complete runId (db w) 0 (payrollItems (db w)) id item Hitem Hr)
        as Hin.
      eexists. apply list_elem_of_fmap. eexists. split; [|exact Hin]. reflexivity.
  - split; reflexivity.
Qed.

(** ** POST /api/payroll/runs/:id/execute *)

(** X12.  The execute endpoint answers 200 "processing" for every key that
    passes the check of the schema, whatever the state of the run.  When
    no such run exists nothing is written; when the run is not PENDING
    (an executed run, say) no item is touched and nothing is paid, but
    the run is left FAILED. *)
Theorem postExecute_always_accepts env isUuid runId w :
  isUuid runId = true ->
  fst (postExecute env isUuid runId w)
  = Success 200 (mkExecuteStarted runId "processing") (Some "Payroll run execution started")
  /\ (payrollRuns (db w) !! runId = None ->
      db (snd (postExecute env isUuid runId w)) = db w)
  /\ (forall run,
        payrollRuns (db w) !! runId = Some run -> run_status run <> RUN_PENDING ->
        payrollRuns (db (snd (postExecute env isUuid runId w))) !! runId
        = Some (run_set_status RUN_FAILED run)
        /\ payrollItems (db (snd (postExecute env isUuid runId w))) = payrollItems (db w)
        /\ filter (fun e => is_payment_call e = true)
             (trace (snd (postExecute env isUuid runId w)))
           = filter (fun e => is_payment_call e = true) (trace w)).
Proof.
  intros Hid. unfold postExecute. rewrite Hid. split; [done|]. split.
  - intros Hnone. by rewrite (execute_not_found env w runId Hnone).
  - intros run Hrun Hst. rewrite (execute_not_pending env w runId run Hrun Hst). simpl.
    split. { by rewrite list_lookup_alter_eq, Hrun. }
    split; [done|]. rewrite <- app_assoc, filter_app. simpl. by rewrite app_nil_r.
Qed.

(** Executing the completed sample run again: 200, and the run is FAILED. *)
Lemma postExecute_always_accepts_witness :
  fst (postExecute Samples.happyEnv (fun _ => true) 0 Samples.paidWorld)
  = Success 200 (mkExecuteStarted 0 "processing") (Some "Payroll run execution started")
  /\ run_status <$> payrollRuns (db Samples.paidWorld) !! 0%nat = Some RUN_COMPLETED
  /\ run_status
       <$> payrollRuns (db (snd (postExecute Samples.happyEnv (fun _ => true) 0
                                   Samples.paidWorld))) !! 0%nat
     = Some RUN_FAILED.
Proof.
  destruct (postExecute_always_accepts Samples.happyEnv (fun _ => true) 0
              Samples.paidWorld eq_refl) as (Hreply & _ & Hrun).
  destruct (Hrun _ eq_refl ltac:(done)) as (Hafter & _).
  split; [exact Hreply|]. split; [reflexivity|]. by rewrite Hafter.
Defined.

End ListingFacts.

(* ===================================================================== *)
(** * More properties of the webhook endpoints                             *)
(* ===================================================================== *)

Module NotificationFacts.
Import JsNum Ledger Payroll Webhooks.
Import PayrollFacts.

Lemma verifyWebhookSignature_accepts env payload w :
  verifyWebhookSignature env payload (Some ("sha256=" +:+ hmac_sha256_hex env payload)) w
  = (inl true, w).
Proof.
  unfold verifyWebhookSignature. unfold_m.
  rewrite decide_True by done. by rewrite bool_decide_eq_true_2.
Qed.

(** A request that carries the signature of its body goes on to the
    handler of its event type. *)
Lemma postCircle_signed env body w :
  postCircle env
    (mkCircleRequest (Some ("sha256=" +:+ hmac_sha256_hex env (json_stringify env body)))
       body) w
  = respond
      (do! match body_eventType body with
           | Some "payouts.completed" => handlePayoutCompleted env (body_data body)
           | Some "payouts.failed" => handlePayoutFailed env (body_data body)
           | Some "transfers.completed" => handleTransferCompleted env (body_data body)
           | Some "transfers.failed" => handleTransferFailed env (body_data body)
           | _ => ret tt
           end in
       ret (Success 200 received None))
      (fun r => r)
      (Failed 500 "Failed to process webhook" "WEBHOOK_PROCESSING_ERROR")
      "Failed to process Circle webhook" w.
Proof.
  unfold postCircle, respond. cbn [circle_signature circle_body].
  unfold bind at 1. by rewrite verifyWebhookSignature_accepts.
Qed.

Lemma updatePayoutStatus_match env p reported tx w id item :
  list_find (fun i => payoutId i = Some p) (payrollItems (db w)) = Some (id, item) ->
  updatePayoutStatus env (Some p) reported tx w
  = (inl tt,
     with_db
       (fun s =>
          set_auditLogs
            (fun l => l ++ [mkAuditLog "PAYOUT_STATUS_UPDATED" "PayrollItem" id
                              (Some (workerId item)) (Some (payrollRunId item))
                              (PayoutStatusUpdated p (status item) (mapPayoutStatus reported)
                                 tx)])
            (set_payrollItems
               (alter (item_set_payout_status (mapPayoutStatus reported) tx
                         (clock env (trace w))) id) s)) w).
Proof.
  intros Hfind. unfold updatePayoutStatus, findItemByPayoutId. unfold_m.
  rewrite Hfind. reflexivity.
Qed.

Lemma updatePayoutStatus_no_match env p reported tx w :
  list_find (fun i => payoutId i = Some p) (payrollItems (db w)) = None ->
  db (snd (updatePayoutStatus env (Some p) reported tx w)) = db w.
Proof.
  intros Hfind. unfold updatePayoutStatus, findItemByPayoutId. unfold_m.
  rewrite Hfind. reflexivity.
Qed.

(** X13.  A signed [payouts.completed] notification that names a payout marks
    the first item with that payout id COMPLETED, stamps its completion
    time, stores the transaction hash it carries and appends one entry
    to the audit log; no other row changes, and the run of the item keeps
    its status.  When no item has that payout id the answer is still 200
    and nothing is written. *)
Theorem circle_webhook_completes_payout env body d p w :
  body_eventType body = Some "payouts.completed" ->
  body_data body = Some d ->
  data_id d = Some p ->
  let req :=
    mkCircleRequest (Some ("sha256=" +:+ hmac_sha256_hex env (json_stringify env body)))
      body in
  fst (postCircle env req w) = Success 200 received None
  /\ match list_find (fun i => payoutId i = Some p) (payrollItems (db w)) with
     | Some (id, item) =>
         db (snd (postCircle env req w))
         = set_auditLogs
             (fun l => l ++ [mkAuditLog "PAYOUT_STATUS_UPDATED" "PayrollItem" id
                               (Some (workerId item)) (Some (payrollRunId item))
                               (PayoutStatusUpdated p (status item) COMPLETED
                                  (data_transactionHash d))])
             (set_payrollItems
                (alter (fun i =>
                          mkPayrollItem (payrollRunId i) (workerId i) (amount i) (chain i)
                            COMPLETED (payoutId i)
                            (keep_or (data_transactionHash d) (transactionHash i))
                            (errorMessage i) (Some (clock env (trace w)))) id)
                (db w))
     | None => db (snd (postCircle env req w)) = db w
     end.
Proof.
  intros Het Hdata Hid req. subst req. rewrite postCircle_signed.
  rewrite Het, Hdata. unfold respond, handlePayoutCompleted. rewrite Hid.
  destruct (list_find _ _) as [[id item]|] eqn:Hfind.
  - unfold bind. rewrite (updatePayoutStatus_match _ _ _ _ _ _ _ Hfind).
    split; reflexivity.
  - unfold updatePayoutStatus, findItemByPayoutId. unfold_m. rewrite Hfind.
    split; reflexivity.
Qed.

(** The payout of the first item of the paid sample store is reported
    completed with its transaction hash. *)
Lemma circle_webhook_completes_payout_witness :
  let body :=
    mkCircleBody (Some "payouts.completed")
      (Some (mkCircleData (Some "po-1") (Some "0xfeed") None)) in
  let req := mkCircleRequest (Some "sha256=mac:{}") body in
  fst (postCircle Samples.happyEnv req Samples.paidWorld) = Success 200 received None
  /\ transactionHash
       <$> payrollItems (db (snd (postCircle Samples.happyEnv req Samples.paidWorld)))
           !! 0%nat
     = Some (Some "0xfeed")
  /\ length (auditLogs (db (snd (postCircle Samples.happyEnv req Samples.paidWorld))))
     = 1%nat.
Proof.
  intros body req.
  destruct (circle_webhook_completes_payout Samples.happyEnv body
              (mkCircleData (Some "po-1") (Some "0xfeed") None) "po-1" Samples.paidWorld
              eq_refl eq_refl eq_refl) as [Hreply Hdb].
  split; [exact Hreply|].
  change (list_find (fun i => payoutId i = Some "po-1") (payrollItems (db Samples.paidWorld)))
    with (Some (0%nat, mkPayrollItem 0 0 "10.50" "ETHEREUM" COMPLETED (Some "po-1") None None
                         (Some 3%Z))) in Hdb.
  change (mkCircleRequest
            (Some ("sha256=" +:+ hmac_sha256_hex Samples.happyEnv
                                   (json_stringify Samples.happyEnv body))) body)
    with req in Hdb.
  rewrite Hdb. split; reflexivity.
Defined.

(** X14.  A signed [payouts.failed] notification that carries no payout id is
    matched with the first payroll item of the store, whichever it is:
    that item becomes FAILED. *)
Theorem circle_webhook_without_id_hits_first_item env body d item w :
  body_eventType body = Some "payouts.failed" ->
  body_data body = Some d ->
  data_id d = None ->
  payrollItems (db w) !! 0%nat = Some item ->
  let req :=
    mkCircleRequest (Some ("sha256=" +:+ hmac_sha256_hex env (json_stringify env body)))
      body in
  fst (postCircle env req w) = Success 200 received None
  /\ payrollItems (db (snd (postCircle env req w))) !! 0%nat
     = Some (mkPayrollItem (payrollRunId item) (workerId item) (amount item) (chain item)
               FAILED (payoutId item) (transactionHash item) (errorMessage item)
               (completedAt item)).
Proof.
  intros Het Hdata Hid Hitem req. subst req. rewrite postCircle_signed.
  rewrite Het, Hdata. unfold respond, handlePayoutFailed. rewrite Hid.
  unfold updatePayoutStatus, findItemByPayoutId. unfold_m.
  destruct (payrollItems (db w)) as [|item0 rest] eqn:Hitems; [done|].
  injection Hitem as ->. simpl. rewrite Hitems. split; reflexivity.
Qed.

(** The completed item of the paid sample store is set to FAILED by a
    notification that names no payout. *)
Lemma circle_webhook_without_id_hits_first_item_witness :
  let body :=
    mkCircleBody (Some "payouts.failed") (Some (mkCircleData None None None)) in
  let req := mkCircleRequest (Some "sha256=mac:{}") body in
  status <$> payrollItems (db Samples.paidWorld) !! 0%nat = Some COMPLETED
  /\ status <$> payrollItems (db (snd (postCircle Samples.happyEnv req Samples.paidWorld)))
                !! 0%nat
     = Some FAILED.
Proof.
  intros body req. split; [reflexivity|].
  destruct (circle_webhook_without_id_hits_first_item Samples.happyEnv body
              (mkCircleData None None None) _ Samples.paidWorld
              eq_refl eq_refl eq_refl eq_refl) as [_ Hitem].
  change (mkCircleRequest
            (Some ("sha256=" +:+ hmac_sha256_hex Samples.happyEnv
                                   (json_stringify Samples.happyEnv body))) body)
    with req in Hitem.
  by rewrite Hitem.
Defined.

End NotificationFacts.

(* ===================================================================== *)
(** * What notifications and executions leave alone                        *)
(* ===================================================================== *)

Module FrameFacts.
Import JsNum Ledger Payroll Webhooks Frames.
Import PayrollFacts.

Lemma sameDue_refl x : sameDue x x.
Proof. by repeat split. Qed.

Lemma reconciles_refl s : reconciles s s.
Proof.
  repeat split; try done.
  apply Forall_Forall2_diag, Forall_forall. intros x _. split; [apply sameDue_refl|done].
Qed.

Lemma reconciles_item s f id logs :
  (forall x, sameDue x (f x) /\ payoutId (f x) = payoutId x) ->
  reconciles s (set_auditLogs (fun l => l ++ logs) (set_payrollItems (alter f id) s)).
Proof.
  intros Hf. repeat split; try done.
  - simpl. apply Forall2_alter_r.
    + apply Forall_Forall2_diag, Forall_forall. intros x _.
      split; [apply sameDue_refl|done].
    + intros x y Hx Hy _. rewrite Hx in Hy. injection Hy as <-. apply Hf.
  - simpl. by apply prefix_app_r.
Qed.

Lemma updatePayoutStatus_reconciles env pid reported tx w :
  reconciles (db w) (db (snd (updatePayoutStatus env pid reported tx w))).
Proof.
  unfold updatePayoutStatus. unfold_m.
  destruct (findItemByPayoutId pid (db w)) as [[id item]|]; simpl.
  - apply reconciles_item. intros x. by repeat split.
  - apply reconciles_refl.
Qed.

(** The handler an event type selects is one of five. *)
Lemma eventType_cases {A} (eventType : option string) (a b c d e : A) :
  let chosen :=
    match eventType with
    | Some "payouts.completed" => a
    | Some "payouts.failed" => b
    | Some "transfers.completed" => c
    | Some "transfers.failed" => d
    | _ => e
    end in
  chosen = a \/ chosen = b \/ chosen = c \/ chosen = d \/ chosen = e.
Proof.
  destruct eventType as [s|]; [|by do 4 right].
  repeat (destruct s as [|[[] [] [] [] [] [] [] []] s];
          try (by do 4 right); try (by left); try (by right; left);
          try (by do 2 right; left); try (by do 3 right; left)).
Qed.

Lemma respond_db {A} (m : M A) ok failure failureLog w :
  db (snd (respond m ok failure failureLog w)) = db (snd (m w)).
Proof. unfold respond. by destruct (m w) as [[a|e] w']. Qed.

Lemma bind_ret_db {A B} (m : M A) (b : B) w :
  db (snd ((do! m in ret b) w)) = db (snd (m w)).
Proof. unfold bind, ret. by destruct (m w) as [[a|e] w']. Qed.

(** What a handler of the Circle endpoint does to the store: nothing,
    or what the status report it passes on does. *)
Lemma circle_handlers_db env eventType data w :
  let handler :=
    match eventType with
    | Some "payouts.completed" => handlePayoutCompleted env data
    | Some "payouts.failed" => handlePayoutFailed env data
    | Some "transfers.completed" => handleTransferCompleted env data
    | Some "transfers.failed" => handleTransferFailed env data
    | _ => ret tt
    end in
  db (snd (handler w)) = db w
  \/ exists pid reported tx,
       (reported = "completed" \/ reported = "failed")
       /\ db (snd (handler w)) = db (snd (updatePayoutStatus env pid reported tx w)).
Proof.
  destruct (eventType_cases eventType (handlePayoutCompleted env data)
              (handlePayoutFailed env data) (handleTransferCompleted env data)
              (handleTransferFailed env data) (ret tt)) as [E|[E|[E|[E|E]]]];
    cbv zeta in E |- *; rewrite E; clear E.
  - unfold handlePayoutCompleted. destruct data as [d|]; [|by left].
    right. exists (data_id d), "completed", (data_transactionHash d). auto.
  - unfold handlePayoutFailed. destruct data as [d|]; [|by left].
    right. exists (data_id d), "failed", None. auto.
  - left. unfold handleTransferCompleted. unfold_m. by destruct data.
  - left. unfold handleTransferFailed. unfold_m. by destruct data.
  - by left.
Qed.

Lemma verifyWebhookSignature_world env payload signature w :
  exists valid w',
    verifyWebhookSignature env payload signature w = (inl valid, w')
    /\ db w' = db w
    /\ (valid = true -> w' = w).
Proof.
  unfold verifyWebhookSignature. unfold_m.
  destruct signature as [sig|]; [case_decide|]; eexists _, _; (split; [reflexivity|]);
    split; done.
Qed.

(** What a request to a webhook endpoint does to the store: nothing, or
    what a report of "completed" or "failed" does in the same world. *)
Lemma webhook_db env req w :
  db (snd (webhook env req w)) = db w
  \/ exists pid reported tx,
       (reported = "completed" \/ reported = "failed")
       /\ db (snd (webhook env req w)) = db (snd (updatePayoutStatus env pid reported tx w)).
Proof.
  destruct req as [r|sig b|sig b|sig b]; unfold webhook.
  - pose proof (circle_handlers_db env (body_eventType (circle_body r))
                  (body_data (circle_body r)) w) as Hhandler.
    cbv zeta in Hhandler.
    assert (Hcases : db (snd (postCircle env r w)) = db w
                     \/ db (snd (postCircle env r w))
                        = db (snd (match body_eventType (circle_body r) with
                                   | Some "payouts.completed" =>
                                       handlePayoutCompleted env (body_data (circle_body r))
                                   | Some "payouts.failed" =>
                                       handlePayoutFailed env (body_data (circle_body r))
                                   | Some "transfers.completed" =>
                                       handleTransferCompleted env (body_data (circle_body r))
                                   | Some "transfers.failed" =>
                                       handleTransferFailed env (body_data (circle_body r))
                                   | _ => ret tt
                                   end w))).
    { unfold postCircle. rewrite !respond_db.
      destruct (verifyWebhookSignature_world env (json_stringify env (circle_body r))
                  (circle_signature r) w) as (valid & w1 & Hv & Hdb & Hsame).
      destruct valid; [right|left]; unfold bind at 1; rewrite Hv; simpl.
      - rewrite (Hsame eq_refl). apply bind_ret_db.
      - exact Hdb. }
    destruct Hcases as [E|E]; rewrite E; [by left|exact Hhandler].
  - left. unfold postCctp. rewrite respond_db, bind_ret_db. unfold_m.
    by destruct (_ && _).
  - by left.
  - by left.
Qed.

(** X15.  Whatever a webhook endpoint is sent, signed or not, it creates
    and deletes no row but audit entries, writes no worker, no run (the
    status and the totals of a run are not touched when its items
    change), no transfer, no sponsored transaction and no paymaster
    operation, and leaves run, worker, amount, chain and payout id of
    every item as they are. *)
Theorem webhooks_reconcile env req w :
  reconciles (db w) (db (snd (webhook env req w))).
Proof.
  destruct (webhook_db env req w) as [E|(pid & reported & tx & _ & E)]; rewrite E.
  - apply reconciles_refl.
  - apply updatePayoutStatus_reconciles.
Qed.

End FrameFacts.

(* ===================================================================== *)
(** * More properties of the execution and the creation of runs            *)
(* ===================================================================== *)

Module ExecutionFacts.
Import JsNum Ledger Payroll Frames.
Import PayrollFacts CreateFacts FrameFacts.

Lemma sameDue_trans x y z : sameDue x y -> sameDue y z -> sameDue x z.
Proof.
  intros (? & ? & ? & ?) (? & ? & ? & ?). repeat split; congruence.
Qed.

Lemma sameDue_Forall2_refl l : Forall2 sameDue l l.
Proof. apply Forall_Forall2_diag, Forall_forall. intros x _. apply sameDue_refl. Qed.

Lemma writesItemsOnly_refl s : writesItemsOnly s s.
Proof. repeat split; try done. apply sameDue_Forall2_refl. Qed.

Lemma writesItemsOnly_trans s1 s2 s3 :
  writesItemsOnly s1 s2 -> writesItemsOnly s2 s3 -> writesItemsOnly s1 s3.
Proof.
  intros (? & ? & ? & ? & ? & ? & H12) (? & ? & ? & ? & ? & ? & H23).
  repeat split; try congruence.
  eapply Forall2_trans; [|exact H12|exact H23]. apply sameDue_trans.
Qed.

Lemma processItem_writesItemsOnly env li w :
  writesItemsOnly (db w) (db (snd (processItem env li w))).
Proof.
  destruct (processItem_spec env li w) as (r & w' & f & evs & Hrun & _ & Hdb & _ & Hf & _).
  rewrite Hrun. simpl. rewrite Hdb. repeat split; try done. simpl.
  apply Forall2_alter_r; [apply sameDue_Forall2_refl|].
  intros x y Hx Hy _. rewrite Hx in Hy. injection Hy as <-. apply Hf.
Qed.

Lemma processItems_writesItemsOnly env lis w :
  writesItemsOnly (db w) (db (snd (processItems env lis w))).
Proof.
  revert w. induction lis as [|li rest IH]; intros w; simpl.
  - apply writesItemsOnly_refl.
  - unfold bind.
    pose proof (processItem_writesItemsOnly env li w) as H1.
    destruct (processItem env li w) as [[r|e] w1]; simpl in *; [|done].
    pose proof (IH w1) as H2.
    destruct (processItems env rest w1) as [[rs|e] w2]; simpl in *;
      by eapply writesItemsOnly_trans.
Qed.

Lemma sameOrder_refl r : sameOrder r r.
Proof. by repeat split. Qed.

Lemma sameOrder_alter f runId (runs : list PayrollRun) :
  (forall r, sameOrder r (f r)) -> Forall2 sameOrder runs (alter f runId runs).
Proof.
  intros Hf. apply Forall2_alter_r.
  - apply Forall_Forall2_diag, Forall_forall. intros x _. apply sameOrder_refl.
  - intros x y Hx Hy _. rewrite Hx in Hy. injection Hy as <-. apply Hf.
Qed.

Lemma not_loaded runId s id item :
  payrollItems s !! id = Some item -> payrollRunId item <> runId ->
  id ∉ map loadedId (loadItems runId s).
Proof.
  intros Hitem Hne Hin. apply list_elem_of_fmap in Hin as (li & -> & Hli).
  apply loadItems_elem in Hli as (item' & Hitem' & Hr & _). congruence.
Qed.

(** X17.  Executing a run, whatever comes of it, writes nothing but that run
    and its items: workers, audit log, transfers and the other runs are
    as they were, the items of other runs are untouched, and every run
    and item still says what was asked for and what is owed to whom. *)
Theorem execute_frame env runId w :
  executes runId (db w) (db (snd (executePayrollRun env runId w))).
Proof.
  destruct (payrollRuns (db w) !! runId) as [run|] eqn:Hrun.
  2: { rewrite (execute_not_found env w runId Hrun). simpl.
       repeat split; try done.
       - apply Forall_Forall2_diag, Forall_forall. intros x _. apply sameOrder_refl.
       - apply sameDue_Forall2_refl. }
  destruct (decide (run_status run = RUN_PENDING)) as [Hst|Hst].
  2: { rewrite (execute_not_pending env w runId run Hrun Hst). simpl.
       repeat split; try done.
       - apply sameOrder_alter. intros r. by repeat split.
       - intros j Hj. simpl. by rewrite list_lookup_alter_ne.
       - apply sameDue_Forall2_refl. }
  destruct (execute_pending env w runId run Hrun Hst)
    as (rs & w2 & items' & evs & Hexec & Hp & Hdb & _).
  simpl in Hexec, Hp, Hdb. rewrite Hexec. simpl.
  set (w1 := with_db (set_payrollRuns (alter (run_set_status RUN_PROCESSING) runId)) w) in *.
  pose proof (processItems_writesItemsOnly env (loadItems runId (db w)) w1) as Hw.
  rewrite Hp in Hw. simpl in Hw.
  destruct Hw as (Hwk & Hruns & Hlogs & Hx & Hg & Hpm & Hitems).
  destruct (processItems_spec env (loadItems runId (db w)) w1)
    as (rs' & w2' & items'' & evs' & Hp' & _ & Hdb' & _ & Hframe & _).
  rewrite Hp in Hp'. injection Hp' as <- <-.
  simpl in Hwk, Hruns, Hlogs, Hx, Hg, Hpm, Hitems.
  repeat split; simpl; try done.
  - rewrite Hruns, list_alter_alter_eq.
    apply sameOrder_alter. intros r. by repeat split.
  - intros j Hj. rewrite list_lookup_alter_ne by done. rewrite Hruns.
    by rewrite list_lookup_alter_ne.
  - intros id item Hitem Hne. rewrite Hdb'. simpl.
    rewrite Hframe; [done|]. by eapply not_loaded.
Qed.

(** X18.  Executing a pending run makes, for each of its items in turn, the
    one payment call of the item (none for an item without a payment
    method), and no other: at most one call per item, and none for an
    item of another run. *)
Theorem execute_payment_calls env runId run w :
  payrollRuns (db w) !! runId = Some run ->
  run_status run = RUN_PENDING ->
  exists evs,
    trace (snd (executePayrollRun env runId w)) = trace w ++ evs
    /\ filter (fun e => is_payment_call e = true) evs
       = concat (map paymentCall (loadItems runId (db w)))
    /\ (length (filter (fun e => is_payment_call e = true) evs)
        <= length (loadItems runId (db w)))%nat.
Proof.
  intros Hrun Hst.
  destruct (execute_pending env w runId run Hrun Hst)
    as (rs & w2 & items' & evs & Hexec & Hp & _ & _).
  simpl in Hexec, Hp. rewrite Hexec. simpl.
  destruct (processItems_spec env (loadItems runId (db w))
              (with_db (set_payrollRuns (alter (run_set_status RUN_PROCESSING) runId)) w))
    as (rs' & w2' & items'' & evs' & Hp' & _ & _ & _ & _ & _ & _ & Htr & Hcalls & _).
  rewrite Hp in Hp'. injection Hp' as <- <-.
  exists evs'. split; [exact Htr|]. split; [exact Hcalls|].
  rewrite Hcalls. clear. induction (loadItems runId (db w)) as [|li rest IH]; [done|].
  simpl. rewrite length_app.
  assert (length (paymentCall li) <= 1)%nat.
  { destruct li as [[id item] [x|]]; unfold paymentCall; simpl; [|lia].
    destruct (truthy_value (walletId x)); [simpl; lia|].
    destruct (truthy_value (recipientId x)); simpl; lia. }
  lia.
Qed.

(** The sample run: one call, for the worker who has a wallet. *)
Lemma execute_payment_calls_witness :
  exists evs,
    trace (snd (executePayrollRun Samples.happyEnv 0 Samples.sampleWorld)) = evs
    /\ filter (fun e => is_payment_call e = true) evs
       = [CreateGaslessTransfer "wallet-a" "ethereum" "wallet-a" "10.50"].
Proof.
  destruct (execute_payment_calls Samples.happyEnv 0 Samples.sampleRun Samples.sampleWorld
              eq_refl eq_refl) as (evs & Htr & Hcalls & _).
  exists evs. split; [exact Htr|]. rewrite Hcalls. reflexivity.
Defined.

(** ** A run that has just been created *)

Lemma loadFrom_app runId s n a b :
  loadFrom runId s n (a ++ b)
  = loadFrom runId s n a ++ loadFrom runId s (n + length a) b.
Proof.
  revert n. induction a as [|x a IH]; intros n; simpl.
  - by rewrite Nat.add_0_r.
  - rewrite IH, <- app_assoc. do 3 f_equal. lia.
Qed.

Lemma loadFrom_all runId s n items :
  Forall (fun i => payrollRunId i = runId) items ->
  map loadedId (loadFrom runId s n items) = seq n (length items).
Proof.
  revert n. induction items as [|x rest IH]; intros n H; [done|].
  apply Forall_cons in H as [Hx Hrest]. simpl.
  rewrite decide_True by done. simpl. f_equal. by apply IH.
Qed.

Lemma countStatus_total rs :
  (countStatus entry_completed rs + countStatus entry_failed rs = length rs)%nat.
Proof.
  unfold countStatus. induction rs as [|r rs IH]; [done|].
  rewrite !filter_cons. destruct (entry_status r) eqn:E.
  - rewrite decide_True, decide_False by done. simpl. lia.
  - rewrite decide_False, decide_True by done. simpl. lia.
Qed.

Lemma processItems_ids env lis w rs w' :
  NoDup (map loadedId lis) ->
  processItems env lis w = (inl rs, w') ->
  map entry_payrollItemId rs = map loadedId lis.
Proof.
  intros Hnd Hp.
  destruct (processItems_spec env lis w)
    as (rs' & w'' & items' & evs & Hp' & Hlen & _ & _ & _ & _ & Hper & _).
  rewrite Hp in Hp'. injection Hp' as <- <-.
  apply list_eq. intros k. rewrite !list_lookup_fmap.
  destruct (lis !! k) as [li|] eqn:Hli.
  - destruct (rs !! k) as [r|] eqn:Hr.
    + simpl. f_equal. by apply (Hper Hnd k li r).
    + apply lookup_ge_None in Hr. apply lookup_lt_Some in Hli. lia.
  - apply lookup_ge_None in Hli. rewrite lookup_ge_None_2 by lia. done.
Qed.

(** The items of other runs after an execution. *)
Lemma execute_other_items env runId w (id : nat) item :
  payrollItems (db w) !! id = Some item ->
  payrollRunId item <> runId ->
  payrollItems (db (snd (executePayrollRun env runId w))) !! id = Some item.
Proof.
  intros Hitem Hne.
  destruct (payrollRuns (db w) !! runId) as [run|] eqn:Hrun.
  2: { by rewrite (execute_not_found env w runId Hrun). }
  destruct (decide (run_status run = RUN_PENDING)) as [Hst|Hst].
  2: { by rewrite (execute_not_pending env w runId run Hrun Hst). }
  destruct (execute_pending env w runId run Hrun Hst)
    as (rs & w2 & items' & evs & Hexec & Hp & _ & _).
  simpl in Hexec, Hp. rewrite Hexec. simpl.
  destruct (processItems_spec env (loadItems runId (db w))
              (with_db (set_payrollRuns (alter (run_set_status RUN_PROCESSING) runId)) w))
    as (rs' & w2' & items'' & evs' & Hp' & _ & Hdb' & _ & Hframe & _).
  rewrite Hp in Hp'. injection Hp' as <- <-.
  rewrite Hdb'. simpl. rewrite Hframe; [done|]. by eapply not_loaded.
Qed.

(** X19.  Creating a run and then executing it pays the rows of the request
    and nothing else: the execution answers with one result for each
    created item, counts every row as completed or failed, and leaves the
    items that were in the store before as they were. *)
Theorem create_then_execute env env' admin rows w :
  itemsReferToRuns (db w) ->
  exists res w1 ex w2,
    createPayrollRun env admin rows w = (inl res, w1)
    /\ executePayrollRun env' (created_runId res) w1 = (inl ex, w2)
    /\ map entry_payrollItemId (exec_results ex) = map fst (created_items res)
    /\ exec_total ex = length rows
    /\ (exec_completed ex + exec_failed ex = length rows)%nat
    /\ (forall id item, payrollItems (db w) !! id = Some item ->
          payrollItems (db w2) !! id = Some item).
Proof.
  intros Hfk.
  destruct (createPayrollRun_spec env admin rows w)
    as (items & w1 & evs & ws' & logs & Hrun & Hdb & Hlen & Hper & _ & _).
  simpl in Hrun, Hper.
  set (runId := length (payrollRuns (db w))) in *.
  assert (Hlook : payrollRuns (db w1) !! runId = Some (createdRun env admin rows)).
  { rewrite Hdb. simpl. rewrite lookup_app_r by done. unfold runId. by rewrite Nat.sub_diag. }
  destruct (execute_pending env' w1 _ _ Hlook eq_refl)
    as (rs & w2 & items' & evs' & Hexec & Hp & Hdb2 & _).
  simpl in Hexec, Hp.
  assert (Hitems : payrollItems (db w1) = payrollItems (db w) ++ map snd items).
  { by rewrite Hdb. }
  assert (Hold : loadFrom runId (db w1) 0 (payrollItems (db w)) = []).
  { apply loadFrom_none. eapply Forall_impl; [exact Hfk|]. simpl. unfold runId.
    intros i Hi. lia. }
  assert (Hnew : Forall (fun i => payrollRunId i = runId) (map snd items)).
  { apply Forall_forall. intros i Hi. apply list_elem_of_fmap in Hi as ([id x] & -> & Hi).
    apply list_elem_of_lookup in Hi as (k & Hk).
    destruct (rows !! k) as [row|] eqn:Hrow.
    - destruct (Hper k row Hrow) as (wid & worker & Hk' & _). rewrite Hk in Hk'.
      by injection Hk' as -> ->.
    - apply lookup_ge_None in Hrow. apply lookup_lt_Some in Hk. lia. }
  assert (Hids : map fst items = seq (length (payrollItems (db w))) (length rows)).
  { apply list_eq. intros k. rewrite list_lookup_fmap.
    destruct (rows !! k) as [row|] eqn:Hrow.
    - destruct (Hper k row Hrow) as (wid & worker & Hk' & _). rewrite Hk'. simpl.
      symmetry. apply lookup_seq. split; [done|]. by apply lookup_lt_Some in Hrow.
    - apply lookup_ge_None in Hrow. rewrite lookup_ge_None_2 by lia. simpl.
      symmetry. apply lookup_ge_None. rewrite length_seq. lia. }
  assert (Hload : map loadedId (loadItems runId (db w1))
                  = seq (length (payrollItems (db w))) (length rows)).
  { unfold loadItems. rewrite Hitems, loadFrom_app, Hold. simpl.
    rewrite (loadFrom_all _ _ _ _ Hnew), length_map, Hlen. done. }
  assert (Hres : map entry_payrollItemId rs = map fst items).
  { rewrite Hids, <- Hload. eapply processItems_ids; [|exact Hp].
    apply loadFrom_NoDup. }
  assert (Hn : length rs = length rows).
  { rewrite <- (length_map entry_payrollItemId), Hres, length_map. done. }
  exists (mkCreateResult runId (createdRun env admin rows) items), w1.
  eexists _, _. split; [exact Hrun|]. split; [exact Hexec|]. simpl.
  split; [exact Hres|]. split; [exact Hn|].
  split. { rewrite countStatus_total. exact Hn. }
  intros id item Hitem.
  pose proof (execute_other_items env' runId w1 id item) as Hkeep.
  rewrite Hexec in Hkeep. apply Hkeep.
  - rewrite Hitems. by apply lookup_app_l_Some.
  - unfold itemsReferToRuns in Hfk. rewrite Forall_forall in Hfk.
    assert (payrollRunId item < runId); [|lia].
    apply Hfk. by eapply list_elem_of_lookup_2.
Qed.

Lemma create_then_execute_witness :
  exists res w1 ex w2,
    createPayrollRun Samples.happyEnv "admin-1" [Samples.sampleRowA; Samples.sampleRowB] Samples.sampleWorld
    = (inl res, w1)
    /\ executePayrollRun Samples.happyEnv (created_runId res) w1 = (inl ex, w2)
    /\ exec_total ex = 2%nat.
Proof.
  destruct (create_then_execute Samples.happyEnv Samples.happyEnv "admin-1"
              [Samples.sampleRowA; Samples.sampleRowB] Samples.sampleWorld)
    as (res & w1 & ex & w2 & Hc & He & _ & Ht & _).
  { unfold itemsReferToRuns. simpl. repeat constructor. }
  exists res, w1, ex, w2. done.
Defined.

End ExecutionFacts.

(* ===================================================================== *)
(** * The workers a creation adds                                          *)
(* ===================================================================== *)

Module RosterFacts.
Import JsNum Ledger Payroll Frames.
Import PayrollFacts CreateFacts.

Lemma findOrCreateWorker_roster env row w :
  emailsUnique (db w) ->
  exists ws',
    workers (db (snd (findOrCreateWorker env row w))) = workers (db w) ++ ws'
    /\ Forall (fun x => worker_email x = row_email row) ws'
    /\ (length ws' <= 1)%nat
    /\ NoDup (map worker_email (workers (db w) ++ ws')).
Proof.
  unfold emailsUnique. intros Hnd.
  destruct (findWorkerByEmail (row_email row) (db w)) as [[id x]|] eqn:Hfind.
  - exists []. unfold findOrCreateWorker. unfold_m. rewrite Hfind. simpl.
    rewrite app_nil_r. split; [done|]. split; [done|]. split; [lia|done].
  - destruct (findOrCreateWorker_new env row w Hfind)
      as (w' & worker & log1 & log2 & Hrun & Hdb & _ & Hemail & _).
    simpl in Hrun. exists [worker]. rewrite Hrun. simpl. rewrite Hdb. simpl.
    split; [done|]. split; [by constructor|]. split; [lia|].
    rewrite map_app. apply NoDup_app. split; [done|]. simpl.
    split; [|apply NoDup_singleton].
    intros e He Hin. apply list_elem_of_singleton in Hin. subst e.
    apply list_elem_of_fmap in He as (y & Hy & Hin).
    unfold findWorkerByEmail in Hfind. apply list_find_None in Hfind.
    rewrite Forall_forall in Hfind. apply (Hfind y Hin). congruence.
Qed.

Lemma processRow_workers env runId row w :
  workers (db (snd (processRow env runId row w)))
  = workers (db (snd (findOrCreateWorker env row w))).
Proof.
  destruct (findOrCreateWorker_spec env row w) as (wid & w1 & evs & ws' & x & Hrun & _).
  unfold processRow, create_payrollItem. unfold_m. rewrite Hrun. reflexivity.
Qed.

Lemma processRows_roster env runId rows w :
  emailsUnique (db w) ->
  exists ws',
    workers (db (snd (processRows env runId rows w))) = workers (db w) ++ ws'
    /\ Forall (fun x => exists row, row ∈ rows /\ worker_email x = row_email row) ws'
    /\ (length ws' <= length rows)%nat
    /\ NoDup (map worker_email (workers (db w) ++ ws')).
Proof.
  revert w. induction rows as [|row rest IH]; intros w Hnd.
  - exists []. simpl. rewrite app_nil_r. split; [done|]. split; [done|]. split; [lia|done].
  - destruct (findOrCreateWorker_roster env row w Hnd) as (ws1 & Hw1 & He1 & Hl1 & Hnd1).
    rewrite <- processRow_workers with (runId := runId) in Hw1.
    destruct (processRow_spec env runId row w)
      as (wid & w1 & evs & ws0 & x & log & Hrun & _).
    rewrite Hrun in Hw1. simpl in Hw1.
    destruct (IH w1) as (ws2 & Hw2 & He2 & Hl2 & Hnd2).
    { unfold emailsUnique. by rewrite Hw1. }
    destruct (processRows_spec env runId rest w1) as (items & w2 & evs2 & ws0' & logs & Hrest & _).
    rewrite Hrest in Hw2. simpl in Hw2.
    exists (ws1 ++ ws2). simpl. unfold bind. rewrite Hrun, Hrest. simpl.
    rewrite Hw2, Hw1, <- app_assoc. split; [done|].
    split.
    { apply Forall_app. split.
      - eapply Forall_impl; [exact He1|]. simpl. intros y Hy. exists row.
        split; [apply list_elem_of_here|done].
      - eapply Forall_impl; [exact He2|]. simpl. intros y (r & Hr & Hy). exists r.
        split; [by apply list_elem_of_further|done]. }
    split. { rewrite length_app. simpl. lia. }
    rewrite Hw1, <- app_assoc in Hnd2. exact Hnd2.
Qed.

(** X20.  Creation keeps one worker per email address.  In a store whose
    workers have pairwise different addresses, creating a run leaves the
    workers that were there as they were, adds at most one worker per row,
    each with the address of a row, keeps the addresses pairwise
    different, and gives two rows with the same address the same worker. *)
Theorem create_one_worker_per_email env admin rows w :
  emailsUnique (db w) ->
  exists res w1 ws',
    createPayrollRun env admin rows w = (inl res, w1)
    /\ workers (db w1) = workers (db w) ++ ws'
    /\ emailsUnique (db w1)
    /\ (length ws' <= length rows)%nat
    /\ Forall (fun x => exists row, row ∈ rows /\ worker_email x = row_email row) ws'
    /\ (forall (j k : nat) rj rk ij ik,
          rows !! j = Some rj -> rows !! k = Some rk ->
          row_email rj = row_email rk ->
          created_items res !! j = Some ij -> created_items res !! k = Some ik ->
          workerId (snd ij) = workerId (snd ik)).
Proof.
  intros Hnd.
  destruct (createPayrollRun_spec env admin rows w)
    as (items & w1 & evs & ws0 & logs & Hrun & Hdb & Hlen & Hper & _ & _).
  simpl in Hrun, Hper.
  set (runId := length (payrollRuns (db w))) in *.
  set (run := mkPayrollRun admin DRAFT (computeTotalAmount env rows) (length rows) None).
  set (w0 := with_db (set_payrollRuns (fun l => l ++ [run])) (emit TxBegin w)).
  destruct (processRows_roster env runId rows w0 Hnd) as (ws' & Hw & He & Hl & Hnd').
  assert (Hsame : workers (db w1) = workers (db (snd (processRows env runId rows w0)))).
  { destruct (processRows_spec env runId rows w0)
      as (items0 & w2 & evs0 & ws2 & logs2 & Hrows & _).
    revert Hrun. unfold createPayrollRun, transaction, create_payrollRun. unfold_m. simpl.
    fold run. fold runId. fold w0. rewrite Hrows. simpl. intros [= _ <-]. reflexivity. }
  rewrite Hw in Hsame. change (workers (db w0)) with (workers (db w)) in Hsame, Hnd'.
  assert (Hws : ws0 = ws').
  { rewrite Hdb in Hsame. simpl in Hsame. by apply app_inv_head in Hsame. }
  subst ws0.
  exists (mkCreateResult runId (createdRun env admin rows) items), w1, ws'.
  split; [exact Hrun|]. split; [exact Hsame|].
  split. { unfold emailsUnique. by rewrite Hsame. }
  split; [exact Hl|]. split; [exact He|].
  simpl. intros j k rj rk ij ik Hj Hk Hjk Hij Hik.
  destruct (Hper j rj Hj) as (widj & xj & Hij' & Hxj & Hej).
  destruct (Hper k rk Hk) as (widk & xk & Hik' & Hxk & Hek).
  rewrite Hij in Hij'. rewrite Hik in Hik'. injection Hij' as ->. injection Hik' as ->.
  simpl. eapply NoDup_lookup; [exact Hnd'| |].
  - rewrite list_lookup_fmap, Hxj. simpl. rewrite Hej. reflexivity.
  - rewrite list_lookup_fmap, Hxk. simpl. rewrite Hek, Hjk. reflexivity.
Qed.

(** A request that names a new address twice: one worker is added. *)
Lemma create_one_worker_per_email_witness :
  exists res w1 ws',
    createPayrollRun Samples.happyEnv "admin-1"
      [mkWorkerRow "C" "c@x.com" "1.00" "base"; Samples.sampleRowA;
       mkWorkerRow "C again" "c@x.com" "2.00" "base"] Samples.sampleWorld
    = (inl res, w1)
    /\ workers (db w1) = workers (db Samples.sampleWorld) ++ ws'
    /\ map worker_email ws' = ["c@x.com"]
    /\ map (fun it => workerId (snd it)) (created_items res) = [2; 0; 2]%nat.
Proof.
  destruct (create_one_worker_per_email Samples.happyEnv "admin-1"
              [mkWorkerRow "C" "c@x.com" "1.00" "base"; Samples.sampleRowA;
               mkWorkerRow "C again" "c@x.com" "2.00" "base"] Samples.sampleWorld)
    as (res & w1 & ws' & Hc & Hw & _).
  { apply (bool_decide_unpack _). by vm_compute. }
  exists res, w1, ws'. split; [exact Hc|]. split; [exact Hw|].
  vm_compute in Hc. injection Hc as <- <-.
  vm_compute in Hw. injection Hw as <-. split; reflexivity.
Defined.

End RosterFacts.

(* ===================================================================== *)
(** * What monitoring a transfer can answer                                *)
(* ===================================================================== *)

Module MonitorOutcomeFacts.
Import JsNum Ledger Payroll CCTP Polling.
Import PayrollFacts.





End MonitorOutcomeFacts.

(* ===================================================================== *)
(** * Item statuses under every operation                                  *)
(* ===================================================================== *)

Module StatusFacts.
Import JsNum Ledger Payroll Webhooks Frames Operations.
Import PayrollFacts CreateFacts ReconciliationFacts FrameFacts ExecutionFacts.

Lemma mapPayoutStatus_words reported :
  mapPayoutStatus reported
  = if bool_decide (toLowerCase reported ∈ ["complete"; "completed"]) then COMPLETED
    else if bool_decide (toLowerCase reported ∈ ["failed"; "error"]) then FAILED
    else PROCESSING.
Proof.
  unfold mapPayoutStatus. cbv zeta. set (s := toLowerCase reported).
  assert (Hpair : forall a b : string, s <> a -> s <> b -> s ∉ [a; b]).
  { intros a b Ha Hb Hin. apply elem_of_cons in Hin as [Hin|Hin]; [done|].
    by apply list_elem_of_singleton in Hin. }
  destruct (String.eqb_spec s "complete") as [->|H1]; [done|].
  destruct (String.eqb_spec s "completed") as [->|H2]; [done|].
  rewrite (bool_decide_eq_false_2 (s ∈ ["complete"; "completed"])) by (by apply Hpair).
  destruct (String.eqb_spec s "failed") as [->|H3]; [done|].
  destruct (String.eqb_spec s "error") as [->|H4]; [done|].
  by rewrite (bool_decide_eq_false_2 (s ∈ ["failed"; "error"])) by (by apply Hpair).
Qed.

(** ** One operation *)

Lemma lookup_Forall2_sameDue (l l' : list PayrollItem) (id : nat) x :
  Forall2 sameDue l l' -> l !! id = Some x -> exists x', l' !! id = Some x'.
Proof.
  intros H Hx. destruct (Forall2_lookup_l _ _ _ _ _ H Hx) as (x' & Hx' & _). eauto.
Qed.

(** The item at a key after an execution: as it was, or COMPLETED or
    FAILED. *)
Lemma execute_item env runId w (id : nat) item :
  payrollItems (db w) !! id = Some item ->
  exists item',
    payrollItems (db (snd (executePayrollRun env runId w))) !! id = Some item'
    /\ (item' = item \/ terminal (status item') = true).
Proof.
  intros Hitem.
  destruct (payrollRuns (db w) !! runId) as [run|] eqn:Hrun.
  2: { rewrite (execute_not_found env w runId Hrun). simpl. eauto. }
  destruct (decide (run_status run = RUN_PENDING)) as [Hst|Hst].
  2: { rewrite (execute_not_pending env w runId run Hrun Hst). simpl. eauto. }
  destruct (execute_pending env w runId run Hrun Hst)
    as (rs & w2 & items' & evs & Hexec & Hp & _ & _).
  simpl in Hexec, Hp. rewrite Hexec. simpl.
  set (w1 := with_db (set_payrollRuns (alter (run_set_status RUN_PROCESSING) runId)) w) in *.
  destruct (processItems_spec env (loadItems runId (db w)) w1)
    as (rs0 & w20 & items0 & evs0 & Hp0 & Hlen & Hdb & _ & Hframe & _ & Hper & _).
  rewrite Hp in Hp0. injection Hp0 as <- <-. rewrite Hdb. simpl.
  destruct (decide (id ∈ map loadedId (loadItems runId (db w)))) as [Hin|Hout].
  - apply list_elem_of_fmap in Hin as (li & -> & Hli).
    apply list_elem_of_lookup in Hli as (k & Hk).
    assert (Hr : exists r, rs !! k = Some r).
    { apply lookup_lt_is_Some_2. rewrite Hlen. by apply lookup_lt_Some in Hk. }
    destruct Hr as [r Hr].
    destruct (Hper (loadFrom_NoDup _ _ _ _) k li r Hk Hr) as [_ Hs].
    specialize (Hs ltac:(by apply lookup_lt_Some in Hitem)).
    destruct (items0 !! loadedId li) as [item'|]; [|done].
    exists item'. split; [done|]. right. simpl in Hs. injection Hs as ->.
    unfold entryPayoutStatus. by destruct (entry_status r).
  - exists item. split; [|by left]. rewrite (Hframe id Hout). exact Hitem.
Qed.

Lemma perform_item env op w (id : nat) item :
  payrollItems (db w) !! id = Some item ->
  exists item',
    payrollItems (db (perform env op w)) !! id = Some item'
    /\ (status item' = status item
        \/ (status item' <> PENDING
            /\ (reportsTerminal op -> terminal (status item') = true))).
Proof.
  intros Hitem. destruct op as [admin rows|runId|r|req]; simpl.
  - destruct (createPayrollRun_spec env admin rows w)
      as (items & w' & evs & ws' & logs & Hrun & Hdb & _).
    simpl in Hrun. rewrite Hrun. simpl. rewrite Hdb. simpl.
    exists item. split; [by apply lookup_app_l_Some|by left].
  - destruct (execute_item env runId w id item Hitem) as (item' & Hitem' & [->|Ht]).
    + exists item. split; [done|by left].
    + exists item'. split; [done|]. right. split; [|done]. by destruct (status item').
  - destruct (updatePayoutStatus_item env (report_payoutId r) (report_status r)
                (report_transactionHash r) w id item Hitem) as (item' & Hitem' & Hst).
    exists item'. split; [done|]. destruct Hst as [Hst|Hst]; [by left|right].
    rewrite Hst. split; [apply mapPayoutStatus_not_pending|done].
  - destruct (webhook_db env req w) as [E|(pid & reported & tx & Hword & E)]; rewrite E.
    + exists item. split; [done|by left].
    + destruct (updatePayoutStatus_item env pid reported tx w id item Hitem)
        as (item' & Hitem' & Hst).
      exists item'. split; [done|]. destruct Hst as [Hst|Hst]; [by left|right].
      rewrite Hst. by destruct Hword as [-> | ->].
Qed.

(** The tables no operation writes. *)
Lemma perform_tables env op w :
  crossChainTransfers (db (perform env op w)) = crossChainTransfers (db w)
  /\ gasStationTransactions (db (perform env op w)) = gasStationTransactions (db w)
  /\ paymasterOperations (db (perform env op w)) = paymasterOperations (db w).
Proof.
  destruct op as [admin rows|runId|r|req]; simpl.
  - destruct (createPayrollRun_spec env admin rows w)
      as (items & w' & evs & ws' & logs & Hrun & Hdb & _).
    simpl in Hrun. rewrite Hrun. simpl. by rewrite Hdb.
  - destruct (payrollRuns (db w) !! runId) as [run|] eqn:Hrun.
    2: { by rewrite (execute_not_found env w runId Hrun). }
    destruct (decide (run_status run = RUN_PENDING)) as [Hst|Hst].
    2: { by rewrite (execute_not_pending env w runId run Hrun Hst). }
    destruct (execute_pending env w runId run Hrun Hst)
      as (rs & w2 & items' & evs & Hexec & Hp & _ & _).
    simpl in Hexec, Hp. rewrite Hexec. simpl.
    pose proof (processItems_writesItemsOnly env (loadItems runId (db w))
                  (with_db (set_payrollRuns (alter (run_set_status RUN_PROCESSING) runId))
                     w)) as H.
    rewrite Hp in H. simpl in H. destruct H as (_ & _ & _ & Hx & Hg & Hpm & _).
    by rewrite Hx, Hg, Hpm.
  - destruct (updatePayoutStatus_reconciles env (report_payoutId r) (report_status r)
                (report_transactionHash r) w) as (_ & _ & _ & Hx & Hg & Hpm & _).
    done.
  - destruct (webhook_db env req w) as [E|(pid & reported & tx & _ & E)]; rewrite E.
    + done.
    + destruct (updatePayoutStatus_reconciles env pid reported tx w)
        as (_ & _ & _ & Hx & Hg & Hpm & _).
      done.
Qed.

Lemma performAll_cons env op ops w :
  performAll env (op :: ops) w = performAll env ops (perform env op w).
Proof. reflexivity. Qed.

Lemma performAll_tables env ops w :
  crossChainTransfers (db (performAll env ops w)) = crossChainTransfers (db w)
  /\ gasStationTransactions (db (performAll env ops w)) = gasStationTransactions (db w)
  /\ paymasterOperations (db (performAll env ops w)) = paymasterOperations (db w).
Proof.
  revert w. induction ops as [|op ops IH]; intros w; [done|].
  rewrite performAll_cons.
  destruct (IH (perform env op w)) as (-> & -> & ->). apply perform_tables.
Qed.

Lemma performAll_item env ops w (id : nat) item :
  payrollItems (db w) !! id = Some item ->
  exists item',
    payrollItems (db (performAll env ops w)) !! id = Some item'
    /\ (status item <> PENDING -> status item' <> PENDING)
    /\ (Forall reportsTerminal ops ->
        terminal (status item) = true -> terminal (status item') = true).
Proof.
  revert w item. induction ops as [|op ops IH]; intros w item Hitem.
  { exists item. done. }
  rewrite performAll_cons.
  destruct (perform_item env op w id item Hitem) as (item1 & Hitem1 & Hst).
  destruct (IH _ item1 Hitem1) as (item' & Hitem' & Hnp & Hterm).
  exists item'. split; [done|]. split.
  - intros Hne. apply Hnp. destruct Hst as [->|[Hst _]]; done.
  - intros Hall Ht. apply Forall_cons in Hall as [Hop Hall]. apply Hterm; [done|].
    destruct Hst as [->|[_ Hst]]; [done|by apply Hst].
Qed.

(** ** Execution of a run whose items already have a status *)

Lemma execute_item_again env runId run w (id : nat) item :
  payrollItems (db w) !! id = Some item ->
  payrollRuns (db w) !! runId = Some run ->
  run_status run = RUN_PENDING ->
  payrollRunId item = runId ->
  let li : LoadedItem := (id, item, workers (db w) !! workerId item) in
  exists (k : nat) (ok : bool) evs,
    loadItems runId (db w) !! k = Some li
    /\ executionOutcomes env runId w !! k = Some ok
    /\ status <$> payrollItems (db (snd (executePayrollRun env runId w))) !! id
       = Some (if ok then COMPLETED else FAILED)
    /\ trace (snd (executePayrollRun env runId w)) = trace w ++ evs
    /\ forall e, e ∈ paymentCall li -> e ∈ evs.
Proof.
  intros Hitem Hrun Hst Hr li.
  assert (Hin : li ∈ loadItems runId (db w)).
  { exact (loadFrom_complete runId (db w) 0 _ id item Hitem Hr). }
  apply list_elem_of_lookup in Hin as (k & Hk).
  set (w1 := with_db (set_payrollRuns (alter (run_set_status RUN_PROCESSING) runId)) w).
  destruct (execute_pending env w runId run Hrun Hst)
    as (rs & w2 & items' & evs & Hexec & Hp & _ & Htr).
  simpl in Hexec, Hp. fold w1 in Hp.
  destruct (processItems_spec env (loadItems runId (db w)) w1)
    as (rs0 & w20 & items0 & evs0 & Hp0 & Hlen & Hdb & _ & _ & _ & Hper & Htr0 & Hcalls
        & Hout).
  rewrite Hp in Hp0. injection Hp0 as <- <-.
  assert (Hevs : evs0 = evs).
  { rewrite Htr in Htr0. change (trace w1) with (trace w) in Htr0.
    by apply app_inv_head in Htr0. }
  subst evs0.
  assert (Hr' : exists r, rs !! k = Some r).
  { apply lookup_lt_is_Some_2. rewrite Hlen. by apply lookup_lt_Some in Hk. }
  destruct Hr' as [r Hrk].
  assert (Hok : exists ok, executionOutcomes env runId w !! k = Some ok).
  { apply lookup_lt_is_Some_2. unfold executionOutcomes.
    rewrite dispatchOutcomes_length. by apply lookup_lt_Some in Hk. }
  destruct Hok as [ok Hok].
  exists k, ok, evs. split; [exact Hk|]. split; [exact Hok|].
  rewrite Hexec. simpl. split; [|split; [exact Htr|]].
  - destruct (Hper (loadFrom_NoDup _ _ _ _) k li r Hk Hrk) as [_ Hs].
    rewrite Hdb. simpl. unfold loadedId, li in Hs. simpl in Hs. rewrite Hs.
    2: { by apply lookup_lt_Some in Hitem. }
    f_equal.
    assert (Hm : map entryPayoutStatus rs !! k = Some (entryPayoutStatus r)).
    { by rewrite list_lookup_fmap, Hrk. }
    unfold executionOutcomes in Hok. fold w1 in Hok.
    rewrite Hout, list_lookup_fmap, Hok in Hm. by injection Hm.
  - intros e He.
    assert (Hc : e ∈ filter (fun e => is_payment_call e = true) evs).
    { rewrite Hcalls. apply list_elem_of_In, in_concat. exists (paymentCall li).
      split; [|by apply list_elem_of_In]. apply in_map, list_elem_of_In.
      by eapply list_elem_of_lookup_2. }
    by apply list_elem_of_filter in Hc as [_ Hc].
Qed.

(** C4, as the program has it.  The status of an item is written
    without a look at its current status, under every operation
    (createPayrollRun, executePayrollRun, updatePayoutStatus and the
    webhook endpoints).  No sequence of operations moves an item that has
    left PENDING back to PENDING.  updatePayoutStatus gives the item it is
    matched with the status COMPLETED for "complete" and "completed",
    FAILED for "failed" and "error" and PROCESSING for any other word
    (letters in any case), whatever the status was.  executePayrollRun on
    a pending run makes the payment call of every item of the run,
    whatever the status of the item, and leaves it COMPLETED or FAILED by
    the outcome of that call.  After every sequence of operations whose
    reports carry only those four words, an item that was COMPLETED or
    FAILED is COMPLETED or FAILED. *)
Theorem status_writes_are_overwrites env ops w (id : nat) item :
  payrollItems (db w) !! id = Some item ->
  (exists item',
     payrollItems (db (performAll env ops w)) !! id = Some item'
     /\ (status item <> PENDING -> status item' <> PENDING)
     /\ (Forall reportsTerminal ops ->
         terminal (status item) = true -> terminal (status item') = true))
  /\ (forall reported,
        mapPayoutStatus reported
        = if bool_decide (toLowerCase reported ∈ ["complete"; "completed"]) then COMPLETED
          else if bool_decide (toLowerCase reported ∈ ["failed"; "error"]) then FAILED
          else PROCESSING)
  /\ (forall pid reported tx,
        findItemByPayoutId pid (db w) = Some (id, item) ->
        status <$> payrollItems (db (perform env (Reported (mkReport pid reported tx)) w))
                   !! id
        = Some (mapPayoutStatus reported))
  /\ (forall runId run,
        payrollRuns (db w) !! runId = Some run ->
        run_status run = RUN_PENDING ->
        payrollRunId item = runId ->
        let li : LoadedItem := (id, item, workers (db w) !! workerId item) in
        exists (k : nat) (ok : bool) evs,
          loadItems runId (db w) !! k = Some li
          /\ executionOutcomes env runId w !! k = Some ok
          /\ status <$> payrollItems (db (perform env (Execute runId) w)) !! id
             = Some (if ok then COMPLETED else FAILED)
          /\ trace (perform env (Execute runId) w) = trace w ++ evs
          /\ forall e, e ∈ paymentCall li -> e ∈ evs).
Proof.
  intros Hitem.
  split; [by apply performAll_item|].
  split; [apply mapPayoutStatus_words|].
  split.
  - intros pid reported tx Hfind. simpl.
    by apply (updatePayoutStatus_overwrites env pid reported tx w id item).
  - intros runId run Hrun Hst Hr. simpl.
    by apply (execute_item_again env runId run w id item).
Qed.

(** The first item of the pending sample run, set to FAILED by a
    notification that names no payout, is paid when the run is executed
    and ends COMPLETED. *)
Lemma status_writes_are_overwrites_witness :
  let notice :=
    ToCircle (mkCircleRequest (Some "sha256=mac:{}")
                (mkCircleBody (Some "payouts.failed")
                   (Some (mkCircleData None None None)))) in
  let w := perform Samples.happyEnv (Notified notice) Samples.sampleWorld in
  status <$> payrollItems (db w) !! 0%nat = Some FAILED
  /\ run_status <$> payrollRuns (db w) !! 0%nat = Some RUN_PENDING
  /\ status <$> payrollItems (db (perform Samples.happyEnv (Execute 0) w)) !! 0%nat
     = Some COMPLETED
  /\ CreateGaslessTransfer "wallet-a" "ethereum" "wallet-a" "10.50"
     ∈ trace (perform Samples.happyEnv (Execute 0) w)
  /\ exists item',
       payrollItems (db (performAll Samples.happyEnv [Execute 0] w)) !! 0%nat = Some item'
       /\ terminal (status item') = true.
Proof.
  intros notice w.
  destruct (status_writes_are_overwrites Samples.happyEnv [Execute 0] w 0
              (mkPayrollItem 0 0 "10.50" "ETHEREUM" FAILED None None None None) eq_refl)
    as ((item' & Hitem' & _ & Hterm) & _ & _ & Hexec).
  destruct (Hexec 0%nat (mkPayrollRun "admin-1" RUN_PENDING (Fixed6 false 15750000) 2 None)
              eq_refl eq_refl eq_refl)
    as (k & ok & evs & Hk & Hok & Hst & Htr & Hcall).
  split; [reflexivity|]. split; [reflexivity|].
  assert (k = 0%nat) as ->.
  { destruct k as [|[|k]]; [done|discriminate Hk|discriminate Hk]. }
  vm_compute in Hok. injection Hok as <-.
  split; [exact Hst|]. split.
  - rewrite Htr. apply elem_of_app. right. apply Hcall. vm_compute. left.
  - exists item'. split; [exact Hitem'|]. apply Hterm; [|reflexivity].
    repeat constructor.
Defined.

(** ** The tables of transfers and operations *)

(** X16.  No sequence of runs created or executed, status reports and
    webhook requests writes a cross-chain transfer, a sponsored
    transaction or a paymaster operation.  A CCTP notification that says
    [attested] and carries an attestation is answered 500, and the
    transfers are as they were: none becomes ATTESTED. *)
Theorem transfers_are_never_written env ops w :
  crossChainTransfers (db (performAll env ops w)) = crossChainTransfers (db w)
  /\ gasStationTransactions (db (performAll env ops w)) = gasStationTransactions (db w)
  /\ paymasterOperations (db (performAll env ops w)) = paymasterOperations (db w)
  /\ forall messageHash attestation,
       attestation <> "" ->
       let body := mkCctpBody messageHash (Some attestation) (Some "attested") in
       fst (postCctp env body w)
       = Failed 500 "Failed to process CCTP webhook" "CCTP_WEBHOOK_ERROR"
       /\ crossChainTransfers (db (snd (postCctp env body w))) = crossChainTransfers (db w).
Proof.
  destruct (performAll_tables env ops w) as (Hx & Hg & Hpm).
  split; [exact Hx|]. split; [exact Hg|]. split; [exact Hpm|].
  intros messageHash attestation Hne body.
  unfold postCctp, respond. unfold_m. simpl.
  assert (Ht : negb (String.eqb attestation "") = true).
  { apply negb_true_iff, String.eqb_neq. done. }
  rewrite Ht. done.
Qed.

End StatusFacts.

(* ===================================================================== *)
(** * The life of a fee-abstracted operation                               *)
(* ===================================================================== *)

Module OperationFacts.
Import JsNum Ledger Payroll Paymaster Webhooks Operations.
Import PayrollFacts.

Lemma createUserOperationWithUSDCGas_outcome env wallet chain tx maxFee w :
  db (snd (createUserOperationWithUSDCGas env wallet chain tx maxFee w)) = db w
  /\ forall d, fst (createUserOperationWithUSDCGas env wallet chain tx maxFee w) = inl d ->
       js_gt (parseFloat_fixed (usdcGasFee d))
         (parseFloat (parseFloat_other env) (default defaultMaxGasFeeUSDC maxFee)) = false.
Proof.
  unfold createUserOperationWithUSDCGas, pm_estimateGas, createUSDCPermit, getNonce,
    parseUnits6.
  unfold_m.
  destruct (parseChain chain) as [c|]; simpl; [|done].
  destruct (estimateGas env (trace w) chain (tx_to tx) (tx_data tx) (tx_value tx))
    as [g|e]; simpl; [|done].
  destruct (js_gt _ _) eqn:Hgt; simpl; [done|].
  destruct (chainRead env _ "nonces" chain wallet) as [n|e]; simpl; [|done].
  destruct (calculateUSDCGasFee c g) as [neg m|x] eqn:Hfee; simpl; [|done].
  destruct (chainRead env _ "getTransactionCount" chain wallet) as [n'|e]; simpl; [|done].
  split; [done|]. intros d [= <-]. simpl. exact Hgt.
Qed.

Lemma submitUserOperation_db env op chain w :
  db (snd (submitUserOperation env op chain w)) = db w.
Proof.
  unfold submitUserOperation. unfold_m.
  destruct (sendUserOperation env (trace w) chain (sender op) (callData op)); done.
Qed.

Lemma existsb_false_Forall {A} (p : A -> bool) (l : list A) :
  existsb p l = false -> Forall (fun x => p x = false) l.
Proof.
  induction l as [|x l IH]; simpl; [done|].
  intros H. apply orb_false_iff in H as [Hx Hl]. constructor; [done|by apply IH].
Qed.

(** X22.  The fee-abstracted transaction route writes one thing at most.  When
    it answers 200, the store is the one before with one operation
    appended: that of the worker, on the chain in upper case, with the
    hash and the fee of the reply and the status "pending"; no operation
    had that hash before, and the fee did not compare greater than the
    maximum (that of the request, or "10.00").  In every other case the
    answer is a 400, a 404 or a 500 and the store is as it was. *)
Theorem usdc_gas_transaction_outcome env workerId body w :
  match postUsdcGasTransaction env workerId body w with
  | (Success statusCode reply _, w') =>
      statusCode = 200%Z
      /\ reply_status reply = "pending"
      /\ (exists chain,
            truthy_value (req_chain body) = Some chain
            /\ db w'
               = set_paymasterOperations
                   (fun l => l ++ [mkPaymasterOperationRow workerId (toUpperCase chain)
                                     (reply_userOpHash reply) "pending" None
                                     (Some (reply_gasFeeInUSDC reply)) None None])
                   (db w))
      /\ Forall (fun x => pm_userOpHash x <> reply_userOpHash reply)
           (paymasterOperations (db w))
      /\ js_gt (parseFloat_fixed (reply_gasFeeInUSDC reply))
           (parseFloat (parseFloat_other env)
              (default defaultMaxGasFeeUSDC (req_maxGasFeeUSDC body))) = false
  | (Failed statusCode _ _, w') =>
      (statusCode = 400 \/ statusCode = 404 \/ statusCode = 500)%Z /\ db w' = db w
  end.
Proof.
  unfold postUsdcGasTransaction.
  destruct (truthy_value (req_chain body)) as [chain|]; [|by auto].
  destruct (truthy_value (req_to body)) as [to|]; [|by auto].
  destruct (truthy_value (req_data body)) as [data|]; [|by auto].
  destruct (workers (db w) !! workerId) as [worker|]; [|by auto].
  destruct (truthy_value (walletId worker)) as [wallet|]; [|by auto].
  pose proof (createUserOperationWithUSDCGas_outcome env wallet chain
                (mkTransaction to data (req_value body)) (req_maxGasFeeUSDC body) w)
    as [Hdb1 Hfee].
  unfold bind.
  destruct (createUserOperationWithUSDCGas env wallet chain
              (mkTransaction to data (req_value body)) (req_maxGasFeeUSDC body) w)
    as [[d|e] w1]; simpl in *; [|by auto].
  pose proof (submitUserOperation_db env (userOperation d) chain w1) as Hdb2.
  destruct (submitUserOperation env (userOperation d) chain w1) as [[h|e] w2];
    simpl in *; [|split; [by auto|congruence]].
  unfold create_paymasterOperation. simpl.
  destruct (existsb _ (paymasterOperations (db w2))) eqn:Hex; simpl;
    [split; [by auto|congruence]|].
  unfold ret. simpl. split; [done|]. split; [done|].
  split. { exists chain. split; [done|]. by rewrite Hdb2, Hdb1. }
  split; [|by apply Hfee].
  apply existsb_false_Forall in Hex. rewrite Hdb2, Hdb1 in Hex.
  eapply Forall_impl; [exact Hex|]. simpl. intros x Hx E. rewrite E in Hx.
  by rewrite String.eqb_refl in Hx.
Qed.

(** What an accepted request has written. *)
Lemma postUsdcGasTransaction_accepted env workerId body w statusCode reply message w1 :
  postUsdcGasTransaction env workerId body w = (Success statusCode reply message, w1) ->
  exists chain,
    db w1
    = set_paymasterOperations
        (fun l => l ++ [mkPaymasterOperationRow workerId (toUpperCase chain)
                          (reply_userOpHash reply) "pending" None
                          (Some (reply_gasFeeInUSDC reply)) None None])
        (db w).
Proof.
  unfold postUsdcGasTransaction.
  destruct (truthy_value (req_chain body)) as [chain|]; [|done].
  destruct (truthy_value (req_to body)) as [to|]; [|done].
  destruct (truthy_value (req_data body)) as [data|]; [|done].
  destruct (workers (db w) !! workerId) as [worker|]; [|done].
  destruct (truthy_value (walletId worker)) as [wallet|]; [|done].
  pose proof (createUserOperationWithUSDCGas_outcome env wallet chain
                (mkTransaction to data (req_value body)) (req_maxGasFeeUSDC body) w)
    as [Hdb1 _].
  unfold bind.
  destruct (createUserOperationWithUSDCGas env wallet chain
              (mkTransaction to data (req_value body)) (req_maxGasFeeUSDC body) w)
    as [[d|e] w2]; simpl in *; [|done].
  pose proof (submitUserOperation_db env (userOperation d) chain w2) as Hdb2.
  destruct (submitUserOperation env (userOperation d) chain w2) as [[h|e] w3];
    simpl in *; [|done].
  unfold create_paymasterOperation. simpl.
  destruct (existsb _ (paymasterOperations (db w3))); simpl; [done|].
  unfold ret. simpl. intros [= _ <- _ <-]. exists chain. simpl. by rewrite Hdb2, Hdb1.
Qed.

(** X23.  The operation the route records is never touched again.  When
    the route has answered 200, the store holds the operation of the
    reply with the status "pending" and no completion time; a
    notification to the paymaster webhook, for the hash of the reply or
    any other, is answered 500; and after every sequence of runs created
    or executed, status reports and webhook requests the operations are
    the same: the recorded one is still "pending". *)
Theorem recorded_operation_stays_pending env workerId body w reply message w1 :
  postUsdcGasTransaction env workerId body w = (Success 200 reply message, w1) ->
  exists row,
    paymasterOperations (db w1) = paymasterOperations (db w) ++ [row]
    /\ pm_workerId row = workerId
    /\ pm_userOpHash row = reply_userOpHash reply
    /\ pm_status row = "pending"
    /\ pm_completedAt row = None
    /\ (forall env' notice,
          fst (postPaymaster env' notice w1)
          = Failed 500 "Failed to process Paymaster webhook" "PAYMASTER_WEBHOOK_ERROR")
    /\ (forall env' ops,
          paymasterOperations (db (performAll env' ops w1))
          = paymasterOperations (db w) ++ [row]).
Proof.
  intros Hpost.
  destruct (postUsdcGasTransaction_accepted env workerId body w _ _ _ _ Hpost)
    as (chain & Hdb).
  eexists. rewrite Hdb. simpl. split; [reflexivity|]. simpl.
  split; [done|]. split; [done|]. split; [done|]. split; [done|]. split; [done|].
  intros env' ops.
  destruct (StatusFacts.performAll_tables env' ops w1) as (_ & _ & ->).
  by rewrite Hdb.
Qed.

(** Worker 0 of the sample store sends a transaction on ethereum; the
    operation is recorded as pending, and a notification of its
    completion leaves it pending. *)
Lemma recorded_operation_stays_pending_witness :
  exists w1,
    snd (postUsdcGasTransaction Samples.happyEnv 0
           (mkUsdcGasBody (Some "ethereum") (Some "0x1c7D") (Some "0xa9059cbb") None None)
           Samples.sampleWorld) = w1
    /\ paymasterOperations
         (db (performAll Samples.happyEnv
                [Notified (ToPaymaster None
                             (mkPaymasterBody (Some "0xop1") (Some "completed") None None
                                (Some "0xtx")))] w1))
       = [mkPaymasterOperationRow 0 "ETHEREUM" "0xop1" "pending" None
            (Some (Fixed6 false 5250000)) None None].
Proof.
  destruct (recorded_operation_stays_pending Samples.happyEnv 0
              (mkUsdcGasBody (Some "ethereum") (Some "0x1c7D") (Some "0xa9059cbb") None None)
              Samples.sampleWorld
              (mkUsdcGasReply "0xop1" (Fixed6 false 5250000) "pending")
              (Some "Transaction with USDC gas payment executed")
              (snd (postUsdcGasTransaction Samples.happyEnv 0
                      (mkUsdcGasBody (Some "ethereum") (Some "0x1c7D") (Some "0xa9059cbb")
                         None None) Samples.sampleWorld)))
    as (row & Hrow & _ & _ & _ & _ & _ & Hafter).
  { vm_compute. reflexivity. }
  eexists. split; [reflexivity|].
  rewrite Hafter. vm_compute in Hrow. injection Hrow as <-. reflexivity.
Defined.

End OperationFacts.

(* ===================================================================== *)
(** * Properties of the call data of a sponsored transfer                  *)
(* ===================================================================== *)

Module EncodingFacts.
Import JsNum JsText JsInt Encoding.
Import TextFacts.

(** ** Radix 16 *)

Lemma hex_digit_of_hexDigit d : (0 <= d < 16)%Z -> hex_digit_of (hexDigit d) = Some d.
Proof.
  intros Hd. rewrite <- (Z2Nat.id d) by lia.
  assert (Hk : (Z.to_nat d < 16)%nat) by lia.
  generalize dependent (Z.to_nat d). intros k Hk.
  do 16 (destruct k as [|k]; [reflexivity|]). lia.
Qed.

Lemma pow16_succ (k : nat) : (16 ^ Z.of_nat (S k) = 16 * 16 ^ Z.of_nat k)%Z.
Proof. rewrite Nat2Z.inj_succ, Z.pow_succ_r; lia. Qed.

Lemma hexChars_value fuel n rest a0 :
  default 0%Z a0 = 0%Z -> (0 <= n < 16 ^ Z.of_nat (S fuel))%Z ->
  digitPrefix hex_digit_of 16 a0 (hexChars (S fuel) n rest)
  = digitPrefix hex_digit_of 16 (Some n) rest.
Proof.
  revert n rest a0. induction fuel as [|fuel IH]; intros n rest a0 Ha Hn.
  - change (16 ^ Z.of_nat 1)%Z with 16%Z in Hn.
    cbn [hexChars]. rewrite (proj2 (Z.ltb_lt n 16)) by lia.
    cbn [digitPrefix]. rewrite Z.mod_small by lia.
    rewrite hex_digit_of_hexDigit by lia. rewrite Ha. do 2 f_equal; lia.
  - rewrite pow16_succ in Hn.
    change (hexChars (S (S fuel)) n rest)
      with (if (n <? 16)%Z then hexDigit (n mod 16) :: rest
            else hexChars (S fuel) (n / 16) (hexDigit (n mod 16) :: rest)).
    destruct (Z.ltb_spec n 16) as [Hlt|Hge].
    + cbn [digitPrefix]. rewrite Z.mod_small by lia.
      rewrite hex_digit_of_hexDigit by lia. rewrite Ha. do 2 f_equal; lia.
    + rewrite IH; [|done|].
      * cbn [digitPrefix]. rewrite hex_digit_of_hexDigit.
        -- simpl default. pose proof (Z.div_mod n 16). do 2 f_equal; lia.
        -- apply Z.mod_pos_bound. lia.
      * split; [apply Z.div_pos; lia|]. apply Z.div_lt_upper_bound; lia.
Qed.

Lemma hexChars_length fuel n rest :
  (length (hexChars fuel n rest) <= fuel + length rest)%nat.
Proof.
  revert n rest. induction fuel as [|fuel IH]; intros n rest; simpl; [lia|].
  destruct (n <? 16)%Z; simpl; [lia|].
  etransitivity; [apply IH|]. simpl. lia.
Qed.

Lemma log2_fuel n : (0 <= n)%Z -> (n < 16 ^ Z.of_nat (S (Z.to_nat (Z.log2 n))))%Z.
Proof.
  intros Hn. destruct (decide (n = 0%Z)) as [->|Hne]; [done|].
  pose proof (Z.log2_nonneg n) as Hl.
  destruct (Z.log2_spec n) as [_ Hhi]; [lia|].
  rewrite Nat2Z.inj_succ, Z2Nat.id by done.
  eapply Z.lt_le_trans; [exact Hhi|].
  apply Z.pow_le_mono_l. lia.
Qed.

Lemma digitPrefix_zeros k a0 rest :
  default 0%Z a0 = 0%Z -> rest <> [] ->
  exists a1, default 0%Z a1 = 0%Z
    /\ digitPrefix hex_digit_of 16 a0 (replicate k (Ascii.ascii_of_nat 48) ++ rest)
       = digitPrefix hex_digit_of 16 a1 rest.
Proof.
  revert a0. induction k as [|k IH]; intros a0 Ha Hrest; [by exists a0|].
  simpl replicate. cbn [app digitPrefix].
  change (hex_digit_of (Ascii.ascii_of_nat 48)) with (Some 0%Z). cbv iota beta.
  rewrite Ha. apply IH; done.
Qed.

(** Writing a natural number in radix 16, padding it with zeros and
    reading it back gives the number. *)
Lemma hexValue_padStart_toHex k n :
  (0 <= n)%Z -> hexValue (padStart k (Ascii.ascii_of_nat 48) (toHex n)) = Some n.
Proof.
  intros Hn. unfold hexValue, padStart, toHex.
  rewrite chars_app, !chars_text.
  set (l := hexChars _ n []).
  assert (Hval : forall a0, default 0%Z a0 = 0%Z ->
                   digitPrefix hex_digit_of 16 a0 l = Some n).
  { intros a0 Ha. subst l. rewrite hexChars_value; [done|done|].
    split; [done|by apply log2_fuel]. }
  assert (Hl : l <> []).
  { intros E. specialize (Hval None eq_refl). by rewrite E in Hval. }
  destruct (digitPrefix_zeros (k - String.length (text l)) None l eq_refl Hl)
    as (a1 & Ha1 & ->).
  by apply Hval.
Qed.

Lemma toHex_length n : (0 <= n < 2 ^ 53)%Z -> (String.length (toHex n) <= 64)%nat.
Proof.
  intros Hn. unfold toHex. rewrite length_text.
  etransitivity; [apply hexChars_length|]. simpl.
  assert (Z.log2 n < 53)%Z; [|lia].
  destruct (decide (n = 0%Z)) as [->|Hne]; [done|].
  apply Z.log2_lt_pow2; lia.
Qed.

(** ** parseInt on a decimal literal *)

Lemma digit_of_code c d : digit_of c = Some d -> (48 <= code c <= 57)%nat.
Proof.
  unfold digit_of, code. destruct (_ && _) eqn:E; [|done]. intros _.
  apply andb_true_iff in E as [H1 H2].
  apply Nat.leb_le in H1. apply Nat.leb_le in H2. lia.
Qed.

Lemma digitPrefix_digits s a n rest :
  digits_acc a s = Some n -> endsNumeral rest ->
  digitPrefix digit_of 10 (Some a) (chars s ++ rest) = Some n.
Proof.
  revert a. induction s as [|c s IH]; intros a Hs Hrest.
  - simpl in Hs. injection Hs as ->. change (chars "") with (@nil Ascii.ascii).
    destruct rest as [|r rest]; [done|]. destruct Hrest as (Hr & _).
    simpl. by rewrite Hr.
  - simpl in Hs. change (chars (String c s)) with (c :: chars s). cbn [app digitPrefix].
    destruct (digit_of c) as [d|]; [|done]. simpl default. by apply IH.
Qed.

Lemma parseInt_digits whole n rest :
  digits whole = Some n -> endsNumeral rest ->
  parseInt (text (chars whole ++ rest)) = of_Q (inject_Z n).
Proof.
  intros Hw Hrest. destruct whole as [|c s]; [done|].
  unfold digits in Hw. simpl in Hw.
  destruct (digit_of c) as [d|] eqn:Hd; [|done].
  pose proof (digit_of_code c d Hd) as Hc.
  assert (Hall : digitPrefix digit_of 10 None (c :: chars s ++ rest) = Some n).
  { cbn [digitPrefix]. rewrite Hd. simpl default.
    rewrite Z.mul_0_r in *. by apply digitPrefix_digits. }
  unfold parseInt. rewrite chars_text.
  change (chars (String c s)) with (c :: chars s). cbn [app dropWhile].
  assert (Hws : isWhiteSpace c = false).
  { unfold isWhiteSpace. cbv zeta.
    repeat match goal with
           | |- context [(?a <=? ?b)%nat] => destruct (Nat.leb_spec a b)
           | |- context [(?a =? ?b)%nat] => destruct (Nat.eqb_spec a b)
           end; simpl; try done; lia. }
  rewrite Hws.
  assert (H45 : is_char 45 c = false). { unfold is_char. apply Nat.eqb_neq. lia. }
  assert (H43 : is_char 43 c = false). { unfold is_char. apply Nat.eqb_neq. lia. }
  rewrite H45, H43.
  assert (Hx : forall x l', chars s ++ rest = x :: l' ->
                 is_char 120 x || is_char 88 x = false).
  { intros x l' E. destruct s as [|c2 s2].
    - change (chars "") with (@nil Ascii.ascii) in E. simpl in E. subst rest.
      destruct Hrest as (_ & -> & ->). done.
    - change (chars (String c2 s2)) with (c2 :: chars s2) in E. simpl in E.
      injection E as <- _. simpl in Hw.
      destruct (digit_of c2) as [d2|] eqn:Hd2; [|done].
      pose proof (digit_of_code c2 d2 Hd2). unfold is_char.
      apply orb_false_iff. split; apply Nat.eqb_neq; lia. }
  destruct (chars s ++ rest) as [|x l'] eqn:El.
  - rewrite Hall. done.
  - rewrite (Hx x l' eq_refl), andb_false_r. rewrite Hall. done.
Qed.

Lemma toString16_whole other n :
  (0 <= n < 2 ^ 53)%Z -> toString16 other (of_Q (inject_Z n)) = toHex n.
Proof.
  intros Hn. rewrite IntFacts.of_Q_whole by done. unfold toString16, isInteger.
  rewrite Qfloor_Z. rewrite (proj2 (Qeq_bool_iff _ _)) by reflexivity.
  rewrite (proj2 (Qle_bool_iff 0 (inject_Z n))); [done|].
  change 0%Q with (inject_Z 0). rewrite <- Zle_Qle. lia.
Qed.

Lemma slice_from_length (s : string) :
  (String.length s <= 66)%nat -> (String.length (slice s 2 None) <= 64)%nat.
Proof.
  intros H. unfold slice. rewrite length_text. unfold sliceChars, sliceIndex.
  rewrite length_take, length_drop, length_chars. simpl. lia.
Qed.

Lemma padStart_length k c s :
  (String.length s <= k)%nat -> String.length (padStart k c s) = k.
Proof.
  intros H. unfold padStart.
  rewrite <- length_chars, chars_app, chars_text, length_app, length_replicate,
    length_chars. lia.
Qed.

(** X24.  The amount field of the call data holds the whole units of the
    amount and nothing of its fraction.  For an amount written as digits,
    a full stop and anything after it, with less than [2^53] whole units,
    and a recipient of at most 66 characters, the call data has 138
    characters, its last 64 characters read in radix 16 give the whole
    units, and it is the call data of the amount without its fraction. *)
Theorem encodeTransferFunction_whole_units other recipient whole frac n :
  digits whole = Some n -> (n < 2 ^ 53)%Z -> (String.length recipient <= 66)%nat ->
  let data := encodeTransferFunction other recipient (whole +:+ "." +:+ frac) in
  String.length data = 138%nat
  /\ hexValue (slice data (-64) None) = Some n
  /\ data = encodeTransferFunction other recipient whole.
Proof.
  intros Hw Hn Hr data.
  assert (H0 : (0 <= n)%Z) by (by eapply JsNumFacts.digits_nonneg).
  assert (Hp : parseInt (whole +:+ "." +:+ frac) = of_Q (inject_Z n)).
  { rewrite <- (text_chars (whole +:+ "." +:+ frac)), chars_app.
    apply parseInt_digits; [done|]. rewrite chars_app. done. }
  assert (Hp' : parseInt whole = of_Q (inject_Z n)).
  { rewrite <- (text_chars whole), <- (app_nil_r (chars whole)).
    by apply parseInt_digits. }
  subst data. unfold encodeTransferFunction. rewrite Hp, Hp'.
  rewrite toString16_whole by done.
  set (r := padStart 64 _ (slice recipient 2 None)).
  set (a := padStart 64 _ (toHex n)).
  assert (Hlr : String.length r = 64%nat).
  { apply padStart_length. by apply slice_from_length. }
  assert (Hla : String.length a = 64%nat).
  { apply padStart_length. by apply toHex_length. }
  assert (Hlen : length (chars ("0xa9059cbb" +:+ r +:+ a)) = 138%nat).
  { rewrite !chars_app, !length_app, !length_chars, Hlr, Hla. done. }
  split. { by rewrite <- length_chars. }
  split; [|done].
  unfold slice. change (-64)%Z with (- (64))%Z.
  rewrite (UtilsFacts.sliceChars_suffix _ 64) by (rewrite Hlen; lia).
  rewrite Hlen. rewrite !chars_app, app_assoc.
  rewrite drop_app_length'.
  - rewrite text_chars. subst a. by apply hexValue_padStart_toHex.
  - rewrite length_app, !length_chars, Hlr. done.
Qed.

(** 10.50 is encoded as ten units. *)
Lemma encodeTransferFunction_whole_units_witness :
  hexValue (slice (encodeTransferFunction (fun _ => "")
                     "0x1234567890123456789012345678901234567890" "10.50") (-64) None)
  = Some 10%Z.
Proof.
  destruct (encodeTransferFunction_whole_units (fun _ => "")
              "0x1234567890123456789012345678901234567890" "10" "50" 10)
    as (_ & H & _).
  - reflexivity.
  - lia.
  - simpl. lia.
  - exact H.
Defined.

End EncodingFacts.
